(** * Codimension: scope resolution, CML comments and flow-UI selection

    A shallow embedding of the algorithmic parts of the Codimension IDE:
    - [src/autocomplete/bufferutils.py]: the text cursor context
      ([TextCursorContext], [_IdentifyScope], [getContext],
      [_isOnDefinitionLine]);
    - [src/flowui/cml.py]: colour specifications and CML comments
      ([readColor], [CMLsw], [CMLcc], [CMLrt], [CMLVersion]);
    - [src/editor/flowuimouse.py] and [src/flowui/scopeitems.py]: selection
      containment and the nearest-item query.

    Python integers are unbounded, so they are [Z]; Python exceptions are
    the [Raise] results of a small error monad. *)

From Equations Require Import Equations.
From stdpp Require Import base option list gmap strings pretty.
From Stdlib Require Import ZArith Ascii String Lia ZifyBool.

Set Warnings "-register-all".

Local Open Scope string_scope.
Local Open Scope list_scope.
Local Open Scope Z_scope.

(** ** Python values and exceptions *)

Module Py.

(** The exceptions the modelled code can raise. [Exception_] is a plain
    [Exception(msg)]; the others are the built-in subclasses by name. *)
Inductive exn : Type :=
| Exception_ (msg : string)
| NameError (msg : string)
| IndexError
| KeyError
| ValueError
| AttributeError
| UnboundLocalError.

Inductive result (A : Type) : Type :=
| Ok (a : A)
| Raise (e : exn).
Arguments Ok {A} a.
Arguments Raise {A} e.

Definition bind {A B} (r : result A) (k : A -> result B) : result B :=
  match r with
  | Ok a => k a
  | Raise e => Raise e
  end.

Definition is_ok {A} (r : result A) : bool :=
  match r with Ok _ => true | Raise _ => false end.

(** [l[i]] with Python's negative indices; [IndexError] out of range. *)
Definition index {A} (l : list A) (i : Z) : result A :=
  let n := Z.of_nat (List.length l) in
  let j := if i <? 0 then i + n else i in
  if (0 <=? j) && (j <? n) then
    match l !! Z.to_nat j with
    | Some a => Ok a
    | None => Raise IndexError
    end
  else Raise IndexError.

(** [l[:k]]: never raises; a negative [k] counts from the end. *)
Definition slice_to {A} (l : list A) (k : Z) : list A :=
  let n := Z.of_nat (List.length l) in
  let j := if k <? 0 then Z.max 0 (k + n) else k in
  take (Z.to_nat j) l.

(** [xrange(a, b)] *)
Definition xrange (a b : Z) : list Z := seqZ a (b - a).

(** *** Byte strings *)

Definition chars (s : string) : list ascii := list_ascii_of_string s.
Definition str (l : list ascii) : string := string_of_list_ascii l.

Definition len (s : string) : Z := Z.of_nat (String.length s).

(** The characters [str.strip] removes and [int] skips:
    space, tab, line feed, vertical tab, form feed, carriage return. *)
Definition isspace (c : ascii) : bool :=
  let n := nat_of_ascii c in
  (n =? 32)%nat || ((9 <=? n)%nat && (n <=? 13)%nat).

Fixpoint lstrip_chars (l : list ascii) : list ascii :=
  match l with
  | c :: rest => if isspace c then lstrip_chars rest else l
  | [] => []
  end.

Definition lstrip (s : string) : string := str (lstrip_chars (chars s)).
Definition rstrip (s : string) : string :=
  str (rev (lstrip_chars (rev (chars s)))).
Definition strip (s : string) : string := lstrip (rstrip s).

Fixpoint startswith (s p : string) {struct p} : bool :=
  match p, s with
  | EmptyString, _ => true
  | String _ _, EmptyString => false
  | String a p', String b s' => Ascii.eqb a b && startswith s' p'
  end.
Definition endswith (s p : string) : bool :=
  startswith (str (rev (chars s))) (str (rev (chars p))).
Arguments startswith : simpl never.

(** [s[a:b]] for [0 <= a <= b] and [s[a:]] for [0 <= a]. *)
Definition slice (s : string) (a b : nat) : string :=
  String.substring a (b - a) s.
Definition slice_from (s : string) (a : nat) : string :=
  String.substring a (String.length s - a) s.

(** [str(n)] of an integer. *)
Definition str_of_int (n : Z) : string := pretty n.

(** [s.split(sep)] for a one character separator. *)
Fixpoint split_chars (sep : ascii) (l : list ascii) (field : list ascii)
  : list string :=
  match l with
  | [] => [str (rev field)]
  | c :: rest =>
      if Ascii.eqb c sep then str (rev field) :: split_chars sep rest []
      else split_chars sep rest (c :: field)
  end.

Definition split (s : string) (sep : ascii) : list string :=
  split_chars sep (chars s) [].

(** [s.replace(old, new)] for a one character [old]. *)
Fixpoint replace_char (old : ascii) (new : string) (s : string) : string :=
  match s with
  | EmptyString => EmptyString
  | String c rest =>
      if Ascii.eqb c old then new +:+ replace_char old new rest
      else String c (replace_char old new rest)
  end.

(** [" " * n] *)
Definition spaces (n : Z) : string :=
  str (replicate (Z.to_nat n) " "%char).

(** *** [int(s, base)] of Python 2.7 for the bases 10 and 16

    Blanks around the literal are skipped; an optional sign comes next,
    and the blanks after it are skipped too ([PyOS_strtol] takes the
    sign and [PyOS_strtoul] skips white space again); then, in base 16
    after an optional [0x], at least one digit of the base and nothing
    else. Anything else is a [ValueError]. *)
Definition digitValue (c : ascii) : option Z :=
  let n := Z.of_nat (nat_of_ascii c) in
  if (48 <=? n) && (n <=? 57) then Some (n - 48)
  else if (97 <=? n) && (n <=? 122) then Some (n - 87)
  else if (65 <=? n) && (n <=? 90) then Some (n - 55)
  else None.

Fixpoint digits (base : Z) (l : list ascii) (acc : Z) : option Z :=
  match l with
  | [] => Some acc
  | c :: rest =>
      match digitValue c with
      | Some d => if d <? base then digits base rest (acc * base + d) else None
      | None => None
      end
  end.

Definition int (s : string) (base : Z) : result Z :=
  let l := rev (lstrip_chars (rev (lstrip_chars (chars s)))) in
  let '(sign, l) :=
    match l with
    | "+"%char :: rest => (1, rest)
    | "-"%char :: rest => (-1, rest)
    | _ => (1, l)
    end in
  let l := lstrip_chars l in
  let l :=
    if base =? 16 then
      match l with
      | "0"%char :: "x"%char :: rest => rest
      | "0"%char :: "X"%char :: rest => rest
      | _ => l
      end
    else l in
  match l with
  | [] => Raise ValueError
  | _ =>
      match digits base l 0 with
      | Some v => Ok (sign * v)
      | None => Raise ValueError
      end
  end.

(** [hex(n)]: ["0x"] and the lowercase hexadecimal digits, after ["-"]
    for a negative [n]. *)
Definition hexDigit (d : Z) : ascii :=
  if d <? 10 then ascii_of_nat (Z.to_nat (48 + d))
  else ascii_of_nat (Z.to_nat (87 + d)).

Fixpoint hexDigits (fuel : nat) (n : Z) (acc : list ascii) : list ascii :=
  match fuel with
  | O => acc
  | S fuel' =>
      let acc := hexDigit (n mod 16) :: acc in
      if n <? 16 then acc else hexDigits fuel' (n / 16) acc
  end.

Definition hex (n : Z) : string :=
  let m := Z.abs n in
  (if n <? 0 then "-" else "") +:+ "0x" +:+
  str (hexDigits (S (Z.to_nat (Z.log2 m))) m []).

(** The line feed that ends a line of text. *)
Definition LF : string := String (ascii_of_nat 10) EmptyString.

(** [s == ""] *)
Definition isempty (s : string) : bool :=
  match s with EmptyString => true | String _ _ => false end.

End Py.

Import Py.

Notation "x <- r ;; k" := (Py.bind r (fun x => k))
  (at level 100, r at next level, right associativity).

(** ** bufferutils.py *)

Module BufferUtils.

(** A decorator of the brief module info: [decor.line], [decor.pos]. *)
Record Decorator : Type := mkDecorator {
  decor_line : Z;
  decor_pos : Z
}.

(** A class or a function of the brief module info. The resolver reads
    [line], [keywordLine], [colonLine], [colonPos], [decorators],
    [classes] and [functions]. *)
Inductive InfoObj : Type := mkInfoObj {
  name : string;
  line : Z;
  pos : Z;
  keywordLine : Z;
  keywordPos : Z;
  colonLine : Z;
  colonPos : Z;
  decorators : list Decorator;
  classes : list InfoObj;
  functions : list InfoObj
}.

(** The module level object holds top level classes and functions. *)
Record BriefModuleInfo : Type := mkBriefModuleInfo {
  mod_classes : list InfoObj;
  mod_functions : list InfoObj
}.

(** What [_IdentifyScope] receives as [infoObject]: the module on the
    first call, a class or a function on the nested ones. Only
    [.classes] and [.functions] are read from it. *)
Inductive infoNode : Type :=
| OfModule (m : BriefModuleInfo)
| OfDef (d : InfoObj).

Definition classes_of (o : infoNode) : list InfoObj :=
  match o with OfModule m => mod_classes m | OfDef d => classes d end.

Definition functions_of (o : infoNode) : list InfoObj :=
  match o with OfModule m => mod_functions m | OfDef d => functions d end.

Inductive ScopeType : Type :=
| GlobalScope       (* 1 *)
| FunctionScope     (* 2 *)
| ClassScope        (* 3 *)
| ClassMethodScope. (* 4 *)

Definition ScopeType_eqb (a b : ScopeType) : bool :=
  match a, b with
  | GlobalScope, GlobalScope | FunctionScope, FunctionScope
  | ClassScope, ClassScope | ClassMethodScope, ClassMethodScope => true
  | _, _ => false
  end.

(** [TextCursorContext]: [self.levels] (each item is [infoObj, scope
    type]) and [self.length]. *)
Record TextCursorContext : Type := mkContext {
  levels : list (InfoObj * ScopeType);
  length : Z
}.

(** [__init__] *)
Definition newContext : TextCursorContext :=
  {| levels := []; length := 0 |}.

Definition addFunction (self : TextCursorContext) (infoObj : InfoObj)
  : result TextCursorContext :=
  if length self =? 0 then
    Ok {| levels := levels self ++ [(infoObj, FunctionScope)];
          length := length self + 1 |}
  else
    last <- Py.index (levels self) (length self - 1) ;;
    if ScopeType_eqb (snd last) ClassScope then
      Ok {| levels := levels self ++ [(infoObj, ClassMethodScope)];
            length := length self + 1 |}
    else
      Ok {| levels := levels self ++ [(infoObj, FunctionScope)];
            length := length self + 1 |}.

Definition getScope (self : TextCursorContext) : result ScopeType :=
  if length self =? 0 then Ok GlobalScope
  else
    last <- Py.index (levels self) (length self - 1) ;;
    Ok (snd last).

Definition getInfoObj (self : TextCursorContext) : result (option InfoObj) :=
  if length self =? 0 then Ok None
  else
    last <- Py.index (levels self) (length self - 1) ;;
    Ok (Some (fst last)).

Definition addClass (self : TextCursorContext) (infoObj : InfoObj)
  : TextCursorContext :=
  {| levels := levels self ++ [(infoObj, ClassScope)];
     length := length self + 1 |}.

Definition getLastScopeLine (self : TextCursorContext) : result Z :=
  if length self =? 0 then Raise (Exception_ "No scopes found")
  else
    last <- Py.index (levels self) (length self - 1) ;;
    Ok (colonLine (fst last)).

(** [int( nonSpacePos / 4 )] on Python 2 integers is the floor division. *)
Definition stripLevels (self : TextCursorContext) (nonSpacePos : Z)
  : TextCursorContext :=
  let maxLevels := nonSpacePos / 4 in
  if maxLevels <? length self then
    {| levels := Py.slice_to (levels self) maxLevels;
       length := maxLevels |}
  else self.

(** [_isOnDefinitionLine]: the decorator loop lowers [lowLimit]. *)
Definition _isOnDefinitionLine (infoObj : InfoObj) (line pos : Z) : bool :=
  let lowLimit := Z.shiftl (keywordLine infoObj) 16 in
  let upLimit := Z.shiftl (colonLine infoObj) 16 + colonPos infoObj in
  let current := Z.shiftl line 16 + pos in
  let lowLimit :=
    fold_left
      (fun lowLimit decor =>
         let candidate := Z.shiftl (decor_line decor) 16 + decor_pos decor in
         if candidate <? lowLimit then candidate else lowLimit)
      (decorators infoObj) lowLimit in
  (current >=? lowLimit) && (current <=? upLimit).


(** *** [_IdentifyScope]

    The two [for] loops either leave the function ([return]) or fall
    through with the nearest line and object found so far. *)
Inductive loopExit : Type :=
| Returned (context : result TextCursorContext)
| Fell (nearestLine : Z) (nearestInfo : option InfoObj).

(** [for klass in infoObject.classes: ...] *)
Fixpoint classLoop (klasses : list InfoObj) (context : TextCursorContext)
    (cursorLine cursorPos : Z) (skipDef : bool)
    (nearestClassLine : Z) (nearestClassInfo : option InfoObj) : loopExit :=
  match klasses with
  | [] => Fell nearestClassLine nearestClassInfo
  | klass :: rest =>
      let onDef := _isOnDefinitionLine klass cursorLine cursorPos in
      if skipDef then
        if onDef then Returned (Ok context)
        else if (line klass >? nearestClassLine) && (line klass <? cursorLine)
        then classLoop rest context cursorLine cursorPos skipDef
               (line klass) (Some klass)
        else classLoop rest context cursorLine cursorPos skipDef
               nearestClassLine nearestClassInfo
      else
        if onDef then Returned (Ok (addClass context klass))
        else if (line klass >? nearestClassLine) && (line klass <? cursorLine)
        then classLoop rest context cursorLine cursorPos skipDef
               (line klass) (Some klass)
        else classLoop rest context cursorLine cursorPos skipDef
               nearestClassLine nearestClassInfo
  end.

(** [for func in infoObject.functions: ...] *)
Fixpoint funcLoop (funcs : list InfoObj) (context : TextCursorContext)
    (cursorLine cursorPos : Z) (skipDef : bool) (nearestClassLine : Z)
    (nearestFuncLine : Z) (nearestFuncInfo : option InfoObj) : loopExit :=
  match funcs with
  | [] => Fell nearestFuncLine nearestFuncInfo
  | func :: rest =>
      let onDef := _isOnDefinitionLine func cursorLine cursorPos in
      if skipDef then
        if onDef then Returned (Ok context)
        else if (line func >? nearestClassLine) &&
                (line func >? nearestFuncLine) &&
                (line func <=? cursorLine)
        then funcLoop rest context cursorLine cursorPos skipDef
               nearestClassLine (line func) (Some func)
        else funcLoop rest context cursorLine cursorPos skipDef
               nearestClassLine nearestFuncLine nearestFuncInfo
      else
        if onDef then Returned (addFunction context func)
        else if (line func >? nearestClassLine) &&
                (line func >? nearestFuncLine) &&
                (line func <=? cursorLine)
        then funcLoop rest context cursorLine cursorPos skipDef
               nearestClassLine (line func) (Some func)
        else funcLoop rest context cursorLine cursorPos skipDef
               nearestClassLine nearestFuncLine nearestFuncInfo
  end.

(** What is left to do after the two loops. *)
Inductive walkStep : Type :=
| Stop (context : result TextCursorContext)
| IntoClass (nearestClassInfo : InfoObj)
| IntoFunction (nearestFuncInfo : InfoObj).

Definition scanLevel (infoObject : infoNode) (context : TextCursorContext)
    (cursorLine cursorPos : Z) (skipDef : bool) : walkStep :=
  match classLoop (classes_of infoObject) context cursorLine cursorPos
          skipDef (-1) None with
  | Returned r => Stop r
  | Fell nearestClassLine nearestClassInfo =>
      match funcLoop (functions_of infoObject) context cursorLine cursorPos
              skipDef nearestClassLine (-1) None with
      | Returned r => Stop r
      | Fell nearestFuncLine nearestFuncInfo =>
          if (nearestClassLine =? -1) && (nearestFuncLine =? -1)
          then Stop (Ok context)
          else if nearestClassLine >? nearestFuncLine then
            match nearestClassInfo with
            | Some c => IntoClass c
            | None => Stop (Raise AttributeError)
            end
          else
            match nearestFuncInfo with
            | Some f => IntoFunction f
            | None => Stop (Raise AttributeError)
            end
      end
  end.

(** The measure of the recursion: the number of definitions below. *)
Fixpoint sizeInfo (d : InfoObj) : nat :=
  match d with
  | mkInfoObj _ _ _ _ _ _ _ _ cs fs =>
      S (list_sum (map sizeInfo cs) + list_sum (map sizeInfo fs))
  end.

Definition sizeObject (o : infoNode) : nat :=
  match o with
  | OfModule m =>
      S (list_sum (map sizeInfo (mod_classes m)) +
         list_sum (map sizeInfo (mod_functions m)))
  | OfDef d => sizeInfo d
  end.


Definition inspect {A} (a : A) : {b : A | a = b} := exist _ a eq_refl.

Lemma sizeInfo_elem (d : InfoObj) (l : list InfoObj) :
  d ∈ l -> (sizeInfo d <= list_sum (map sizeInfo l))%nat.
Proof.
  induction 1 as [d l|d d' l _ IH]; simpl; lia.
Qed.

Lemma classLoop_Fell klasses context cursorLine cursorPos skipDef nl0 ni0 nl ni :
  classLoop klasses context cursorLine cursorPos skipDef nl0 ni0 = Fell nl ni ->
  Forall (fun k => _isOnDefinitionLine k cursorLine cursorPos = false) klasses /\
  nl0 <= nl /\
  (forall k, k ∈ klasses -> line k < cursorLine -> line k <= nl) /\
  ((nl = nl0 /\ ni = ni0) \/
   (exists c, ni = Some c /\ c ∈ klasses /\ line c = nl /\
              nl0 < nl /\ nl < cursorLine)).
Proof.
  revert nl0 ni0.
  induction klasses as [|k rest IH]; intros nl0 ni0 H; simpl in H.
  - inversion H; subst. split; [constructor|].
    split; [lia|]. split; [|left; done].
    intros k Hk. by apply elem_of_nil in Hk.
  - destruct (_isOnDefinitionLine k cursorLine cursorPos) eqn:Hon.
    { destruct skipDef; discriminate. }
    assert (Hstep :
      (if (line k >? nl0) && (line k <? cursorLine)
       then classLoop rest context cursorLine cursorPos skipDef (line k) (Some k)
       else classLoop rest context cursorLine cursorPos skipDef nl0 ni0)
      = Fell nl ni) by (destruct skipDef; exact H).
    clear H.
    destruct ((line k >? nl0) && (line k <? cursorLine)) eqn:Hc.
    + apply andb_prop in Hc as [Hc1 Hc2].
      apply IH in Hstep as (Hall & Hle & Hmax & Hsel).
      split; [by constructor|]. split; [lia|]. split.
      * intros k' Hk' Hlt. apply elem_of_cons in Hk' as [->|Hk']; [lia|eauto].
      * right. destruct Hsel as [[-> ->]|(c & -> & Hin & Hl & Hgt & Hlt)].
        -- exists k. repeat split; [apply elem_of_cons; by left|lia|lia].
        -- exists c. repeat split; [apply elem_of_cons; by right|done|lia|done].
    + apply IH in Hstep as (Hall & Hle & Hmax & Hsel).
      split; [by constructor|]. split; [done|]. split.
      * intros k' Hk' Hlt. apply elem_of_cons in Hk' as [->|Hk']; [|eauto].
        apply andb_false_iff in Hc as [Hc|Hc]; lia.
      * destruct Hsel as [?|(c & -> & Hin & Hl & Hgt & Hlt)]; [by left|].
        right. exists c. repeat split; [apply elem_of_cons; by right|done..].
Qed.


Lemma funcLoop_Fell funcs context cursorLine cursorPos skipDef ncl nl0 ni0 nl ni :
  funcLoop funcs context cursorLine cursorPos skipDef ncl nl0 ni0 = Fell nl ni ->
  Forall (fun f => _isOnDefinitionLine f cursorLine cursorPos = false) funcs /\
  nl0 <= nl /\
  (forall f, f ∈ funcs -> ncl < line f -> line f <= cursorLine -> line f <= nl) /\
  ((nl = nl0 /\ ni = ni0) \/
   (exists f, ni = Some f /\ f ∈ funcs /\ line f = nl /\
              nl0 < nl /\ ncl < nl /\ nl <= cursorLine)).
Proof.
  revert nl0 ni0.
  induction funcs as [|k rest IH]; intros nl0 ni0 H; simpl in H.
  - inversion H; subst. split; [constructor|].
    split; [lia|]. split; [|left; done].
    intros k Hk. by apply elem_of_nil in Hk.
  - destruct (_isOnDefinitionLine k cursorLine cursorPos) eqn:Hon.
    { destruct skipDef; discriminate. }
    assert (Hstep :
      (if (line k >? ncl) && (line k >? nl0) && (line k <=? cursorLine)
       then funcLoop rest context cursorLine cursorPos skipDef ncl (line k) (Some k)
       else funcLoop rest context cursorLine cursorPos skipDef ncl nl0 ni0)
      = Fell nl ni) by (destruct skipDef; exact H).
    clear H.
    destruct ((line k >? ncl) && (line k >? nl0) && (line k <=? cursorLine)) eqn:Hc.
    + apply andb_prop in Hc as [Hc Hc3]. apply andb_prop in Hc as [Hc1 Hc2].
      apply IH in Hstep as (Hall & Hle & Hmax & Hsel).
      split; [by constructor|]. split; [lia|]. split.
      * intros k' Hk' Hgt Hlt. apply elem_of_cons in Hk' as [->|Hk']; [lia|eauto].
      * right. destruct Hsel as [[-> ->]|(c & -> & Hin & Hl & Hgt & Hncl & Hlt)].
        -- exists k. repeat split; [apply elem_of_cons; by left|lia..].
        -- exists c. repeat split; [apply elem_of_cons; by right|done|lia|done..].
    + apply IH in Hstep as (Hall & Hle & Hmax & Hsel).
      split; [by constructor|]. split; [done|]. split.
      * intros k' Hk' Hgt Hlt. apply elem_of_cons in Hk' as [->|Hk']; [|eauto].
        apply andb_false_iff in Hc as [Hc|Hc]; [|lia].
        apply andb_false_iff in Hc as [Hc|Hc]; lia.
      * destruct Hsel as [?|(c & -> & Hin & Hl & Hgt & Hncl & Hlt)]; [by left|].
        right. exists c. repeat split; [apply elem_of_cons; by right|done..].
Qed.

Lemma classLoop_Returned klasses context cursorLine cursorPos skipDef nl0 ni0 r :
  classLoop klasses context cursorLine cursorPos skipDef nl0 ni0 = Returned r ->
  exists pre k post,
    klasses = pre ++ k :: post /\
    Forall (fun k => _isOnDefinitionLine k cursorLine cursorPos = false) pre /\
    _isOnDefinitionLine k cursorLine cursorPos = true /\
    r = Ok (if skipDef then context else addClass context k).
Proof.
  revert nl0 ni0.
  induction klasses as [|k rest IH]; intros nl0 ni0 H; simpl in H; [discriminate|].
  destruct (_isOnDefinitionLine k cursorLine cursorPos) eqn:Hon.
  - exists [], k, rest. repeat split; [constructor|done|].
    destruct skipDef; by inversion H.
  - assert (exists a b, classLoop rest context cursorLine cursorPos skipDef a b
                        = Returned r) as (a & b & Hab).
    { destruct skipDef;
        destruct ((line k >? nl0) && (line k <? cursorLine)); eauto. }
    apply IH in Hab as (pre & k' & post & -> & Hpre & Hk' & ->).
    exists (k :: pre), k', post. repeat split; [by constructor|done].
Qed.

Lemma funcLoop_Returned funcs context cursorLine cursorPos skipDef ncl nl0 ni0 r :
  funcLoop funcs context cursorLine cursorPos skipDef ncl nl0 ni0 = Returned r ->
  exists pre f post,
    funcs = pre ++ f :: post /\
    Forall (fun f => _isOnDefinitionLine f cursorLine cursorPos = false) pre /\
    _isOnDefinitionLine f cursorLine cursorPos = true /\
    r = if skipDef then Ok context else addFunction context f.
Proof.
  revert nl0 ni0.
  induction funcs as [|k rest IH]; intros nl0 ni0 H; simpl in H; [discriminate|].
  destruct (_isOnDefinitionLine k cursorLine cursorPos) eqn:Hon.
  - exists [], k, rest. repeat split; [constructor|done|].
    destruct skipDef; by inversion H.
  - assert (exists a b, funcLoop rest context cursorLine cursorPos skipDef ncl a b
                        = Returned r) as (a & b & Hab).
    { destruct skipDef;
        destruct ((line k >? ncl) && (line k >? nl0) && (line k <=? cursorLine));
        eauto. }
    apply IH in Hab as (pre & k' & post & -> & Hpre & Hk' & ->).
    exists (k :: pre), k', post. repeat split; [by constructor|done].
Qed.

Lemma scanLevel_IntoClass infoObject context cursorLine cursorPos skipDef c :
  scanLevel infoObject context cursorLine cursorPos skipDef = IntoClass c ->
  c ∈ classes_of infoObject.
Proof.
  unfold scanLevel. intros H.
  destruct (classLoop _ _ _ _ _ _ _) as [r|ncl nci] eqn:Hc; [discriminate|].
  destruct (funcLoop _ _ _ _ _ _ _ _) as [r|nfl nfi] eqn:Hf; [discriminate|].
  destruct ((ncl =? -1) && (nfl =? -1)); [discriminate|].
  destruct (ncl >? nfl); [|destruct nfi; discriminate].
  destruct nci as [c'|]; [|discriminate]. inversion H; subst.
  apply classLoop_Fell in Hc as (_ & _ & _ & [[_ ?]|(c' & Hc' & ? & _)]);
    [discriminate|]. by inversion Hc'; subst.
Qed.

Lemma scanLevel_IntoFunction infoObject context cursorLine cursorPos skipDef f :
  scanLevel infoObject context cursorLine cursorPos skipDef = IntoFunction f ->
  f ∈ functions_of infoObject.
Proof.
  unfold scanLevel. intros H.
  destruct (classLoop _ _ _ _ _ _ _) as [r|ncl nci] eqn:Hc; [discriminate|].
  destruct (funcLoop _ _ _ _ _ _ _ _) as [r|nfl nfi] eqn:Hf; [discriminate|].
  destruct ((ncl =? -1) && (nfl =? -1)); [discriminate|].
  destruct (ncl >? nfl); [destruct nci; discriminate|].
  destruct nfi as [f'|]; [|discriminate]. inversion H; subst.
  apply funcLoop_Fell in Hf as (_ & _ & _ & [[_ ?]|(f' & Hf' & ? & _)]);
    [discriminate|]. by inversion Hf'; subst.
Qed.

Lemma sizeInfo_class infoObject c :
  c ∈ classes_of infoObject -> (sizeInfo c < sizeObject infoObject)%nat.
Proof.
  intros H%sizeInfo_elem.
  destruct infoObject as [m|d]; simpl in *; [lia|].
  destruct d; simpl in *; lia.
Qed.

Lemma sizeInfo_function infoObject f :
  f ∈ functions_of infoObject -> (sizeInfo f < sizeObject infoObject)%nat.
Proof.
  intros H%sizeInfo_elem.
  destruct infoObject as [m|d]; simpl in *; [lia|].
  destruct d; simpl in *; lia.
Qed.

(** [_IdentifyScope]: the context is threaded through instead of being
    mutated in place. *)
Equations? _IdentifyScope (infoObject : infoNode) (context : TextCursorContext)
    (cursorLine cursorPos : Z) (skipDef : bool)
  : result TextCursorContext by wf (sizeObject infoObject) lt :=
  _IdentifyScope infoObject context cursorLine cursorPos skipDef
    with inspect (scanLevel infoObject context cursorLine cursorPos skipDef) := {
    | exist _ (Stop r) _ => r
    | exist _ (IntoClass nearestClassInfo) _ =>
        _IdentifyScope (OfDef nearestClassInfo)
          (addClass context nearestClassInfo) cursorLine cursorPos skipDef
    | exist _ (IntoFunction nearestFuncInfo) _ =>
        match addFunction context nearestFuncInfo with
        | Ok context' =>
            _IdentifyScope (OfDef nearestFuncInfo) context'
              cursorLine cursorPos skipDef
        | Raise e => Raise e
        end }.
Proof.
  - eapply sizeInfo_class, scanLevel_IntoClass; eassumption.
  - eapply sizeInfo_function, scanLevel_IntoFunction; eassumption.
Qed.


(** *** [_getDefinitionObject]

    An object is taken as true by [if obj:]. *)
Definition firstDefinition (nested : InfoObj -> option InfoObj)
    (line pos : Z) : list InfoObj -> option InfoObj :=
  fix scan (objs : list InfoObj) : option InfoObj :=
    match objs with
    | [] => None
    | obj :: rest =>
        if _isOnDefinitionLine obj line pos then Some obj
        else match nested obj with
             | Some found => Some found
             | None => scan rest
             end
    end.

Fixpoint _getDefinitionObjectIn (info : InfoObj) (line pos : Z)
  : option InfoObj :=
  match info with
  | mkInfoObj _ _ _ _ _ _ _ _ cs fs =>
      match firstDefinition (fun cls => _getDefinitionObjectIn cls line pos)
              line pos cs with
      | Some found => Some found
      | None =>
          firstDefinition (fun func => _getDefinitionObjectIn func line pos)
            line pos fs
      end
  end.

Definition _getDefinitionObject (info : BriefModuleInfo) (line pos : Z)
  : option InfoObj :=
  match firstDefinition (fun cls => _getDefinitionObjectIn cls line pos)
          line pos (mod_classes info) with
  | Some found => Some found
  | None =>
      firstDefinition (fun func => _getDefinitionObjectIn func line pos)
        line pos (mod_functions info)
  end.

(** *** The editor *)

Inductive Lexer : Type :=
| QsciLexerPython
| OtherLexer.

Inductive Style : Type :=
| TripleDoubleQuotedString
| TripleSingleQuotedString
| OtherStyle.

(** What [getContext] asks of the editor widget: its lexer, its lines
    (each with its end of line characters), the cursor as a 0-based
    (line, index) pair, and the lexer's style at a position. *)
Record Editor : Type := mkEditor {
  lexer : option Lexer;
  editorLines : list string;
  getCursorPosition : Z * Z;
  positionFromLineIndex : Z -> Z -> Z;
  styleAt : Z -> Style
}.

(** [editor.lines()] *)
Definition lines (editor : Editor) : Z :=
  Z.of_nat (List.length (editorLines editor)).

(** [editor.text( line )]: empty for a line the buffer does not have. *)
Definition text (editor : Editor) (line : Z) : string :=
  if line <? 0 then ""
  else default "" (editorLines editor !! Z.to_nat line).

(** [editor.text()] *)
Definition wholeText (editor : Editor) : string :=
  String.concat "" (editorLines editor).

(** [isinstance( lexer, QsciLexerPython )] for a lexer that is there. *)
Definition isPythonLexer (lexer : option Lexer) : bool :=
  match lexer with
  | Some QsciLexerPython => true
  | _ => false
  end.

Fixpoint firstNonSpaceFrom (l : list ascii) (pos : Z) : Z :=
  match l with
  | [] => -1
  | c :: rest =>
      let n := nat_of_ascii c in
      if (n =? 32)%nat || (n =? 10)%nat || (n =? 13)%nat
      then firstNonSpaceFrom rest (pos + 1)
      else pos
  end.

(** Index of the first character not in [' ', '\n', '\r']; -1 if none. *)
Definition _getFirstNonSpacePos (text : string) : Z :=
  firstNonSpaceFrom (Py.chars text) 0.

Definition _endsWithTripleQuotedString (editor : Editor) (line pos : Z) : bool :=
  let editorPos := positionFromLineIndex editor line pos in
  match styleAt editor editorPos with
  | TripleDoubleQuotedString | TripleSingleQuotedString => true
  | OtherStyle => false
  end.

(** The [while line >= 0] loop of [skipBlankLinesBack]. It runs at most
    [line + 1] times, which is the counter it is given. *)
Fixpoint skipBlankLines (count : nat) (editor : Editor) (line pos : Z) : Z * Z :=
  match count with
  | O => (line, pos)
  | S count' =>
      if line >=? 0 then
        let text := text editor line in
        let trimmedText := Py.strip text in
        if negb (Py.isempty trimmedText) then (line, Py.len (Py.rstrip text))
        else skipBlankLines count' editor (line - 1) pos
      else (line, pos)
  end.

(** The [for currentLine in xrange( ... )] loop: it ends by [return
    context] or goes on to the code after it ([break] or exhaustion). *)
Inductive scanExit : Type :=
| ScanReturn (context : TextCursorContext)
| ScanDone (context : TextCursorContext) (continueLine : bool)
           (nonSpacePos : option Z).

Fixpoint scanLines (editor : Editor) (line : Z) (range : list Z)
    (context : TextCursorContext) (continueLine : bool)
    (nonSpacePos : option Z) : scanExit :=
  match range with
  | [] => ScanDone context continueLine nonSpacePos
  | currentLine :: rest =>
      if currentLine =? line then ScanDone context continueLine nonSpacePos
      else
        let text := text editor currentLine in
        let trimmedText := Py.strip text in
        let continues :=
          Py.endswith trimmedText "," || Py.endswith trimmedText "\" ||
          _endsWithTripleQuotedString editor currentLine (Py.len text - 1) in
        if negb continueLine then
          if Py.isempty trimmedText || Py.startswith trimmedText "#"
          then scanLines editor line rest context continueLine nonSpacePos
          else
            let nonSpacePos := _getFirstNonSpacePos text in
            let context := stripLevels context nonSpacePos in
            if length context =? 0 then ScanReturn context
            else scanLines editor line rest context continues (Some nonSpacePos)
        else scanLines editor line rest context continues nonSpacePos
  end.

(** The position [getContext] works from: the cursor, or with
    [skipBlankLinesBack] the end of the nearest non-blank line at or
    above it ((0, 0) when there is none). *)
Definition startPosition (editor : Editor) (skipBlankLinesBack : bool) : Z * Z :=
  let '(line, pos) := getCursorPosition editor in
  if skipBlankLinesBack then
    let '(line, pos) :=
      skipBlankLines (Z.to_nat (line + 1)) editor line pos in
    if line <? 0 then (0, 0) else (line, pos)
  else (line, pos).

Section GetContext.

(** The brief parser, [cdmbriefparser.getBriefModuleInfoFromMemory]. *)
Variable getBriefModuleInfoFromMemory : string -> BriefModuleInfo.

Definition getContext (editor : Editor) (info : option BriefModuleInfo)
    (skipBlankLinesBack skipDef : bool) : result TextCursorContext :=
  let context := newContext in
  if negb (isPythonLexer (lexer editor)) then Ok context
  else
    let info := match info with
                | None => getBriefModuleInfoFromMemory (wholeText editor)
                | Some info => info
                end in
    let '(line, pos) := startPosition editor skipBlankLinesBack in
    context <- _IdentifyScope (OfModule info) context (line + 1) pos skipDef ;;
    if negb skipDef && bool_decide (is_Some (_getDefinitionObject info (line + 1) pos))
    then Ok context
    else if length context =? 0 then Ok context
    else
      first <- getLastScopeLine context ;;
      match scanLines editor line (Py.xrange first (lines editor))
              context false None with
      | ScanReturn context => Ok context
      | ScanDone context continueLine nonSpacePos =>
          if continueLine then
            match nonSpacePos with
            | Some nonSpacePos => Ok (stripLevels context nonSpacePos)
            | None => Raise UnboundLocalError
            end
          else
            let nonSpacePos := _getFirstNonSpacePos (text editor line) in
            if nonSpacePos =? -1 then Ok (stripLevels context pos)
            else Ok (stripLevels context (Z.min pos nonSpacePos))
      end.

End GetContext.


(** *** Contexts built through the class keep [length] equal to the
    number of [levels]. *)

Definition consistent (self : TextCursorContext) : Prop :=
  length self = Z.of_nat (List.length (levels self)).

Lemma consistent_newContext : consistent newContext.
Proof. reflexivity. Qed.

Lemma consistent_addClass self infoObj :
  consistent self -> consistent (addClass self infoObj).
Proof.
  unfold consistent, addClass; simpl. intros ->.
  rewrite length_app; simpl. lia.
Qed.

Lemma index_last {A} (l : list A) (x : A) :
  Py.index (l ++ [x]) (Z.of_nat (List.length (l ++ [x])) - 1) = Ok x.
Proof.
  unfold Py.index. rewrite length_app; simpl.
  replace (Z.of_nat (List.length l + 1) - 1) with (Z.of_nat (List.length l)) by lia.
  destruct (Z.of_nat (List.length l) <? 0) eqn:E; [lia|].
  replace ((0 <=? Z.of_nat (List.length l)) &&
           (Z.of_nat (List.length l) <? Z.of_nat (List.length l + 1)))
    with true by (symmetry; apply andb_true_iff; split; lia).
  rewrite Nat2Z.id, lookup_app_r, Nat.sub_diag by lia. reflexivity.
Qed.

Lemma index_consistent_last self :
  consistent self -> length self <> 0 ->
  exists pre x, levels self = pre ++ [x] /\
                Py.index (levels self) (length self - 1) = Ok x.
Proof.
  intros Hc Hn. destruct (levels self) as [|y l] eqn:E using rev_ind.
  - unfold consistent in Hc. rewrite E in Hc. simpl in Hc. lia.
  - exists l, y. split; [done|]. unfold consistent in Hc. rewrite Hc, E.
    apply index_last.
Qed.

(** The scope type [addFunction] gives to a function pushed on [levels]. *)
Definition functionScopeOn (levels : list (InfoObj * ScopeType)) : ScopeType :=
  match last levels with
  | Some (_, ClassScope) => ClassMethodScope
  | _ => FunctionScope
  end.

Lemma addFunction_consistent self infoObj :
  consistent self ->
  addFunction self infoObj =
    Ok {| levels := levels self ++ [(infoObj, functionScopeOn (levels self))];
          length := length self + 1 |}.
Proof.
  intros Hc. unfold addFunction, functionScopeOn.
  destruct (length self =? 0) eqn:E.
  - apply Z.eqb_eq in E. unfold consistent in Hc. rewrite E in Hc.
    destruct (levels self); [done|simpl in Hc; lia].
  - apply Z.eqb_neq in E.
    destruct (index_consistent_last self Hc E) as (pre & [d k] & Hl & ->).
    rewrite Hl, last_snoc. simpl. by destruct k.
Qed.

Lemma consistent_addFunction self infoObj self' :
  consistent self -> addFunction self infoObj = Ok self' -> consistent self'.
Proof.
  intros Hc. rewrite (addFunction_consistent _ _ Hc). intros [= <-].
  unfold consistent in *; simpl. rewrite length_app; simpl. lia.
Qed.

Lemma stripLevels_spec self n :
  consistent self -> 0 <= n ->
  stripLevels self n =
    {| levels := take (Z.to_nat (Z.min (length self) (n / 4))) (levels self);
       length := Z.min (length self) (n / 4) |}.
Proof.
  intros Hc Hn. unfold stripLevels.
  assert (0 <= n / 4) by (apply Z.div_pos; lia).
  destruct (n / 4 <? length self) eqn:E.
  - rewrite Z.min_r by lia. unfold Py.slice_to.
    destruct (n / 4 <? 0) eqn:E'; [lia|done].
  - rewrite Z.min_l by lia. rewrite Hc, Nat2Z.id, firstn_all.
    destruct self; simpl in *. by rewrite <- Hc.
Qed.

Lemma consistent_stripLevels self n :
  consistent self -> 0 <= n -> consistent (stripLevels self n).
Proof.
  intros Hc Hn. rewrite stripLevels_spec by done.
  assert (0 <= n / 4) by (apply Z.div_pos; lia).
  unfold consistent in *; simpl. rewrite length_take. lia.
Qed.

Lemma stripLevels_id self n :
  4 * length self <= n -> stripLevels self n = self.
Proof.
  intros H. unfold stripLevels.
  assert (length self <= n / 4) by (apply Z.div_le_lower_bound; lia).
  destruct (n / 4 <? length self) eqn:E; [lia|done].
Qed.

(** C9. For a context whose [length] is the number of its [levels] and a
    column [n >= 0], [stripLevels n] leaves exactly the first
    [min(length, n / 4)] frames, keeps [length] equal to the number of
    frames left, and never adds a frame: one nesting level is worth four
    columns. *)
Theorem stripLevels_four_columns (self : TextCursorContext) (n : Z) :
  consistent self -> 0 <= n ->
  levels (stripLevels self n) =
    take (Z.to_nat (Z.min (length self) (n / 4))) (levels self) /\
  length (stripLevels self n) = Z.min (length self) (n / 4) /\
  consistent (stripLevels self n) /\
  (List.length (levels (stripLevels self n)) <= List.length (levels self))%nat.
Proof.
  intros Hc Hn. pose proof (consistent_stripLevels self n Hc Hn) as Hc'.
  rewrite stripLevels_spec in * by done. simpl.
  repeat split; [done|]. rewrite length_take. lia.
Qed.


(** The defining equation of [_IdentifyScope], as the source reads. *)
Lemma _IdentifyScope_eq infoObject context cursorLine cursorPos skipDef :
  _IdentifyScope infoObject context cursorLine cursorPos skipDef =
  match scanLevel infoObject context cursorLine cursorPos skipDef with
  | Stop r => r
  | IntoClass nearestClassInfo =>
      _IdentifyScope (OfDef nearestClassInfo)
        (addClass context nearestClassInfo) cursorLine cursorPos skipDef
  | IntoFunction nearestFuncInfo =>
      context' <- addFunction context nearestFuncInfo ;;
      _IdentifyScope (OfDef nearestFuncInfo) context' cursorLine cursorPos skipDef
  end.
Proof.
  rewrite _IdentifyScope_equation_1.
  generalize (inspect (scanLevel infoObject context cursorLine cursorPos skipDef)).
  intros [step Hstep].
  transitivity
    (match step with
     | Stop r => r
     | IntoClass c =>
         _IdentifyScope (OfDef c) (addClass context c) cursorLine cursorPos skipDef
     | IntoFunction f =>
         context' <- addFunction context f ;;
         _IdentifyScope (OfDef f) context' cursorLine cursorPos skipDef
     end); [|by rewrite Hstep].
  destruct step; simp _IdentifyScope; reflexivity.
Qed.


(** *** One level of the scope walk *)

Definition offDefinitionLine (cursorLine cursorPos : Z) (d : InfoObj) : Prop :=
  _isOnDefinitionLine d cursorLine cursorPos = false.

(** No definition of this nesting level has the cursor on its
    definition line. *)
Definition notOnDefinitionLines (o : infoNode) (cursorLine cursorPos : Z) : Prop :=
  Forall (offDefinitionLine cursorLine cursorPos) (classes_of o ++ functions_of o).

(** [d] is the first object of [l] with the cursor on its definition line. *)
Definition firstOnDefinitionLine (l : list InfoObj) (cursorLine cursorPos : Z)
    (d : InfoObj) : Prop :=
  exists pre post,
    l = pre ++ d :: post /\
    Forall (offDefinitionLine cursorLine cursorPos) pre /\
    _isOnDefinitionLine d cursorLine cursorPos = true.

(** A class is a candidate when its line is strictly before the cursor
    line, a function when its line is not after it. *)
Definition classCandidate (cursorLine : Z) (c : InfoObj) : Prop :=
  -1 < line c /\ line c < cursorLine.

Definition functionCandidate (cursorLine : Z) (f : InfoObj) : Prop :=
  -1 < line f /\ line f <= cursorLine.

Definition noneBefore (o : infoNode) (cursorLine : Z) : Prop :=
  (forall c, c ∈ classes_of o -> ~ classCandidate cursorLine c) /\
  (forall f, f ∈ functions_of o -> ~ functionCandidate cursorLine f).

(** [c] is a class candidate with the greatest line of all candidates. *)
Definition nearestClass (o : infoNode) (cursorLine : Z) (c : InfoObj) : Prop :=
  c ∈ classes_of o /\ classCandidate cursorLine c /\
  (forall c', c' ∈ classes_of o -> line c' < cursorLine -> line c' <= line c) /\
  (forall f, f ∈ functions_of o -> line f <= cursorLine -> line f <= line c).

(** [f] is a function candidate with the greatest line of all
    candidates, and strictly below every class candidate. *)
Definition nearestFunction (o : infoNode) (cursorLine : Z) (f : InfoObj) : Prop :=
  f ∈ functions_of o /\ functionCandidate cursorLine f /\
  (forall c, c ∈ classes_of o -> line c < cursorLine -> line c < line f) /\
  (forall f', f' ∈ functions_of o -> line f' <= cursorLine -> line f' <= line f).

(** What one call of [_IdentifyScope] amounts to. *)
Inductive LevelStep (o : infoNode) (context : TextCursorContext)
    (cursorLine cursorPos : Z) (skipDef : bool)
  : result TextCursorContext -> Prop :=
| OnClassLine k :
    firstOnDefinitionLine (classes_of o) cursorLine cursorPos k ->
    LevelStep o context cursorLine cursorPos skipDef
      (Ok (if skipDef then context else addClass context k))
| OnFunctionLine f :
    Forall (offDefinitionLine cursorLine cursorPos) (classes_of o) ->
    firstOnDefinitionLine (functions_of o) cursorLine cursorPos f ->
    LevelStep o context cursorLine cursorPos skipDef
      (if skipDef then Ok context else addFunction context f)
| NothingBefore :
    notOnDefinitionLines o cursorLine cursorPos ->
    noneBefore o cursorLine ->
    LevelStep o context cursorLine cursorPos skipDef (Ok context)
| DescendClass c :
    notOnDefinitionLines o cursorLine cursorPos ->
    nearestClass o cursorLine c ->
    LevelStep o context cursorLine cursorPos skipDef
      (_IdentifyScope (OfDef c) (addClass context c)
         cursorLine cursorPos skipDef)
| DescendFunction f :
    notOnDefinitionLines o cursorLine cursorPos ->
    nearestFunction o cursorLine f ->
    LevelStep o context cursorLine cursorPos skipDef
      (context' <- addFunction context f ;;
       _IdentifyScope (OfDef f) context' cursorLine cursorPos skipDef).

Lemma levelStep_holds o context cursorLine cursorPos skipDef :
  LevelStep o context cursorLine cursorPos skipDef
    (_IdentifyScope o context cursorLine cursorPos skipDef).
Proof.
  rewrite _IdentifyScope_eq. unfold scanLevel.
  destruct (classLoop _ _ _ _ _ _ _) as [r|ncl nci] eqn:Hc.
  { apply classLoop_Returned in Hc as (pre & k & post & Hl & Hpre & Hk & ->).
    apply OnClassLine. by exists pre, post. }
  apply classLoop_Fell in Hc as (Hcoff & Hcle & Hcmax & Hcsel).
  destruct (funcLoop _ _ _ _ _ _ _ _) as [r|nfl nfi] eqn:Hf.
  { apply funcLoop_Returned in Hf as (pre & f & post & Hl & Hpre & Hk & ->).
    apply OnFunctionLine; [done|]. by exists pre, post. }
  apply funcLoop_Fell in Hf as (Hfoff & Hfle & Hfmax & Hfsel).
  assert (Hoff : notOnDefinitionLines o cursorLine cursorPos)
    by (apply Forall_app; split; done).
  destruct ((ncl =? -1) && (nfl =? -1)) eqn:Hnone.
  { apply NothingBefore; [done|]. split.
    - intros c Hin [? ?]. specialize (Hcmax c Hin). lia.
    - intros f Hin [? ?]. specialize (Hfmax f Hin). lia. }
  destruct (ncl >? nfl) eqn:Hgt.
  - destruct Hcsel as [[-> ->]|(c & -> & Hin & Hl & Hlo & Hhi)]; [lia|].
    apply DescendClass; [done|]. repeat split; [done|lia|lia| |].
    + intros c' Hin' Hlt. specialize (Hcmax c' Hin' Hlt). lia.
    + intros f Hin' Hle.
      destruct (Z_lt_le_dec ncl (line f)) as [Hlt|?]; [|lia].
      specialize (Hfmax f Hin' Hlt Hle). lia.
  - destruct Hfsel as [[-> ->]|(f & -> & Hin & Hl & Hlo & Hncl & Hhi)]; [lia|].
    apply DescendFunction; [done|]. repeat split; [done|lia|lia| |].
    + intros c Hin' Hlt. specialize (Hcmax c Hin' Hlt). lia.
    + intros f' Hin' Hle.
      destruct (Z_lt_le_dec ncl (line f')) as [Hlt|?]; [|lia].
      specialize (Hfmax f' Hin' Hlt Hle). lia.
Qed.


Lemma off_elem cursorLine cursorPos (l : list InfoObj) d :
  Forall (offDefinitionLine cursorLine cursorPos) l -> d ∈ l ->
  _isOnDefinitionLine d cursorLine cursorPos = false.
Proof. intros H Hin. by apply (proj1 (Forall_forall _ _) H). Qed.

Lemma firstOn_elem l cursorLine cursorPos d :
  firstOnDefinitionLine l cursorLine cursorPos d ->
  d ∈ l /\ _isOnDefinitionLine d cursorLine cursorPos = true.
Proof.
  intros (pre & post & -> & _ & Hon). split; [|done].
  apply elem_of_app. right. apply elem_of_cons. by left.
Qed.

(** What allows a frame to be pushed: the cursor on its definition line,
    or - for a class - a line strictly less than the cursor line, or - for
    a function - a line less than or equal to the cursor line. *)
Definition pushable (cursorLine cursorPos : Z) (d : InfoObj) (k : ScopeType)
  : Prop :=
  _isOnDefinitionLine d cursorLine cursorPos = true \/
  (k = ClassScope /\ line d < cursorLine) \/
  (k <> ClassScope /\ line d <= cursorLine).

Lemma addFunction_levels self infoObj self' :
  addFunction self infoObj = Ok self' ->
  exists k, k <> ClassScope /\ levels self' = levels self ++ [(infoObj, k)].
Proof.
  unfold addFunction. destruct (length self =? 0).
  - intros [= <-]. by exists FunctionScope.
  - destruct (Py.index _ _) as [last|]; [|done]. simpl.
    destruct (ScopeType_eqb last.2 ClassScope); intros [= <-];
      [by exists ClassMethodScope|by exists FunctionScope].
Qed.

Lemma walk_pushes cursorLine cursorPos skipDef (n : nat) :
  forall o, (sizeObject o < n)%nat ->
  forall context context',
    _IdentifyScope o context cursorLine cursorPos skipDef = Ok context' ->
    forall d k, (d, k) ∈ levels context' ->
      (d, k) ∈ levels context \/ pushable cursorLine cursorPos d k.
Proof.
  induction n as [|n IH]; intros o Hsize context context' Hwalk d k Hin; [lia|].
  pose proof (levelStep_holds o context cursorLine cursorPos skipDef) as Hs.
  rewrite Hwalk in Hs.
  inversion Hs as [c Hc Heq|f Hoff Hf Heq|_ _ Heq|c _ Hc Heq|f _ Hf Heq].
  - apply firstOn_elem in Hc as [_ Hon].
    destruct skipDef; simplify_eq; [by left|].
    simpl in Hin. apply elem_of_app in Hin as [?|Hin]; [by left|].
    apply list_elem_of_singleton in Hin as [= -> ->]. right. by left.
  - apply firstOn_elem in Hf as [_ Hon].
    destruct skipDef; simplify_eq; [by left|].
    assert (Hadd : addFunction context f = Ok context') by done.
    apply addFunction_levels in Hadd as (k' & _ & Hl).
    rewrite Hl in Hin. apply elem_of_app in Hin as [?|Hin]; [by left|].
    apply list_elem_of_singleton in Hin as [= -> ->]. right. by left.
  - simplify_eq. by left.
  - destruct Hc as (Hcin & [_ Hlt] & _).
    assert (Hrec : _IdentifyScope (OfDef c) (addClass context c)
                     cursorLine cursorPos skipDef = Ok context') by done.
    destruct (IH (OfDef c) ltac:(apply sizeInfo_class in Hcin; simpl; lia)
                _ _ Hrec d k Hin) as [Hold|?]; [|by right].
    simpl in Hold. apply elem_of_app in Hold as [?|Hold]; [by left|].
    apply list_elem_of_singleton in Hold as [= -> ->]. right. right. by left.
  - destruct Hf as (Hfin & [_ Hle] & _).
    assert (Hrec : (context1 <- addFunction context f ;;
                    _IdentifyScope (OfDef f) context1
                      cursorLine cursorPos skipDef) = Ok context') by done.
    destruct (addFunction context f) as [context1|] eqn:Hadd; [|done].
    simpl in Hrec. apply addFunction_levels in Hadd as (k' & Hk' & Hl).
    destruct (IH (OfDef f) ltac:(apply sizeInfo_function in Hfin; simpl; lia)
                _ _ Hrec d k Hin) as [Hold|?]; [|by right].
    rewrite Hl in Hold. apply elem_of_app in Hold as [?|Hold]; [by left|].
    apply list_elem_of_singleton in Hold as [= -> ->]. right. right. by right.
Qed.

(** C1 (amended). At each nesting level the walk stops at the first
    definition whose definition-line span holds the cursor (pushed unless
    [skipDef]); otherwise a class is a candidate only if its line is
    strictly less than the cursor line and a function only if its line is
    less than or equal to it, and the candidate with the greatest line is
    pushed and descended into; with no candidate the walk stops. So every
    frame the walk adds has the cursor on its definition line, or is a
    class that starts strictly before the cursor line, or a function that
    starts at or before it. The line compared is the [line] attribute of
    the definition. *)
Theorem IdentifyScope_level o context cursorLine cursorPos skipDef :
  LevelStep o context cursorLine cursorPos skipDef
    (_IdentifyScope o context cursorLine cursorPos skipDef) /\
  (forall context' d k,
     _IdentifyScope o context cursorLine cursorPos skipDef = Ok context' ->
     (d, k) ∈ levels context' ->
     (d, k) ∈ levels context \/ pushable cursorLine cursorPos d k).
Proof.
  split; [apply levelStep_holds|].
  intros context' d k Hwalk Hin.
  by apply (walk_pushes cursorLine cursorPos skipDef (S (sizeObject o)) o
              ltac:(lia) context context' Hwalk).
Qed.

(** C1 as the claim words it: whatever the walk pushes has the cursor on
    its definition line or starts strictly before the cursor line. *)
Definition candidates_strictly_before : Prop :=
  forall (m : BriefModuleInfo) (cursorLine cursorPos : Z) (skipDef : bool)
         (context : TextCursorContext) (d : InfoObj) (k : ScopeType),
    _IdentifyScope (OfModule m) newContext cursorLine cursorPos skipDef
      = Ok context ->
    (d, k) ∈ levels context ->
    _isOnDefinitionLine d cursorLine cursorPos = true \/
    keywordLine d < cursorLine.

(** [def f(): return 1] on line 5, the cursor at the end of that line. *)
Definition oneLiner : InfoObj :=
  mkInfoObj "f" 5 5 5 1 5 8 [] [] [].

Lemma IdentifyScope_level_witness :
  (oneLiner, FunctionScope) ∈ levels newContext \/
  pushable 5 20 oneLiner FunctionScope.
Proof.
  apply (proj2 (IdentifyScope_level (OfModule (mkBriefModuleInfo [] [oneLiner]))
                  newContext 5 20 true)
           {| levels := [(oneLiner, FunctionScope)]; length := 1 |}).
  - vm_compute. reflexivity.
  - simpl. apply elem_of_cons. by left.
Defined.

(** C1, counterexample: the function of line 5 is pushed for a cursor on
    line 5 that is past its colon. *)
Lemma function_on_cursor_line_is_candidate : ~ candidates_strictly_before.
Proof.
  intros H.
  destruct (H (mkBriefModuleInfo [] [oneLiner]) 5 20 true
              {| levels := [(oneLiner, FunctionScope)]; length := 1 |}
              oneLiner FunctionScope) as [Hon|Hlt].
  - vm_compute. reflexivity.
  - simpl. apply elem_of_cons. by left.
  - vm_compute in Hon. discriminate.
  - simpl in Hlt. lia.
Qed.

(** *** The whole walk along a chain of enclosing definitions *)

Inductive frame : Type :=
| ClassFrame (c : InfoObj)
| FunctionFrame (f : InfoObj).

(** [Encloses cursorLine cursorPos o path]: starting from [o], each
    definition of [path] is the one nearest candidate of its level, the
    cursor is on no definition line on the way, and the last definition
    has no candidate of its own before the cursor. *)
Inductive Encloses (cursorLine cursorPos : Z) : infoNode -> list frame -> Prop :=
| Encloses_nil o :
    notOnDefinitionLines o cursorLine cursorPos ->
    noneBefore o cursorLine ->
    Encloses cursorLine cursorPos o []
| Encloses_class o c rest :
    notOnDefinitionLines o cursorLine cursorPos ->
    nearestClass o cursorLine c ->
    (forall c', c' ∈ classes_of o -> line c' = line c -> c' = c) ->
    Encloses cursorLine cursorPos (OfDef c) rest ->
    Encloses cursorLine cursorPos o (ClassFrame c :: rest)
| Encloses_function o f rest :
    notOnDefinitionLines o cursorLine cursorPos ->
    nearestFunction o cursorLine f ->
    (forall f', f' ∈ functions_of o -> line f' = line f -> f' = f) ->
    Encloses cursorLine cursorPos (OfDef f) rest ->
    Encloses cursorLine cursorPos o (FunctionFrame f :: rest).

(** The levels the walk builds along a path. *)
Fixpoint framesOn (levels : list (InfoObj * ScopeType)) (path : list frame)
  : list (InfoObj * ScopeType) :=
  match path with
  | [] => levels
  | ClassFrame c :: rest => framesOn (levels ++ [(c, ClassScope)]) rest
  | FunctionFrame f :: rest =>
      framesOn (levels ++ [(f, functionScopeOn levels)]) rest
  end.

Lemma framesOn_app levels p q :
  framesOn levels (p ++ q) = framesOn (framesOn levels p) q.
Proof.
  revert levels. induction p as [|[c|f] p IH]; intros levels; simpl; auto.
Qed.

Lemma framesOn_length levels p :
  List.length (framesOn levels p) = (List.length levels + List.length p)%nat.
Proof.
  revert levels. induction p as [|[c|f] p IH]; intros levels; simpl;
    [lia|rewrite IH, length_app; simpl; lia..].
Qed.

Lemma walk_Encloses cursorLine cursorPos skipDef o path :
  Encloses cursorLine cursorPos o path ->
  forall context, consistent context ->
  _IdentifyScope o context cursorLine cursorPos skipDef =
    Ok {| levels := framesOn (levels context) path;
          length := length context + Z.of_nat (List.length path) |}.
Proof.
  induction 1 as [o Hoff Hnone|o c rest Hoff Hc Huniq Hrest IH
                 |o f rest Hoff Hf Huniq Hrest IH]; intros context Hcons.
  - pose proof (levelStep_holds o context cursorLine cursorPos skipDef) as Hs.
    apply Forall_app in Hoff as [Hoffc Hofff]. destruct Hnone as [Hnc Hnf].
    inversion Hs as [k Hk Heq|f Hcl Hk Heq|_ _ Heq|c _ Hn Heq|f _ Hn Heq].
    + apply firstOn_elem in Hk as [Hin Hon].
      rewrite (off_elem _ _ _ _ Hoffc Hin) in Hon. discriminate.
    + apply firstOn_elem in Hk as [Hin Hon].
      rewrite (off_elem _ _ _ _ Hofff Hin) in Hon. discriminate.
    + simpl. destruct context; simpl. f_equal. f_equal. lia.
    + destruct Hn as (Hin & Hcand & _). by destruct (Hnc c Hin).
    + destruct Hn as (Hin & Hcand & _). by destruct (Hnf f Hin).
  - pose proof (levelStep_holds o context cursorLine cursorPos skipDef) as Hs.
    pose proof Hoff as Hoff'.
    apply Forall_app in Hoff' as [Hoffc Hofff].
    destruct Hc as (Hin & [Hlo Hhi] & Hcmax & Hfmax).
    inversion Hs as [k Hk Heq|f Hcl Hk Heq|_ Hn Heq|c' _ Hn Heq|f _ Hn Heq].
    + apply firstOn_elem in Hk as [Hin' Hon].
      rewrite (off_elem _ _ _ _ Hoffc Hin') in Hon. discriminate.
    + apply firstOn_elem in Hk as [Hin' Hon].
      rewrite (off_elem _ _ _ _ Hofff Hin') in Hon. discriminate.
    + destruct Hn as [Hnc _]. destruct (Hnc c Hin). by split.
    + destruct Hn as (Hin' & [Hlo' Hhi'] & Hcmax' & Hfmax').
      assert (c' = c) as ->.
      { apply Huniq; [done|]. specialize (Hcmax c' Hin' Hhi').
        specialize (Hcmax' c Hin Hhi). lia. }
      rewrite (IH (addClass context c)) by by apply consistent_addClass.
      simpl. f_equal. f_equal. lia.
    + destruct Hn as (Hin' & [Hlo' Hhi'] & Hcmax' & Hfmax').
      specialize (Hcmax' c Hin Hhi). specialize (Hfmax f Hin' Hhi'). lia.
  - pose proof (levelStep_holds o context cursorLine cursorPos skipDef) as Hs.
    pose proof Hoff as Hoff'.
    apply Forall_app in Hoff' as [Hoffc Hofff].
    destruct Hf as (Hin & [Hlo Hhi] & Hcmax & Hfmax).
    inversion Hs as [k Hk Heq|f' Hcl Hk Heq|_ Hn Heq|c _ Hn Heq|f' _ Hn Heq].
    + apply firstOn_elem in Hk as [Hin' Hon].
      rewrite (off_elem _ _ _ _ Hoffc Hin') in Hon. discriminate.
    + apply firstOn_elem in Hk as [Hin' Hon].
      rewrite (off_elem _ _ _ _ Hofff Hin') in Hon. discriminate.
    + destruct Hn as [_ Hnf]. destruct (Hnf f Hin). by split.
    + destruct Hn as (Hin' & [Hlo' Hhi'] & Hcmax' & Hfmax').
      specialize (Hcmax c Hin' Hhi'). specialize (Hfmax' f Hin Hhi). lia.
    + destruct Hn as (Hin' & [Hlo' Hhi'] & Hcmax' & Hfmax').
      assert (f' = f) as ->.
      { apply Huniq; [done|]. specialize (Hfmax f' Hin' Hhi').
        specialize (Hfmax' f Hin Hhi). lia. }
      rewrite (addFunction_consistent _ _ Hcons). simpl.
      rewrite IH.
      * simpl. f_equal. f_equal. lia.
      * unfold consistent in *; simpl. rewrite length_app; simpl. lia.
Qed.


(** *** The indentation pass *)

(** A scanned line that cannot strip a stack of [depth] frames: it is
    blank, a comment, or starts at column [4 * depth] or further. *)
Definition deepEnough (depth : Z) (text : string) : Prop :=
  Py.isempty (Py.strip text) = true \/
  Py.startswith (Py.strip text) "#" = true \/
  4 * depth <= _getFirstNonSpacePos text.

Lemma scanLines_deep editor line context :
  length context <> 0 ->
  forall (count : nat) (first : Z) (continueLine : bool) (nonSpacePos : option Z),
    first <= line ->
    (forall i, first <= i < line ->
               deepEnough (length context) (text editor i)) ->
    (continueLine = true ->
     exists k, nonSpacePos = Some k /\ 4 * length context <= k) ->
    exists continueLine' nonSpacePos',
      scanLines editor line (seqZ first (Z.of_nat count))
        context continueLine nonSpacePos
      = ScanDone context continueLine' nonSpacePos' /\
      (continueLine' = true ->
       exists k, nonSpacePos' = Some k /\ 4 * length context <= k).
Proof.
  intros Hlen. induction count as [|count IH];
    intros first continueLine nonSpacePos Hfirst Hdeep Hinv.
  - simpl. eauto.
  - rewrite seqZ_cons by lia.
    replace (Z.pred (Z.of_nat (S count))) with (Z.of_nat count) by lia.
    simpl. destruct (first =? line) eqn:E; [eauto|].
    assert (Hnext : Z.succ first <= line) by lia.
    assert (Hdeep' : forall i, Z.succ first <= i < line ->
                               deepEnough (length context) (text editor i))
      by (intros i Hi; apply Hdeep; lia).
    destruct continueLine; simpl.
    + apply IH; [done..|].
      intros _. by apply Hinv.
    + destruct (Py.isempty (Py.strip (text editor first)) ||
                Py.startswith (Py.strip (text editor first)) "#") eqn:Hskip.
      * apply IH; [done..|]. intros [=].
      * destruct (Hdeep first ltac:(lia)) as [Hd|[Hd|Hd]];
          [rewrite Hd in Hskip; discriminate
          |rewrite Hd, orb_true_r in Hskip; discriminate|].
        rewrite (stripLevels_id _ _ Hd).
        destruct (length context =? 0) eqn:E0; [lia|].
        apply IH; [done..|]. intros _. eauto.
Qed.

Section Resolver.

Variable getBriefModuleInfoFromMemory : string -> BriefModuleInfo.

(** The outline [getContext] works on. *)
Definition outlineOf (editor : Editor) (info : option BriefModuleInfo)
  : BriefModuleInfo :=
  match info with
  | None => getBriefModuleInfoFromMemory (wholeText editor)
  | Some info => info
  end.

Lemma getContext_on_path editor info skipBlankLinesBack skipDef line pos path :
  lexer editor = Some QsciLexerPython ->
  startPosition editor skipBlankLinesBack = (line, pos) ->
  path <> [] ->
  Encloses (line + 1) pos (OfModule (outlineOf editor info)) path ->
  (forall d k, last (framesOn [] path) = Some (d, k) ->
     colonLine d <= line /\
     (forall i, colonLine d <= i < line ->
                deepEnough (Z.of_nat (List.length path)) (text editor i))) ->
  (let column := _getFirstNonSpacePos (text editor line) in
   column = -1 \/ 4 * Z.of_nat (List.length path) <= column) ->
  4 * Z.of_nat (List.length path) <= pos ->
  getContext getBriefModuleInfoFromMemory editor info
    skipBlankLinesBack skipDef =
    Ok {| levels := framesOn [] path;
          length := Z.of_nat (List.length path) |}.
Proof.
  intros Hlexer Hcursor Hne Henc Hscan Hcol Hpos.
  unfold getContext. rewrite Hlexer, Hcursor. simpl.
  fold (outlineOf editor info).
  rewrite (walk_Encloses _ _ skipDef _ _ Henc newContext consistent_newContext).
  change (length newContext + ?n) with n.
  change (levels newContext) with (@nil (InfoObj * ScopeType)).
  unfold Py.bind at 1.
  set (context := {| levels := framesOn [] path;
                     length := Z.of_nat (List.length path) |}).
  assert (Hcons : consistent context).
  { unfold consistent, context; simpl. by rewrite framesOn_length. }
  assert (Hlen : length context <> 0).
  { unfold context; simpl. destruct path; [done|simpl; lia]. }
  destruct (negb skipDef &&
            bool_decide (is_Some (_getDefinitionObject
                                    (outlineOf editor info) (line + 1) pos)));
    [done|].
  unfold getLastScopeLine.
  destruct (length context =? 0) eqn:E0; [lia|].
  destruct (index_consistent_last context Hcons Hlen) as (pre & [d k] & Hl & ->).
  simpl.
  destruct (Hscan d k) as [Hbelow Hdeep].
  { change (framesOn [] path) with (levels context). rewrite Hl.
    apply last_snoc. }
  unfold Py.xrange.
  assert (Hseq : forall m n, seqZ m n = seqZ m (Z.of_nat (Z.to_nat n))).
  { intros m n. unfold seqZ. by rewrite Nat2Z.id. }
  rewrite Hseq.
  destruct (scanLines_deep editor line context Hlen
              (Z.to_nat (lines editor - colonLine d)) (colonLine d)
              false None Hbelow Hdeep ltac:(intros [=]))
    as (cont & nsp & -> & Hinv).
  destruct cont.
  - destruct (Hinv eq_refl) as (n & -> & Hn).
    by rewrite stripLevels_id.
  - destruct (_getFirstNonSpacePos (text editor line) =? -1) eqn:E1.
    + by rewrite stripLevels_id.
    + rewrite stripLevels_id; [done|].
      simpl in Hcol. destruct Hcol as [?|?]; [lia|].
      unfold context at 1; simpl. lia.
Qed.




End Resolver.







(** The outline of the specification's example: [class A:] on line 1
    with [def m(self):] on line 2 and a body line indented by eight
    columns; the cursor is in the body, at column 12. *)
Definition example_m : InfoObj :=
  mkInfoObj "m" 2 9 2 5 2 16 [] [] [].

Definition example_A : InfoObj :=
  mkInfoObj "A" 1 7 1 1 1 8 [] [] [example_m].

Definition example_info : BriefModuleInfo :=
  mkBriefModuleInfo [example_A] [].

Definition example_editor (cursor : Z * Z) : Editor :=
  {| lexer := Some QsciLexerPython;
     editorLines := ["class A:" +:+ Py.LF;
                     "    def m(self):" +:+ Py.LF;
                     "        pass" +:+ Py.LF];
     getCursorPosition := cursor;
     positionFromLineIndex := fun _ _ => 0;
     styleAt := fun _ => OtherStyle |}.

Lemma example_Encloses :
  Encloses 3 12 (OfModule example_info)
    [ClassFrame example_A; FunctionFrame example_m].
Proof.
  apply Encloses_class.
  - repeat constructor.
  - repeat split; simpl; try lia.
    + apply elem_of_cons. by left.
    + intros c Hc. apply list_elem_of_singleton in Hc as ->. simpl. lia.
    + intros f Hf. by apply elem_of_nil in Hf.
  - intros c Hc _. by apply list_elem_of_singleton in Hc.
  - apply Encloses_function.
    + repeat constructor.
    + repeat split; simpl; try lia.
      * apply elem_of_cons. by left.
      * intros c Hc. by apply elem_of_nil in Hc.
      * intros f Hf. apply list_elem_of_singleton in Hf as ->. simpl. lia.
    + intros f Hf _. by apply list_elem_of_singleton in Hf.
    + apply Encloses_nil; [constructor|].
      split; intros x Hx; by apply elem_of_nil in Hx.
Qed.

(** With the cursor of the same line at column 5 the method frame is
    stripped: column 5 is worth one level. *)
Example example_column_5 :
  getContext (fun _ => example_info) (example_editor (2, 5)) None false true
    = Ok {| levels := [(example_A, ClassScope)]; length := 1 |}.
Proof. vm_compute. reflexivity. Qed.

(** *** Non-Python buffers *)

Lemma getContext_not_python parse editor info skipBlankLinesBack skipDef :
  lexer editor <> Some QsciLexerPython ->
  getContext parse editor info skipBlankLinesBack skipDef = Ok newContext.
Proof.
  intros H. unfold getContext.
  destruct (lexer editor) as [[]|]; simpl; congruence.
Qed.

(** C8. For an editor whose lexer is absent or is not a Python lexer,
    [getContext] returns (does not raise) a context with no frame, and on
    every context with no frame [getScope] returns [GlobalScope]. *)
Theorem getContext_global_without_python_lexer
    parse editor info skipBlankLinesBack skipDef (empty : TextCursorContext) :
  lexer editor = None \/ lexer editor = Some OtherLexer ->
  length empty = 0 ->
  (exists context,
     getContext parse editor info skipBlankLinesBack skipDef = Ok context /\
     length context = 0 /\ levels context = [] /\
     getScope context = Ok GlobalScope) /\
  getScope empty = Ok GlobalScope.
Proof.
  intros Hlexer Hempty. split.
  - exists newContext. rewrite getContext_not_python; [done|].
    destruct Hlexer as [-> | ->]; discriminate.
  - unfold getScope. by rewrite Hempty.
Qed.

Definition plainText : Editor :=
  {| lexer := None;
     editorLines := ["notes" +:+ Py.LF];
     getCursorPosition := (0, 3);
     positionFromLineIndex := fun _ _ => 0;
     styleAt := fun _ => OtherStyle |}.

Lemma getContext_global_without_python_lexer_witness :
  (exists context,
     getContext (fun _ => example_info) plainText None false true = Ok context /\
     length context = 0 /\ levels context = [] /\
     getScope context = Ok GlobalScope) /\
  getScope newContext = Ok GlobalScope.
Proof.
  apply (getContext_global_without_python_lexer
           (fun _ => example_info) plainText None false true newContext).
  - left. reflexivity.
  - reflexivity.
Defined.

Lemma stripLevels_four_columns_witness :
  let self := addClass (addClass newContext example_A) example_A in
  levels (stripLevels self 5) = take (Z.to_nat (Z.min (length self) (5 / 4))) (levels self) /\
  length (stripLevels self 5) = Z.min (length self) (5 / 4) /\
  consistent (stripLevels self 5) /\
  (List.length (levels (stripLevels self 5)) <= List.length (levels self))%nat.
Proof.
  apply (stripLevels_four_columns
           (addClass (addClass newContext example_A) example_A) 5).
  - reflexivity.
  - lia.
Defined.


(** *** [_isOnDefinitionLine] and packed positions *)

(** [(line << 16) + pos] *)
Definition packed (line pos : Z) : Z := line * 2 ^ 16 + pos.

Definition packedDecorator (decor : Decorator) : Z :=
  packed (decor_line decor) (decor_pos decor).

(** The lower limit the code ends with: the least of the start of the
    keyword line (column 0) and the packed decorator positions. *)
Definition lowLimitOf (infoObj : InfoObj) : Z :=
  foldr Z.min (packed (keywordLine infoObj) 0)
    (packedDecorator <$> decorators infoObj).

(** The lower limit as the claim words it: the keyword enters with its
    own column. *)
Definition keywordLowLimitOf (infoObj : InfoObj) : Z :=
  foldr Z.min (packed (keywordLine infoObj) (keywordPos infoObj))
    (packedDecorator <$> decorators infoObj).

(** Lexicographic order on (line, pos) pairs. *)
Definition lexLe (a b : Z * Z) : Prop :=
  a.1 < b.1 \/ (a.1 = b.1 /\ a.2 <= b.2).

Lemma shiftl_16 (a : Z) : Z.shiftl a 16 = a * 2 ^ 16.
Proof. by rewrite Z.shiftl_mul_pow2. Qed.

Lemma decorators_lower (decors : list Decorator) (low : Z) :
  fold_left
    (fun lowLimit decor =>
       let candidate := Z.shiftl (decor_line decor) 16 + decor_pos decor in
       if candidate <? lowLimit then candidate else lowLimit)
    decors low
  = foldr Z.min low (packedDecorator <$> decors).
Proof.
  revert low. induction decors as [|d decors IH]; intros low; simpl; [done|].
  rewrite IH, shiftl_16. fold (packed (decor_line d) (decor_pos d)).
  fold (packedDecorator d).
  assert (Hmin : forall l a b, foldr Z.min (Z.min a b) l = Z.min a (foldr Z.min b l)).
  { induction l as [|x l IHl]; intros a b; simpl; [done|]. rewrite IHl. lia. }
  destruct (packedDecorator d <? low) eqn:E.
  - rewrite <- Hmin. f_equal. lia.
  - rewrite <- Hmin. f_equal. lia.
Qed.

Lemma isOnDefinitionLine_packed infoObj line pos :
  _isOnDefinitionLine infoObj line pos = true <->
  lowLimitOf infoObj <= packed line pos <=
    packed (colonLine infoObj) (colonPos infoObj).
Proof.
  unfold _isOnDefinitionLine. rewrite decorators_lower, !shiftl_16.
  unfold lowLimitOf, packed. rewrite Z.add_0_r.
  rewrite andb_true_iff. lia.
Qed.

(** A position is at or after the least of some positions exactly when it
    is at or after one of them. *)
Lemma foldr_min_le (low key : Z) (l : list Z) :
  foldr Z.min low l <= key <-> low <= key \/ exists x, x ∈ l /\ x <= key.
Proof.
  induction l as [|x l IH]; simpl.
  - split; [by left|]. intros [?|(x & Hx & _)]; [done|].
    by apply elem_of_nil in Hx.
  - rewrite Z.min_le_iff, IH. split.
    + intros [?|[?|(y & Hy & ?)]]; [right; exists x|by left|right; exists y];
        (split; [apply elem_of_cons; auto|done]).
    + intros [?|(y & Hy & ?)]; [by right; left|].
      apply elem_of_cons in Hy as [->|Hy]; [by left|right; right; eauto].
Qed.

Lemma packed_le_lex l1 p1 l2 p2 :
  0 <= p1 < 2 ^ 16 -> 0 <= p2 < 2 ^ 16 ->
  packed l1 p1 <= packed l2 p2 <-> lexLe (l1, p1) (l2, p2).
Proof.
  unfold packed, lexLe; simpl. change (2 ^ 16) with 65536. lia.
Qed.

(** Columns of 2^16 or more break the agreement: the position (0, 65541)
    is packed between line 1 column 0 and line 1 column 10. *)
Definition wideColumn : InfoObj :=
  mkInfoObj "g" 1 5 1 1 1 10 [] [] [].

(** C10 (amended). [_isOnDefinitionLine] compares positions through the
    packed integer [line * 2^16 + pos]: it is true iff the packed cursor
    lies between the least of the start of the keyword line (the keyword
    line packed with column 0, not with the keyword's column) and the
    packed decorator positions, and the packed colon position, inclusive.
    When every column involved is in [0, 2^16) this is the lexicographic
    comparison of (line, pos) pairs; with a column of 2^16 or more it
    need not be. *)
Theorem isOnDefinitionLine_packed_order :
  (forall infoObj line pos,
     _isOnDefinitionLine infoObj line pos = true <->
     lowLimitOf infoObj <= packed line pos <=
       packed (colonLine infoObj) (colonPos infoObj)) /\
  (forall infoObj line pos,
     0 <= pos < 2 ^ 16 ->
     0 <= colonPos infoObj < 2 ^ 16 ->
     Forall (fun decor => 0 <= decor_pos decor < 2 ^ 16) (decorators infoObj) ->
     _isOnDefinitionLine infoObj line pos = true <->
     (lexLe (keywordLine infoObj, 0) (line, pos) \/
      exists decor, decor ∈ decorators infoObj /\
                    lexLe (decor_line decor, decor_pos decor) (line, pos)) /\
     lexLe (line, pos) (colonLine infoObj, colonPos infoObj)) /\
  (_isOnDefinitionLine wideColumn 0 65541 = true /\
   ~ lexLe (keywordLine wideColumn, 0) (0, 65541)).
Proof.
  split; [exact isOnDefinitionLine_packed|]. split.
  - intros infoObj line pos Hpos Hcolon Hdecors.
    rewrite isOnDefinitionLine_packed. unfold lowLimitOf.
    rewrite foldr_min_le, <- (packed_le_lex line pos) by done.
    rewrite <- (packed_le_lex (keywordLine infoObj) 0 line pos) by (done || lia).
    assert (Hd : (exists x, x ∈ packedDecorator <$> decorators infoObj /\
                            x <= packed line pos) <->
                 (exists decor, decor ∈ decorators infoObj /\
                    lexLe (decor_line decor, decor_pos decor) (line, pos))).
    { split.
      - intros (x & Hx & Hle). apply list_elem_of_fmap in Hx as (d & -> & Hin).
        exists d. split; [done|]. apply packed_le_lex; [|done..].
        by apply (proj1 (Forall_forall _ _) Hdecors).
      - intros (d & Hin & Hle). exists (packedDecorator d).
        split; [by apply list_elem_of_fmap_2|]. apply packed_le_lex; [|done..].
        by apply (proj1 (Forall_forall _ _) Hdecors). }
    rewrite Hd. tauto.
  - split; [reflexivity|]. unfold lexLe; simpl. lia.
Qed.

Lemma isOnDefinitionLine_packed_order_witness :
  _isOnDefinitionLine example_m 2 10 = true <->
  (lexLe (keywordLine example_m, 0) (2, 10) \/
   exists decor, decor ∈ decorators example_m /\
                 lexLe (decor_line decor, decor_pos decor) (2, 10)) /\
  lexLe (2, 10) (colonLine example_m, colonPos example_m).
Proof.
  apply (proj1 (proj2 isOnDefinitionLine_packed_order) example_m 2 10).
  - lia.
  - simpl. lia.
  - constructor.
Defined.

(** C10 as the claim words it: the keyword is packed with its column. *)
Definition lowLimit_from_keyword_position : Prop :=
  forall infoObj line pos,
    _isOnDefinitionLine infoObj line pos = true <->
    keywordLowLimitOf infoObj <= packed line pos <=
      packed (colonLine infoObj) (colonPos infoObj).

(** C10, counterexample: on the line of [def m(self):], whose keyword
    is at column 5, a cursor at column 2 is on the definition line. *)
Lemma cursor_before_keyword_is_on_definition_line :
  ~ lowLimit_from_keyword_position.
Proof.
  intros H. destruct (H example_m 2 2) as [Hlow _].
  specialize (Hlow eq_refl). vm_compute in Hlow.
  destruct Hlow as [Hlow _]. by apply Hlow.
Qed.

End BufferUtils.

(** ** cml.py *)

Module Cml.

(** A [QColor] by its channels. *)
Record QColor : Type := mkQColor {
  red : Z;
  green : Z;
  blue : Z;
  alpha : Z
}.

(** [QColor( r, g, b )] is opaque: its alpha is 255. *)
Definition QColor3 (r g b : Z) : QColor := mkQColor r g b 255.
Definition QColor4 (r g b a : Z) : QColor := mkQColor r g b a.

(** Two lowercase hexadecimal digits of a channel. *)
Definition hex2 (v : Z) : string :=
  String (Py.hexDigit (v / 16)) (String (Py.hexDigit (v mod 16)) EmptyString).

(** [QColor.name()]: ["#rrggbb"]. *)
Definition name (c : QColor) : string :=
  "#" +:+ hex2 (red c) +:+ hex2 (green c) +:+ hex2 (blue c).

Definition checkColorRange (value : Z) : result unit :=
  if (value <? 0) || (value >? 255)
  then Raise (Exception_ "Invalid color value")
  else Ok tt.

(** The body of the first [try] of [readColor]. *)
Definition readHexChannels (color : string) (length : Z) : result QColor :=
  r <- Py.int (Py.slice color 0 2) 16 ;;
  _ <- checkColorRange r ;;
  g <- Py.int (Py.slice color 2 4) 16 ;;
  _ <- checkColorRange g ;;
  b <- Py.int (Py.slice color 4 6) 16 ;;
  _ <- checkColorRange b ;;
  if length =? 6 then Ok (QColor3 r g b)
  else
    a <- Py.int (Py.slice color 6 8) 16 ;;
    _ <- checkColorRange a ;;
    Ok (QColor4 r g b a).

(** The body of the second [try] of [readColor]. *)
Definition readDecimalChannels (parts : list string) (length : Z) : result QColor :=
  p0 <- Py.index parts 0 ;;
  r <- Py.int (Py.strip p0) 10 ;;
  _ <- checkColorRange r ;;
  p1 <- Py.index parts 1 ;;
  g <- Py.int (Py.strip p1) 10 ;;
  _ <- checkColorRange g ;;
  p2 <- Py.index parts 2 ;;
  b <- Py.int (Py.strip p2) 10 ;;
  _ <- checkColorRange b ;;
  if length =? 3 then Ok (QColor3 r g b)
  else
    p3 <- Py.index parts 3 ;;
    a <- Py.int (Py.strip p3) 10 ;;
    _ <- checkColorRange a ;;
    Ok (QColor4 r g b a).

(** [readColor]: a bare [except:] turns whatever the [try] raised into
    the format error. *)
Definition readColor (color : string) : result QColor :=
  if Py.startswith color "#" then
    let color := Py.slice_from color 1 in
    let length := Py.len color in
    if negb ((length =? 6) || (length =? 8)) then
      Raise (Exception_ ("Invalid hexadecimal color format: #" +:+ color))
    else
      match readHexChannels color length with
      | Ok c => Ok c
      | Raise _ =>
          Raise (Exception_ ("Invalid hexadecimal color format: #" +:+ color))
      end
  else
    let parts := Py.split color ","%char in
    let length := Z.of_nat (List.length parts) in
    if negb ((length =? 3) || (length =? 4)) then
      Raise (Exception_ ("Invalid decimal color format: " +:+ color))
    else
      match readDecimalChannels parts length with
      | Ok c => Ok c
      | Raise _ =>
          Raise (Exception_ ("Invalid decimal color format: " +:+ color))
      end.

(** *** Raw CML comments, as the flow parser delivers them *)

Record CMLPart : Type := mkCMLPart {
  beginLine : Z;
  beginPos : Z
}.

Record RawComment : Type := mkRawComment {
  recordType : string;
  version : Z;
  properties : gmap string string;
  parts : list CMLPart
}.

(** *** The high level comments *)

Definition CMLsw_CODE : string := "sw".
Definition CMLcc_CODE : string := "cc".
Definition CMLrt_CODE : string := "rt".

(** [CMLVersion.VERSION] *)
Definition VERSION : Z := 1.

Inductive CMLComment : Type :=
| CMLsw (ref : RawComment)
| CMLcc (ref : RawComment) (bg fg border : option QColor)
| CMLrt (ref : RawComment) (text : string).

(** [ref] and [CODE] of a high level comment. *)
Definition ref (c : CMLComment) : RawComment :=
  match c with CMLsw r | CMLcc r _ _ _ | CMLrt r _ => r end.

Definition CODE (c : CMLComment) : string :=
  match c with
  | CMLsw _ => CMLsw_CODE
  | CMLcc _ _ _ _ => CMLcc_CODE
  | CMLrt _ _ => CMLrt_CODE
  end.

(** [CMLCommentBase.validateRecordType] *)
Definition validateRecordType (ref : RawComment) (code : string) : result unit :=
  if negb (String.eqb (recordType ref) code) then
    Raise (Exception_ ("Invalid CML comment type. Expected: '" +:+ code +:+
                       "'. Received: '" +:+ recordType ref +:+ "'."))
  else Ok tt.

(** [CMLVersion.validate] *)
Definition CMLVersion_validate (cmlComment : RawComment) : result unit :=
  if version cmlComment >? VERSION then
    Raise (Exception_ ("The CML comment version " +:+
                       Py.str_of_int (version cmlComment) +:+
                       " is not supported. Max supported version is " +:+
                       Py.str_of_int VERSION))
  else Ok tt.

(** [CMLsw.__init__] with its [validate] *)
Definition new_CMLsw (ref : RawComment) : result CMLComment :=
  _ <- validateRecordType ref CMLsw_CODE ;;
  _ <- CMLVersion_validate ref ;;
  Ok (CMLsw ref).

(** [if key in properties: colour = readColor( properties[ key ] )] *)
Definition readProperty (ref : RawComment) (key : string)
  : result (option QColor) :=
  match properties ref !! key with
  | Some spec => c <- readColor spec ;; Ok (Some c)
  | None => Ok None
  end.

(** [CMLcc.__init__] with its [validate] *)
Definition new_CMLcc (ref : RawComment) : result CMLComment :=
  _ <- validateRecordType ref CMLcc_CODE ;;
  _ <- CMLVersion_validate ref ;;
  bg <- readProperty ref "background" ;;
  fg <- readProperty ref "foreground" ;;
  border <- readProperty ref "border" ;;
  match bg, fg, border with
  | None, None, None =>
      Raise (Exception_ ("The '" +:+ CMLcc_CODE +:+
                         "' CML comment does not supply neither " +:+
                         "background nor foreground color nor " +:+
                         "border color"))
  | _, _, _ => Ok (CMLcc ref bg fg border)
  end.

(** [CMLrt.__init__] with its [validate] *)
Definition new_CMLrt (ref : RawComment) : result CMLComment :=
  _ <- validateRecordType ref CMLrt_CODE ;;
  _ <- CMLVersion_validate ref ;;
  match properties ref !! "text" with
  | Some text => Ok (CMLrt ref text)
  | None =>
      Raise (Exception_ ("The '" +:+ CMLrt_CODE +:+
                         "' CML comment does not supply text"))
  end.

(** The classes of [CMLVersion.COMMENT_TYPES]. *)
Inductive CMLType : Type := TYPE_CMLsw | TYPE_CMLcc | TYPE_CMLrt.

(** [cmlType( cmlComment )] *)
Definition construct (cmlType : CMLType) (cmlComment : RawComment)
  : result CMLComment :=
  match cmlType with
  | TYPE_CMLsw => new_CMLsw cmlComment
  | TYPE_CMLcc => new_CMLcc cmlComment
  | TYPE_CMLrt => new_CMLrt cmlComment
  end.

(** [COMMENT_TYPES[ recordType ]], [None] on [KeyError]. *)
Definition COMMENT_TYPES (code : string) : option CMLType :=
  if String.eqb code CMLsw_CODE then Some TYPE_CMLsw
  else if String.eqb code CMLcc_CODE then Some TYPE_CMLcc
  else if String.eqb code CMLrt_CODE then Some TYPE_CMLrt
  else None.

(** An element of a comment list: still raw, or already replaced by its
    high level counterpart (which has no [recordType]). *)
Inductive listItem : Type :=
| RawItem (cmlComment : RawComment)
| HighLevel (highLevel : CMLComment).

(** [CMLVersion.getType] *)
Definition getType (item : listItem) : result (option CMLType) :=
  match item with
  | RawItem cmlComment => Ok (COMMENT_TYPES (recordType cmlComment))
  | HighLevel _ => Raise AttributeError
  end.

(** [str( exc )] *)
Definition str_of_exn (exc : exn) : string :=
  match exc with
  | Exception_ msg | NameError msg => msg
  | IndexError => "list index out of range"
  | KeyError | ValueError | AttributeError | UnboundLocalError => ""
  end.

Definition Warning : Type := Z * Z * string.

(** One turn of the loop of [validateCMLList]. *)
Definition validateAt (state : list listItem * list Warning) (index : Z)
  : result (list listItem * list Warning) :=
  let '(comments, warnings) := state in
  item <- Py.index comments index ;;
  cmlType <- getType item ;;
  match item with
  | HighLevel _ => Raise AttributeError
  | RawItem cmlComment =>
      match cmlType with
      | Some cmlType =>
          match construct cmlType cmlComment with
          | Ok highLevel =>
              Ok (<[Z.to_nat index := HighLevel highLevel]> comments, warnings)
          | Raise exc =>
              part <- Py.index (parts cmlComment) 0 ;;
              Ok (comments,
                  warnings ++ [(beginLine part, beginPos part,
                                "Invalid CML comment: " +:+ str_of_exn exc)])
          end
      | None =>
          part <- Py.index (parts cmlComment) 0 ;;
          Ok (comments,
              warnings ++ [(beginLine part, beginPos part,
                            "CML comment type '" +:+ recordType cmlComment +:+
                            "' is not supported")])
      end
  end.

Fixpoint validateLoop (range : list Z) (state : list listItem * list Warning)
  : result (list listItem * list Warning) :=
  match range with
  | [] => Ok state
  | index :: rest =>
      state <- validateAt state index ;;
      validateLoop rest state
  end.

(** [CMLVersion.validateCMLList]: the list is updated in place, so it is
    returned next to the warnings. *)
Definition validateCMLList (comments : list listItem)
  : result (list listItem * list Warning) :=
  match comments with
  | [] => Ok (comments, [])
  | _ =>
      let count := Z.of_nat (List.length comments) in
      validateLoop (Py.xrange 0 count) (comments, [])
  end.


(** *** The [generate] static methods *)

(** The names bound at the module level of cml.py: its imports,
    functions and classes. *)
Definition globalNames : list string :=
  ["maxint"; "QColor"; "IF_FRAGMENT"; "FOR_FRAGMENT"; "WHILE_FRAGMENT";
   "TRY_FRAGMENT"; "CONTROL_FLOW_FRAGMENT"; "CLASS_FRAGMENT";
   "FUNCTION_FRAGMENT"; "checkColorRange"; "readColor"; "CMLCommentBase";
   "CMLsw"; "CMLcc"; "CMLrt"; "CMLVersion"].

(** What a name read in a method body can denote. *)
Inductive pyObject : Type :=
| ModuleLevel (name : string)
| Colour (c : QColor).

(** Reading a name that is not a local of the function. *)
Definition loadGlobal (name : string) : result pyObject :=
  if bool_decide (name ∈ globalNames) then Ok (ModuleLevel name)
  else Raise (NameError ("global name '" +:+ name +:+ "' is not defined")).

(** [obj.name()] *)
Definition call_name (obj : pyObject) : result string :=
  match obj with
  | Colour c => Ok (name c)
  | ModuleLevel _ => Raise AttributeError
  end.

(** [CMLsw.generate] *)
Definition CMLsw_generate (pos : Z) : string :=
  Py.spaces (pos - 1) +:+ "# cml 1 sw".

(** [name + hex( alpha )[ 2: ]] unless the colour is opaque *)
Definition withAlpha (colourName : string) (c : QColor) : string :=
  if negb (alpha c =? 255)
  then colourName +:+ Py.slice_from (Py.hex (alpha c)) 2
  else colourName.

(** [CMLcc.generate]: the first parameter is spelled [backgound], and
    the body reads [background.name()]. *)
Definition CMLcc_generate (backgound foreground border : option QColor)
    (pos : Z) : result string :=
  let res := Py.spaces (pos - 1) +:+ "# cml 1 cc" in
  res <-
    match backgound with
    | Some backgound =>
        background <- loadGlobal "background" ;;
        bg <- call_name background ;;
        Ok (res +:+ " background=" +:+ withAlpha bg backgound)
    | None => Ok res
    end ;;
  let res :=
    match foreground with
    | Some foreground =>
        res +:+ " foreground=" +:+ withAlpha (name foreground) foreground
    | None => res
    end in
  let res :=
    match border with
    | Some border => res +:+ " border=" +:+ withAlpha (name border) border
    | None => res
    end in
  Ok res.

(** [CMLrt.generate] *)
Definition CMLrt_generate (txt : option string) (pos : Z) : string :=
  let res := Py.spaces (pos - 1) +:+ "# cml 1 rt" in
  match txt with
  | Some txt =>
      res +:+ " text=" +:+ String (ascii_of_nat 34)
        (Py.replace_char (ascii_of_nat 34)
           (String "\"%char (String (ascii_of_nat 34) EmptyString)) txt
         +:+ String (ascii_of_nat 34) EmptyString)
  | None => res
  end.

(** C3. [CMLcc.generate] does not produce a line for any background
    colour: reading [background] raises NameError, whatever the other
    arguments are, so there is nothing to parse back. *)
Theorem CMLcc_generate_background_raises
    (c : QColor) (foreground border : option QColor) (pos : Z) :
  CMLcc_generate (Some c) foreground border pos =
    Raise (NameError "global name 'background' is not defined").
Proof. reflexivity. Qed.

(** A foreground with an alpha below 16 is written with seven
    hexadecimal digits, which [readColor] refuses. *)
Example CMLcc_generate_short_alpha :
  CMLcc_generate None (Some (QColor4 255 0 0 5)) None 1
    = Ok "# cml 1 cc foreground=#ff00005" /\
  readColor "#ff00005" =
    Raise (Exception_ "Invalid hexadecimal color format: #ff00005").
Proof. split; vm_compute; reflexivity. Qed.

Example CMLsw_generate_3 : CMLsw_generate 3 = "  # cml 1 sw".
Proof. reflexivity. Qed.


(** *** [validateCMLList] on a list of raw comments *)

(** A raw comment is rejected when its code is unknown, when its version
    exceeds [VERSION], or when the constructor of its type raises. *)
Definition rejected (c : RawComment) : Prop :=
  COMMENT_TYPES (recordType c) = None \/
  version c > VERSION \/
  exists cmlType exc,
    COMMENT_TYPES (recordType c) = Some cmlType /\
    construct cmlType c = Raise exc.

Definition isRejected (c : RawComment) : bool :=
  match COMMENT_TYPES (recordType c) with
  | None => true
  | Some cmlType => negb (Py.is_ok (construct cmlType c))
  end.

Lemma COMMENT_TYPES_code code cmlType :
  COMMENT_TYPES code = Some cmlType ->
  code = match cmlType with
         | TYPE_CMLsw => CMLsw_CODE
         | TYPE_CMLcc => CMLcc_CODE
         | TYPE_CMLrt => CMLrt_CODE
         end.
Proof.
  unfold COMMENT_TYPES.
  destruct (String.eqb code CMLsw_CODE) eqn:E1;
    [apply String.eqb_eq in E1; by intros [= <-]|].
  destruct (String.eqb code CMLcc_CODE) eqn:E2;
    [apply String.eqb_eq in E2; by intros [= <-]|].
  destruct (String.eqb code CMLrt_CODE) eqn:E3;
    [apply String.eqb_eq in E3; by intros [= <-]|done].
Qed.

(** A version above [VERSION] makes every constructor raise. *)
Lemma construct_version c cmlType :
  COMMENT_TYPES (recordType c) = Some cmlType ->
  version c > VERSION ->
  exists exc, construct cmlType c = Raise exc.
Proof.
  intros Ht Hv. apply COMMENT_TYPES_code in Ht.
  assert (Hraise : exists exc, CMLVersion_validate c = Raise exc).
  { unfold CMLVersion_validate.
    destruct (version c >? VERSION) eqn:E; [eauto|lia]. }
  destruct Hraise as [exc Hraise].
  destruct cmlType; simpl;
    unfold new_CMLsw, new_CMLcc, new_CMLrt, validateRecordType;
    rewrite Ht, String.eqb_refl; simpl; rewrite Hraise; simpl; eauto.
Qed.

Lemma isRejected_spec c : isRejected c = true <-> rejected c.
Proof.
  unfold isRejected, rejected.
  destruct (COMMENT_TYPES (recordType c)) as [t|] eqn:Ht; [|by intuition].
  split.
  - destruct (construct t c) as [h|exc] eqn:Hc; [done|].
    intros _. right; right. by exists t, exc.
  - intros [?|[Hv|(t' & exc & [= <-] & ->)]]; [done| |done].
    by destruct (construct_version c t Ht Hv) as [exc ->].
Qed.

(** What a constructed comment is made of. *)
Lemma construct_Ok cmlType c highLevel :
  construct cmlType c = Ok highLevel ->
  ref highLevel = c /\ CODE highLevel = recordType c /\ version c <= VERSION.
Proof.
  destruct cmlType; simpl;
    unfold new_CMLsw, new_CMLcc, new_CMLrt, validateRecordType,
      CMLVersion_validate;
    (destruct (String.eqb (recordType c) _) eqn:E; simpl; [|done]);
    apply String.eqb_eq in E;
    (destruct (version c >? VERSION) eqn:Ev; simpl; [done|]).
  - intros [= <-]. simpl. repeat split; [done|lia].
  - destruct (readProperty c "background") as [bg|]; simpl; [|done].
    destruct (readProperty c "foreground") as [fg|]; simpl; [|done].
    destruct (readProperty c "border") as [brd|]; simpl; [|done].
    destruct bg, fg, brd; intros [= <-]; simpl; repeat split; (done || lia).
  - destruct (properties c !! "text"); intros [= <-]. simpl.
    repeat split; [done|lia].
Qed.

(** The message of the warning a rejected comment gets. *)
Definition messageOf (c : RawComment) : string :=
  match COMMENT_TYPES (recordType c) with
  | None => "CML comment type '" +:+ recordType c +:+ "' is not supported"
  | Some cmlType =>
      match construct cmlType c with
      | Raise exc => "Invalid CML comment: " +:+ str_of_exn exc
      | Ok _ => ""
      end
  end.

(** What the loop leaves at the place of a raw comment. *)
Definition converted (c : RawComment) : listItem :=
  match COMMENT_TYPES (recordType c) with
  | None => RawItem c
  | Some cmlType =>
      match construct cmlType c with
      | Ok highLevel => HighLevel highLevel
      | Raise _ => RawItem c
      end
  end.

Definition warningsFor (c : RawComment) : list Warning :=
  if isRejected c then
    match parts c with
    | part :: _ => [(beginLine part, beginPos part, messageOf c)]
    | [] => []
    end
  else [].

Lemma index_middle {A} (l1 l2 : list A) (x : A) :
  Py.index (l1 ++ x :: l2) (Z.of_nat (List.length l1)) = Ok x.
Proof.
  unfold Py.index. rewrite length_app. simpl.
  destruct (Z.of_nat (List.length l1) <? 0) eqn:E; [lia|].
  destruct ((0 <=? Z.of_nat (List.length l1)) &&
            (Z.of_nat (List.length l1) <?
             Z.of_nat (List.length l1 + S (List.length l2)))) eqn:E'; [|lia].
  by rewrite Nat2Z.id, list_lookup_middle.
Qed.

Lemma validateAt_raw (done : list listItem) (c : RawComment)
    (rest : list RawComment) (warnings : list Warning) :
  parts c <> [] ->
  validateAt (done ++ RawItem c :: (RawItem <$> rest), warnings)
    (Z.of_nat (List.length done))
  = Ok ((done ++ [converted c]) ++ (RawItem <$> rest),
        warnings ++ warningsFor c).
Proof.
  intros Hparts. unfold validateAt, converted, warningsFor, isRejected, messageOf.
  rewrite index_middle. simpl.
  destruct (parts c) as [|part ps] eqn:Hp; [done|].
  rewrite Nat2Z.id, <- !app_assoc. simpl.
  destruct (COMMENT_TYPES (recordType c)) as [t|]; [|done].
  destruct (construct t c) as [h|exc]; simpl.
  - rewrite insert_app_r_alt, Nat.sub_diag, app_nil_r by lia. reflexivity.
  - done.
Qed.

Lemma validateLoop_raw (rest : list RawComment) :
  Forall (fun c => parts c <> []) rest ->
  forall (done : list listItem) (warnings : list Warning),
    validateLoop (seqZ (Z.of_nat (List.length done))
                    (Z.of_nat (List.length rest)))
      (done ++ (RawItem <$> rest), warnings)
    = Ok (done ++ (converted <$> rest),
          warnings ++ List.concat (warningsFor <$> rest)).
Proof.
  induction 1 as [|c rest Hc Hrest IH]; intros done warnings.
  - simpl. by rewrite !app_nil_r.
  - rewrite seqZ_cons by (simpl; lia).
    replace (Z.pred (Z.of_nat (List.length (c :: rest))))
      with (Z.of_nat (List.length rest)) by (simpl; lia).
    cbn [validateLoop fmap list_fmap].
    change (list_fmap _ _ RawItem rest) with (RawItem <$> rest).
    rewrite validateAt_raw by done. cbn [Py.bind].
    replace (Z.succ (Z.of_nat (List.length done)))
      with (Z.of_nat (List.length (done ++ [converted c])))
      by (rewrite length_app; simpl; lia).
    rewrite IH. simpl. by rewrite <- !app_assoc.
Qed.

Lemma validateCMLList_raw (cs : list RawComment) :
  Forall (fun c => parts c <> []) cs ->
  validateCMLList (RawItem <$> cs) =
    Ok (converted <$> cs, List.concat (warningsFor <$> cs)).
Proof.
  intros H. unfold validateCMLList.
  destruct cs as [|c cs]; [done|].
  change (RawItem <$> c :: cs) with (RawItem c :: (RawItem <$> cs)).
  cbv zeta. unfold Py.xrange. rewrite Z.sub_0_r, length_cons, length_fmap.
  apply (validateLoop_raw (c :: cs) H [] []).
Qed.


#[local] Instance rejected_dec (c : RawComment) : Decision (rejected c).
Proof.
  destruct (isRejected c) eqn:E.
  - left. by apply isRejected_spec.
  - right. intros H%isRejected_spec. congruence.
Defined.

Lemma warnings_rejected (cs : list RawComment) :
  Forall (fun c => rejected c -> parts c <> []) cs ->
  Forall2
    (fun (w : Warning) c =>
       exists part rest,
         parts c = part :: rest /\
         w = (beginLine part, beginPos part, messageOf c))
    (List.concat (warningsFor <$> cs)) (filter rejected cs).
Proof.
  induction 1 as [|c cs Hc Hcs IH]; [constructor|].
  cbn [fmap list_fmap List.concat]. rewrite filter_cons.
  unfold warningsFor at 1.
  destruct (decide (rejected c)) as [Hr|Hr].
  - specialize (Hc Hr). apply isRejected_spec in Hr. rewrite Hr.
    destruct (parts c) as [|part ps] eqn:Hp; [done|].
    simpl. constructor; [|exact IH]. by exists part, ps.
  - destruct (isRejected c) eqn:E; [by apply isRejected_spec in E|].
    exact IH.
Qed.

Lemma converted_spec (c : RawComment) :
  (rejected c -> converted c = RawItem c) /\
  (~ rejected c ->
   exists cmlType highLevel,
     COMMENT_TYPES (recordType c) = Some cmlType /\
     construct cmlType c = Ok highLevel /\
     converted c = HighLevel highLevel /\
     ref highLevel = c /\ CODE highLevel = recordType c).
Proof.
  rewrite <- isRejected_spec. unfold isRejected, converted.
  destruct (COMMENT_TYPES (recordType c)) as [t|]; [|by split].
  destruct (construct t c) as [h|exc] eqn:Hc; simpl; split; try done.
  intros _. destruct (construct_Ok _ _ _ Hc) as (? & ? & ?). by exists t, h.
Qed.

(** *** [validateCMLList] on any list of raw comments *)

(** A comment that is rejected and has no part to take the position of
    its warning from. *)
Definition noPosition (c : RawComment) : bool :=
  isRejected c && match parts c with [] => true | _ :: _ => false end.

Lemma converted_rejected (c : RawComment) :
  isRejected c = true -> converted c = RawItem c.
Proof. intros H%isRejected_spec. by apply converted_spec. Qed.

Lemma validateAt_item (done : list listItem) (c : RawComment)
    (tail : list listItem) (warnings : list Warning) :
  validateAt (done ++ RawItem c :: tail, warnings)
    (Z.of_nat (List.length done)) =
    if isRejected c then
      part <- Py.index (parts c) 0 ;;
      Ok (done ++ RawItem c :: tail,
          warnings ++ [(beginLine part, beginPos part, messageOf c)])
    else Ok (done ++ converted c :: tail, warnings).
Proof.
  unfold validateAt, converted, isRejected, messageOf.
  rewrite index_middle. simpl.
  destruct (COMMENT_TYPES (recordType c)) as [t|]; [|done].
  destruct (construct t c) as [h|exc]; simpl; [|done].
  rewrite Nat2Z.id, insert_app_r_alt, Nat.sub_diag by lia. reflexivity.
Qed.

Lemma validateAt_high (done : list listItem) (h : CMLComment)
    (tail : list listItem) (warnings : list Warning) :
  validateAt (done ++ HighLevel h :: tail, warnings)
    (Z.of_nat (List.length done)) = Raise AttributeError.
Proof. unfold validateAt. rewrite index_middle. reflexivity. Qed.

Lemma seqZ_next (m : Z) (n : nat) :
  seqZ m (Z.of_nat (S n)) = m :: seqZ (Z.succ m) (Z.of_nat n).
Proof.
  rewrite seqZ_cons by lia. do 2 f_equal. lia.
Qed.

Lemma validateLoop_items (cs : list RawComment) :
  forall (done : list listItem) (warnings : list Warning),
    validateLoop (seqZ (Z.of_nat (List.length done))
                    (Z.of_nat (List.length cs)))
      (done ++ (RawItem <$> cs), warnings) =
    if existsb noPosition cs then Raise IndexError
    else Ok (done ++ (converted <$> cs),
             warnings ++ List.concat (warningsFor <$> cs)).
Proof.
  induction cs as [|c cs IH]; intros done warnings.
  - simpl. by rewrite !app_nil_r.
  - cbn [List.length]. rewrite seqZ_next.
    cbn [validateLoop fmap list_fmap existsb List.concat].
    change (list_fmap _ _ RawItem cs) with (RawItem <$> cs).
    change (list_fmap _ _ converted cs) with (converted <$> cs).
    change (list_fmap _ _ warningsFor cs) with (warningsFor <$> cs).
    rewrite validateAt_item. unfold noPosition at 1, warningsFor at 1.
    replace (Z.succ (Z.of_nat (List.length done)))
      with (Z.of_nat (List.length (done ++ [converted c])))
      by (rewrite length_app; simpl; lia).
    destruct (isRejected c) eqn:Hr.
    + destruct (parts c) as [|part ps]; [done|].
      cbn [Py.index Py.bind andb orb]. simpl.
      rewrite (converted_rejected c Hr) in *.
      replace (done ++ RawItem c :: (RawItem <$> cs))
        with ((done ++ [RawItem c]) ++ (RawItem <$> cs))
        by (by rewrite <- app_assoc).
      rewrite IH. destruct (existsb noPosition cs); [done|].
      by rewrite <- !app_assoc.
    + cbn [Py.bind andb orb].
      replace (done ++ converted c :: (RawItem <$> cs))
        with ((done ++ [converted c]) ++ (RawItem <$> cs))
        by (by rewrite <- app_assoc).
      rewrite IH. destruct (existsb noPosition cs); [done|].
      by rewrite <- !app_assoc.
Qed.

Lemma validateCMLList_items (cs : list RawComment) :
  validateCMLList (RawItem <$> cs) =
    if existsb noPosition cs then Raise IndexError
    else Ok (converted <$> cs, List.concat (warningsFor <$> cs)).
Proof.
  unfold validateCMLList. destruct cs as [|c cs]; [done|].
  change (RawItem <$> c :: cs) with (RawItem c :: (RawItem <$> cs)).
  cbv zeta. unfold Py.xrange. rewrite Z.sub_0_r, length_cons, length_fmap.
  apply (validateLoop_items (c :: cs) [] []).
Qed.

Lemma noPosition_spec (c : RawComment) :
  noPosition c = true <-> rejected c /\ parts c = [].
Proof.
  unfold noPosition. rewrite andb_true_iff, isRejected_spec.
  destruct (parts c); split; intros [? ?]; done.
Qed.

(** C4 (amended). On a list of raw CML comments in which every
    rejected comment has at least its first part, [validateCMLList] does
    not raise: every comment whose code is unknown, whose version exceeds
    [VERSION] = 1 or whose construction raises is left as it is in the
    list and gets exactly one (line, column, message) warning, at the
    position of its first part, in list order; every other comment is
    replaced at its index by the typed comment constructed from it. *)
Theorem validateCMLList_warns_and_converts (cs : list RawComment) :
  Forall (fun c => rejected c -> parts c <> []) cs ->
  exists comments warnings,
    validateCMLList (RawItem <$> cs) = Ok (comments, warnings) /\
    List.length comments = List.length cs /\
    (forall (i : nat) c, cs !! i = Some c ->
       (rejected c -> comments !! i = Some (RawItem c)) /\
       (~ rejected c ->
        exists cmlType highLevel,
          COMMENT_TYPES (recordType c) = Some cmlType /\
          construct cmlType c = Ok highLevel /\
          comments !! i = Some (HighLevel highLevel) /\
          ref highLevel = c /\ CODE highLevel = recordType c)) /\
    Forall2
      (fun (w : Warning) c =>
         exists part rest,
           parts c = part :: rest /\
           w = (beginLine part, beginPos part, messageOf c))
      warnings (filter rejected cs).
Proof.
  intros Hparts.
  assert (Hpos : existsb noPosition cs = false).
  { destruct (existsb noPosition cs) eqn:E; [|done].
    apply existsb_exists in E as (c & Hin & Hc).
    apply noPosition_spec in Hc as [Hr Hp]. apply list_elem_of_In in Hin.
    by destruct (proj1 (Forall_forall _ _) Hparts c Hin Hr). }
  exists (converted <$> cs), (List.concat (warningsFor <$> cs)).
  split; [by rewrite validateCMLList_items, Hpos|].
  split; [by rewrite length_fmap|].
  split; [|by apply warnings_rejected].
  intros i c Hi. rewrite list_lookup_fmap, Hi. simpl.
  destruct (converted_spec c) as [Hrej Hok]. split.
  - intros Hr. by rewrite Hrej.
  - intros Hr. destruct (Hok Hr) as (t & h & Ht & Hc & -> & Href & Hcode).
    by exists t, h.
Qed.

Definition validateCMLList_result (cs : list RawComment)
  : option (list listItem * list Warning) :=
  match validateCMLList (RawItem <$> cs) with
  | Ok r => Some r
  | Raise _ => None
  end.

(** A list with one comment of each fate. *)
Definition at_ (l p : Z) : list CMLPart := [mkCMLPart l p].

Definition sampleComments : list RawComment :=
  [ mkRawComment "sw" 1 ∅ (at_ 3 5);
    mkRawComment "cc" 1 {[ "background" := "300,0,0" ]} (at_ 7 1);
    mkRawComment "zz" 1 ∅ (at_ 9 1);
    mkRawComment "rt" 2 {[ "text" := "reset" ]} (at_ 12 9);
    mkRawComment "rt" 1 {[ "text" := "reset" ]} (at_ 15 9) ].

Lemma validateCMLList_warns_and_converts_witness :
  exists comments warnings,
    validateCMLList (RawItem <$> sampleComments) = Ok (comments, warnings) /\
    List.length comments = List.length sampleComments /\
    (forall (i : nat) c, sampleComments !! i = Some c ->
       (rejected c -> comments !! i = Some (RawItem c)) /\
       (~ rejected c ->
        exists cmlType highLevel,
          COMMENT_TYPES (recordType c) = Some cmlType /\
          construct cmlType c = Ok highLevel /\
          comments !! i = Some (HighLevel highLevel) /\
          ref highLevel = c /\ CODE highLevel = recordType c)) /\
    Forall2
      (fun (w : Warning) c =>
         exists part rest,
           parts c = part :: rest /\
           w = (beginLine part, beginPos part, messageOf c))
      warnings (filter rejected sampleComments).
Proof.
  apply (validateCMLList_warns_and_converts sampleComments).
  repeat (constructor; [intros _; discriminate|]). constructor.
Defined.

(** C4 as the claim words it: for every list of raw comments. *)
Definition validateCMLList_never_raises : Prop :=
  forall cs : list RawComment,
    exists r, validateCMLList (RawItem <$> cs) = Ok r.

(** C4, counterexample: a comment of the unknown code [zz] that has no
    parts. [getType] gives None, and [cmlComment.parts[ 0 ]], read to
    place the warning, raises IndexError outside any [try]. *)
Lemma comment_without_parts_raises : ~ validateCMLList_never_raises.
Proof.
  intros H. destruct (H [mkRawComment "zz" 1 ∅ []]) as [r Hr].
  vm_compute in Hr. discriminate.
Qed.

Example sampleComments_warnings :
  snd <$> validateCMLList_result sampleComments =
    Some [ (7, 1, "Invalid CML comment: Invalid decimal color format: 300,0,0");
           (9, 1, "CML comment type 'zz' is not supported");
           (12, 9, "Invalid CML comment: The CML comment version 2 is not supported. Max supported version is 1") ].
Proof. vm_compute. reflexivity. Qed.


(** *** [readColor] *)

(** One channel: parsed in the base of the format and range checked. *)
Definition channel (field : string) (base : Z) : result Z :=
  v <- Py.int field base ;;
  _ <- checkColorRange v ;;
  Ok v.

Lemma channel_Ok field base v :
  channel field base = Ok v <-> Py.int field base = Ok v /\ 0 <= v <= 255.
Proof.
  unfold channel, checkColorRange.
  destruct (Py.int field base) as [w|e]; simpl; [|split; [done|by intros [? _]]].
  destruct ((w <? 0) || (w >? 255)) eqn:E; simpl.
  - split; [done|]. intros [[= ->] ?]. lia.
  - split; [intros [= ->]; split; [done|lia]|by intros [[= ->] _]].
Qed.

Lemma channel_bind {A} field base (k : Z -> result A) :
  (r <- Py.int field base ;; _ <- checkColorRange r ;; k r) =
  (r <- channel field base ;; k r).
Proof.
  unfold channel. destruct (Py.int field base); simpl; [|done].
  by destruct (checkColorRange a).
Qed.

(** The channel fields of a specification and their base, when the
    specification has the length (with [#]) or the number of fields
    (without) that [readColor] asks for. *)
Definition channelFields (color : string) : option (list string * Z) :=
  if Py.startswith color "#" then
    let body := Py.slice_from color 1 in
    if Py.len body =? 6 then
      Some ([Py.slice body 0 2; Py.slice body 2 4; Py.slice body 4 6], 16)
    else if Py.len body =? 8 then
      Some ([Py.slice body 0 2; Py.slice body 2 4; Py.slice body 4 6;
             Py.slice body 6 8], 16)
    else None
  else
    let parts := Py.split color ","%char in
    if (List.length parts =? 3)%nat || (List.length parts =? 4)%nat
    then Some (Py.strip <$> parts, 10)
    else None.

Definition colourOf (values : list Z) : option QColor :=
  match values with
  | [r; g; b] => Some (QColor3 r g b)
  | [r; g; b; a] => Some (QColor4 r g b a)
  | _ => None
  end.

(** A specification is accepted with colour [c] when it has fields,
    every field is an integer of the base within [0, 255], and [c] is
    made of these values. *)
Definition accepted (color : string) (c : QColor) : Prop :=
  exists fields base values,
    channelFields color = Some (fields, base) /\
    Forall2 (fun field v => Py.int field base = Ok v /\ 0 <= v <= 255)
      fields values /\
    colourOf values = Some c.

Lemma substring_all (s : string) : String.substring 0 (String.length s) s = s.
Proof. induction s as [|c s IH]; simpl; [done|by rewrite IH]. Qed.

Lemma startswith_hash (color : string) :
  Py.startswith color "#" = true ->
  "#" +:+ Py.slice_from color 1 = color.
Proof.
  unfold Py.slice_from. destruct color as [|c rest]; [done|].
  unfold Py.startswith. destruct (Ascii.eqb_spec "#" c) as [<-|]; [|done].
  intros _. simpl. by rewrite Nat.sub_0_r, substring_all.
Qed.

(** The error of [readColor] names the format and the specification. *)
Definition formatError (color : string) : exn :=
  Exception_
    ((if Py.startswith color "#"
      then "Invalid hexadecimal color format: "
      else "Invalid decimal color format: ") +:+ color).

Lemma readColor_Raise color exc :
  readColor color = Raise exc -> exc = formatError color.
Proof.
  unfold readColor, formatError.
  destruct (Py.startswith color "#") eqn:Hs.
  - pose proof (startswith_hash color Hs) as Heq.
    assert (Hmsg : "Invalid hexadecimal color format: #" +:+ Py.slice_from color 1
                   = "Invalid hexadecimal color format: " +:+ color).
    { rewrite <- Heq at 2. reflexivity. }
    rewrite Hmsg.
    destruct (negb _); [by intros [= <-]|].
    destruct (readHexChannels _ _); [done|by intros [= <-]].
  - destruct (negb _); [by intros [= <-]|].
    destruct (readDecimalChannels _ _); [done|by intros [= <-]].
Qed.


(** The channels of a list of three or four fields, read in order. *)
Definition readFields (fields : list string) (base : Z) : result QColor :=
  match fields with
  | [f1; f2; f3] =>
      r <- channel f1 base ;; g <- channel f2 base ;; b <- channel f3 base ;;
      Ok (QColor3 r g b)
  | [f1; f2; f3; f4] =>
      r <- channel f1 base ;; g <- channel f2 base ;; b <- channel f3 base ;;
      a <- channel f4 base ;;
      Ok (QColor4 r g b a)
  | _ => Raise ValueError
  end.

Lemma readFields_Ok fields base c :
  readFields fields base = Ok c <->
  exists values,
    Forall2 (fun field v => Py.int field base = Ok v /\ 0 <= v <= 255)
      fields values /\
    colourOf values = Some c.
Proof.
  split.
  - destruct fields as [|f1 [|f2 [|f3 [|f4 [|f5 fields]]]]]; simpl; try done.
    + destruct (channel f1 base) as [r|] eqn:H1; simpl; [|done].
      destruct (channel f2 base) as [g|] eqn:H2; simpl; [|done].
      destruct (channel f3 base) as [b|] eqn:H3; simpl; [|done].
      intros [= <-]. exists [r; g; b].
      split; [|done].
      repeat (constructor; [by apply channel_Ok|]). constructor.
    + destruct (channel f1 base) as [r|] eqn:H1; simpl; [|done].
      destruct (channel f2 base) as [g|] eqn:H2; simpl; [|done].
      destruct (channel f3 base) as [b|] eqn:H3; simpl; [|done].
      destruct (channel f4 base) as [a|] eqn:H4; simpl; [|done].
      intros [= <-]. exists [r; g; b; a].
      split; [|done].
      repeat (constructor; [by apply channel_Ok|]). constructor.
  - intros (values & Hall & Hc).
    destruct values as [|r [|g [|b [|a [|x values]]]]]; simpl in Hc; try done.
    + injection Hc as <-.
      inversion Hall as [|f1 ? l1 ? H1 Hall1]; subst.
      inversion Hall1 as [|f2 ? l2 ? H2 Hall2]; subst.
      inversion Hall2 as [|f3 ? l3 ? H3 Hall3]; subst.
      inversion Hall3; subst. simpl.
      apply channel_Ok in H1 as ->. apply channel_Ok in H2 as ->.
      by apply channel_Ok in H3 as ->.
    + injection Hc as <-.
      inversion Hall as [|f1 ? l1 ? H1 Hall1]; subst.
      inversion Hall1 as [|f2 ? l2 ? H2 Hall2]; subst.
      inversion Hall2 as [|f3 ? l3 ? H3 Hall3]; subst.
      inversion Hall3 as [|f4 ? l4 ? H4 Hall4]; subst.
      inversion Hall4; subst. simpl.
      apply channel_Ok in H1 as ->. apply channel_Ok in H2 as ->.
      apply channel_Ok in H3 as ->. by apply channel_Ok in H4 as ->.
Qed.

Ltac next_channel :=
  rewrite channel_bind;
  match goal with
  | |- context [channel ?field ?base] =>
      destruct (channel field base); cbn [Py.bind]; try reflexivity
  end.

Lemma readHexChannels_fields body :
  readHexChannels body 6 =
    readFields [Py.slice body 0 2; Py.slice body 2 4; Py.slice body 4 6] 16 /\
  readHexChannels body 8 =
    readFields [Py.slice body 0 2; Py.slice body 2 4; Py.slice body 4 6;
                Py.slice body 6 8] 16.
Proof.
  unfold readHexChannels, readFields.
  split; do 3 next_channel.
  change (8 =? 6) with false. cbv iota. next_channel.
Qed.

Lemma readDecimalChannels_fields parts :
  (List.length parts = 3%nat \/ List.length parts = 4%nat) ->
  readDecimalChannels parts (Z.of_nat (List.length parts)) =
    readFields (Py.strip <$> parts) 10.
Proof.
  intros [H|H];
    destruct parts as [|p0 [|p1 [|p2 [|p3 [|p4 parts]]]]]; try done;
    unfold readDecimalChannels, readFields;
    cbn [fmap list_fmap];
    change (Py.index ?l 0) with (Ok p0);
    change (Py.index ?l 1) with (Ok p1);
    change (Py.index ?l 2) with (Ok p2);
    cbn [Py.bind]; do 3 next_channel.
  change (Py.index ?l 3) with (Ok p3). cbn [Py.bind].
  change (Z.of_nat (List.length [p0; p1; p2; p3]) =? 3) with false. cbv iota.
  cbn [Py.bind]. next_channel.
Qed.

Lemma readColor_Ok color c : readColor color = Ok c <-> accepted color c.
Proof.
  unfold accepted.
  assert (Hfields :
    readColor color = Ok c <->
    exists fields base,
      channelFields color = Some (fields, base) /\
      readFields fields base = Ok c).
  { unfold readColor, channelFields.
    destruct (Py.startswith color "#").
    - set (body := Py.slice_from color 1).
      destruct (readHexChannels_fields body) as [H6 H8].
      destruct (Py.len body =? 6) eqn:E6.
      + simpl. apply Z.eqb_eq in E6. rewrite E6, H6.
        clear H6 H8.
        match goal with
        | |- context [readFields ?fs 16] =>
            destruct (readFields fs 16) as [c'|] eqn:Hr
        end.
        * split; [intros [= <-]; eauto|]. intros (? & ? & [= <- <-] & ?). congruence.
        * split; [done|]. intros (? & ? & [= <- <-] & ?). congruence.
      + destruct (Py.len body =? 8) eqn:E8.
        * simpl. apply Z.eqb_eq in E8. rewrite E8, H8.
          clear H6 H8.
        match goal with
        | |- context [readFields ?fs 16] =>
            destruct (readFields fs 16) as [c'|] eqn:Hr
        end.
          -- split; [intros [= <-]; eauto|]. intros (? & ? & [= <- <-] & ?). congruence.
          -- split; [done|]. intros (? & ? & [= <- <-] & ?). congruence.
        * simpl. split; [done|]. by intros (? & ? & ? & ?).
    - set (parts := Py.split color ","%char).
      destruct ((Z.of_nat (List.length parts) =? 3) ||
                (Z.of_nat (List.length parts) =? 4)) eqn:E.
      + simpl. rewrite readDecimalChannels_fields by lia.
        replace ((List.length parts =? 3)%nat || (List.length parts =? 4)%nat)
          with true by lia.
        destruct (readFields _ 10) as [c'|] eqn:Hr.
        * split; [intros [= <-]; eauto|]. intros (? & ? & [= <- <-] & ?). congruence.
        * split; [done|]. intros (? & ? & [= <- <-] & ?). congruence.
      + simpl.
        replace ((List.length parts =? 3)%nat || (List.length parts =? 4)%nat)
          with false by lia.
        split; [done|]. by intros (? & ? & ? & ?). }
  rewrite Hfields. split.
  - intros (fields & base & Hf & Hr). apply readFields_Ok in Hr as (values & ? & ?).
    by exists fields, base, values.
  - intros (fields & base & values & Hf & Hall & Hc).
    exists fields, base. split; [done|]. apply readFields_Ok. by exists values.
Qed.


(** *** The two notations of one colour *)

(** [#rrggbb] and [#rrggbbaa] *)
Definition hexSpec (values : list Z) : string :=
  "#" +:+ String.concat "" (hex2 <$> values).

(** [r,g,b] and [r,g,b,a] in decimal *)
Definition decimalSpec (values : list Z) : string :=
  String.concat "," (Py.str_of_int <$> values).

Definition hexChannelReads (v : Z) : bool :=
  match Py.int (hex2 v) 16 with
  | Ok w => w =? v
  | Raise _ => false
  end.

Definition decimalChannelReads (v : Z) : bool :=
  let s := Py.str_of_int v in
  negb (Py.isempty s) && negb (Py.startswith s "#") &&
  forallb (fun c => negb (Ascii.eqb c ","%char)) (Py.chars s) &&
  match Py.int (Py.strip s) 10 with
  | Ok w => w =? v
  | Raise _ => false
  end.

Lemma channels_read :
  forallb (fun v => hexChannelReads v && decimalChannelReads v) (seqZ 0 256)
  = true.
Proof. vm_compute. reflexivity. Qed.

Lemma channel_reads v :
  0 <= v <= 255 -> hexChannelReads v = true /\ decimalChannelReads v = true.
Proof.
  intros Hv. apply andb_true_iff.
  apply (proj1 (forallb_forall _ _) channels_read v).
  apply list_elem_of_In, elem_of_seqZ. lia.
Qed.

Lemma int_hex2 v : 0 <= v <= 255 -> Py.int (hex2 v) 16 = Ok v.
Proof.
  intros [Hh _]%channel_reads. unfold hexChannelReads in Hh.
  destruct (Py.int (hex2 v) 16) as [w|]; [|done].
  apply Z.eqb_eq in Hh. by subst.
Qed.

Lemma chars_app (a b : string) : Py.chars (a +:+ b) = Py.chars a ++ Py.chars b.
Proof. induction a as [|c a IH]; simpl; [done|]. by f_equal. Qed.

Lemma str_chars (a : string) : Py.str (Py.chars a) = a.
Proof. apply string_of_list_ascii_of_string. Qed.

Lemma split_chars_field sep (x l field : list ascii) :
  forallb (fun c => negb (Ascii.eqb c sep)) x = true ->
  Py.split_chars sep (x ++ l) field = Py.split_chars sep l (rev x ++ field).
Proof.
  revert field. induction x as [|c x IH]; intros field Hx; simpl in *; [done|].
  apply andb_true_iff in Hx as [Hc Hx].
  destruct (Ascii.eqb c sep); [done|].
  rewrite IH by done. by rewrite <- app_assoc.
Qed.

Lemma split_cons (a rest : string) :
  forallb (fun c => negb (Ascii.eqb c ","%char)) (Py.chars a) = true ->
  Py.split (a +:+ "," +:+ rest) ","%char = a :: Py.split rest ","%char.
Proof.
  intros Ha. unfold Py.split. rewrite !chars_app, split_chars_field by done.
  simpl. by rewrite app_nil_r, rev_involutive, str_chars.
Qed.

Lemma split_last (a : string) :
  forallb (fun c => negb (Ascii.eqb c ","%char)) (Py.chars a) = true ->
  Py.split a ","%char = [a].
Proof.
  intros Ha. unfold Py.split.
  rewrite <- (app_nil_r (Py.chars a)), split_chars_field by done.
  simpl. by rewrite app_nil_r, rev_involutive, str_chars.
Qed.

Lemma startswith_app (a b : string) (c : ascii) :
  Py.isempty a = false ->
  Py.startswith (a +:+ b) (String c EmptyString) =
  Py.startswith a (String c EmptyString).
Proof. destruct a; [done|reflexivity]. Qed.

Lemma decimal_channel v :
  0 <= v <= 255 ->
  let s := Py.str_of_int v in
  Py.isempty s = false /\ Py.startswith s "#" = false /\
  forallb (fun c => negb (Ascii.eqb c ","%char)) (Py.chars s) = true /\
  Py.int (Py.strip s) 10 = Ok v.
Proof.
  intros [_ Hd]%channel_reads. unfold decimalChannelReads in Hd. simpl.
  destruct (Py.isempty (Py.str_of_int v)); [done|].
  destruct (Py.startswith (Py.str_of_int v) "#"); [done|].
  destruct (forallb _ _); [|done].
  destruct (Py.int _ 10) as [w|]; [|done].
  simpl in Hd. apply Z.eqb_eq in Hd. by subst.
Qed.

Lemma readColor_hexSpec (values : list Z) (c : QColor) :
  Forall (fun v => 0 <= v <= 255) values ->
  colourOf values = Some c ->
  readColor (hexSpec values) = Ok c.
Proof.
  intros Hall Hc. apply readColor_Ok.
  exists (hex2 <$> values), 16, values.
  split; [|split; [|done]].
  - destruct values as [|r [|g [|b [|a [|x values]]]]]; try done.
  - clear Hc. induction Hall as [|v values Hv Hall IH]; [constructor|].
    cbn [fmap list_fmap]. constructor; [|exact IH].
    split; [by apply int_hex2|done].
Qed.

Lemma readColor_decimalSpec (values : list Z) (c : QColor) :
  Forall (fun v => 0 <= v <= 255) values ->
  colourOf values = Some c ->
  readColor (decimalSpec values) = Ok c.
Proof.
  intros Hall Hc. apply readColor_Ok.
  exists (Py.strip <$> (Py.str_of_int <$> values)), 10, values.
  split; [|split; [|done]].
  - assert (Hsplit : Py.split (decimalSpec values) ","%char
                     = Py.str_of_int <$> values /\
                     Py.startswith (decimalSpec values) "#" = false).
    { destruct values as [|r [|g [|b [|a [|x values]]]]]; try done;
        repeat match goal with
               | H : Forall _ (_ :: _) |- _ =>
                   apply Forall_cons in H as [?%decimal_channel H];
                   destruct_and?
               end;
        unfold decimalSpec; cbn [fmap list_fmap String.concat]; split.
      - by rewrite !split_cons, split_last.
      - by rewrite startswith_app.
      - by rewrite !split_cons, split_last.
      - by rewrite startswith_app. }
    destruct Hsplit as [Hsplit Hstart].
    unfold channelFields. rewrite Hstart, Hsplit, length_fmap.
    by destruct values as [|r [|g [|b [|a [|x values]]]]].
  - clear Hc. induction Hall as [|v values Hv Hall IH]; [constructor|].
    cbn [fmap list_fmap]. constructor; [|exact IH].
    split; [by apply decimal_channel|done].
Qed.


Lemma readColor_total color :
  (exists c, readColor color = Ok c /\ accepted color c) \/
  (readColor color = Raise (formatError color) /\ forall c, ~ accepted color c).
Proof.
  destruct (readColor color) as [c|exc] eqn:Hr.
  - left. exists c. split; [done|]. by apply readColor_Ok.
  - right. apply readColor_Raise in Hr as Hexc. subst exc. split; [done|].
    intros c Hc%readColor_Ok. congruence.
Qed.

Lemma readColor_bad_field color fields base field :
  channelFields color = Some (fields, base) ->
  field ∈ fields ->
  (forall v, Py.int field base = Ok v -> v < 0 \/ 255 < v) ->
  readColor color = Raise (formatError color).
Proof.
  intros Hf Hin Hbad.
  destruct (readColor_total color) as [(c & _ & Hacc)|[Hr _]]; [|done].
  destruct Hacc as (fields' & base' & values & Hf' & Hall & _).
  rewrite Hf in Hf'. injection Hf' as <- <-.
  apply list_elem_of_lookup in Hin as [i Hi].
  destruct (Forall2_lookup_l _ _ _ _ _ Hall Hi) as (v & _ & Hv & Hrange).
  destruct (Hbad v Hv); lia.
Qed.

(** C5 (amended). The hexadecimal and the decimal specification of the
    same channel values, each in [0, 255], are read as the same colour
    ([#aabbcc] and [170,187,204]; [#ff000080] is RGBA (255,0,0,128)).
    [readColor] succeeds exactly on the accepted specifications and
    raises the error that names the format and the specification on every
    other one: a specification without 6 or 8 characters after [#] or
    without 3 or 4 comma separated fields, and a specification with a
    field that [int] rejects or reads as a value outside [0, 255]
    ([300,0,0]). A field that [int] accepts is read, also when it is
    not made of digits only: Python 2's [int] takes a sign, blanks
    around the literal and blanks between the sign and the digits
    ([+ 1,2,3] and [#+1+2+3] are the colour (1, 2, 3)). *)
Theorem readColor_formats :
  (readColor "#aabbcc" = Ok (QColor3 170 187 204) /\
   readColor "170,187,204" = Ok (QColor3 170 187 204) /\
   readColor "#ff000080" = Ok (QColor4 255 0 0 128) /\
   readColor "300,0,0" =
     Raise (Exception_ "Invalid decimal color format: 300,0,0") /\
   readColor "+ 1,2,3" = Ok (QColor3 1 2 3) /\
   readColor "#+1+2+3" = Ok (QColor3 1 2 3)) /\
  (forall (values : list Z) (c : QColor),
     Forall (fun v => 0 <= v <= 255) values ->
     colourOf values = Some c ->
     readColor (hexSpec values) = Ok c /\
     readColor (decimalSpec values) = Ok c) /\
  (forall color,
     (exists c, readColor color = Ok c /\ accepted color c) \/
     (readColor color = Raise (formatError color) /\
      forall c, ~ accepted color c)) /\
  (forall color,
     channelFields color = None ->
     readColor color = Raise (formatError color)) /\
  (forall color fields base field,
     channelFields color = Some (fields, base) ->
     field ∈ fields ->
     (forall v, Py.int field base = Ok v -> v < 0 \/ 255 < v) ->
     readColor color = Raise (formatError color)).
Proof.
  split; [repeat split; vm_compute; reflexivity|].
  split.
  { intros values c Hall Hc.
    split; [by apply readColor_hexSpec|by apply readColor_decimalSpec]. }
  split; [exact readColor_total|].
  split; [|exact readColor_bad_field].
  intros color Hnone.
  destruct (readColor_total color) as [(c & _ & Hacc)|[Hr _]]; [|done].
  destruct Hacc as (fields & base & values & Hf & _). congruence.
Qed.

Lemma readColor_formats_witness :
  (readColor (hexSpec [18; 52; 86]) = Ok (QColor3 18 52 86) /\
   readColor (decimalSpec [18; 52; 86]) = Ok (QColor3 18 52 86)) /\
  readColor "1,2,3,4,5" = Raise (formatError "1,2,3,4,5") /\
  readColor "#0000zz" = Raise (formatError "#0000zz").
Proof.
  destruct readColor_formats as (_ & Hsame & _ & Hshape & Hfield).
  split; [|split].
  - apply (Hsame [18; 52; 86] (QColor3 18 52 86)).
    + repeat constructor; lia.
    + reflexivity.
  - apply (Hshape "1,2,3,4,5"). reflexivity.
  - apply (Hfield "#0000zz" ["00"; "00"; "zz"] 16 "zz").
    + reflexivity.
    + apply elem_of_cons. right. apply elem_of_cons. right.
      apply elem_of_cons. by left.
    + intros v Hv. vm_compute in Hv. discriminate.
Defined.

(** The four documented formats, written with digits only. *)
Definition isHexDigit (c : ascii) : bool :=
  match Py.digitValue c with
  | Some d => d <? 16
  | None => false
  end.

Definition isDecimalDigit (c : ascii) : bool :=
  match Py.digitValue c with
  | Some d => d <? 10
  | None => false
  end.

Definition documented (color : string) : bool :=
  if Py.startswith color "#" then
    let body := Py.slice_from color 1 in
    ((Py.len body =? 6) || (Py.len body =? 8)) &&
    forallb isHexDigit (Py.chars body)
  else
    let parts := Py.split color ","%char in
    ((List.length parts =? 3)%nat || (List.length parts =? 4)%nat) &&
    forallb (fun p => negb (Py.isempty p) &&
                      forallb isDecimalDigit (Py.chars p)) parts.

(** C5 as the claim words it: whatever is not in a documented format
    raises. *)
Definition malformed_specs_raise : Prop :=
  forall color, documented color = false ->
                exists exc, readColor color = Raise exc.

(** C5, counterexample: [#+1+2+3] has signs where digits belong and is
    read as the colour (1, 2, 3). *)
Lemma signed_hex_fields_are_read : ~ malformed_specs_raise.
Proof.
  intros H. destruct (H "#+1+2+3") as [exc Hexc]; [reflexivity|].
  vm_compute in Hexc. discriminate.
Qed.

End Cml.

(** ** flowuimouse.py and the distances of scopeitems.py *)

Module FlowUI.

(** [sys.maxint] of a 64-bit build. *)
Definition maxint : Z := 2 ^ 63 - 1.

(** What the code reads of a fragment of the control flow: absolute
    positions [begin] and [end], and lines. *)
Record Span : Type := mkSpan {
  begin : Z;
  end_ : Z;
  beginLine : Z;
  endLine : Z
}.

(** The [ref] of a graphics item: its own span and the parts that a
    fragment of its kind may have. [None] is a part that is [None] or
    not there; [suite] holds the spans of the suite items. *)
Record Fragment : Type := mkFragment {
  own : Span;
  body : option Span;
  docstring : option Span;
  sideComment : option Span;
  leadingComment : option Span;
  message : option Span;
  test : option Span;
  value : option Span;
  encodingLine : option Span;
  bangLine : option Span;
  suite : list Span
}.

(** Reading a part that is not there raises. *)
Definition part (p : option Span) : result Span :=
  match p with
  | Some s => Ok s
  | None => Raise AttributeError
  end.

(** The kinds of [CellElement] (items.py) that the code names. *)
Module CellElement.
Inductive Kind : Type :=
| UNKNOWN | VCANVAS | CONNECTOR
| FILE_SCOPE | FUNC_SCOPE | CLASS_SCOPE | FOR_SCOPE | WHILE_SCOPE
| TRY_SCOPE | WITH_SCOPE | DECOR_SCOPE | ELSE_SCOPE | EXCEPT_SCOPE
| FINALLY_SCOPE
| ABOVE_COMMENT | LEADING_COMMENT | SIDE_COMMENT | INDEPENDENT_COMMENT
| ASSERT | RAISE | RETURN
| OTHER.
End CellElement.

Module ScopeCellElement.
Inductive SubKind : Type :=
| UNKNOWN | TOP_LEFT | LEFT | BOTTOM_LEFT | DECLARATION
| SIDE_COMMENT | DOCSTRING | TOP | BOTTOM.
End ScopeCellElement.

(** A graphics item of the scene. [getProxiedItem] is the item a proxy
    stands for; [topLeftCell] is [canvas.cells[ row ][ column ]] one row
    up and one column left of the item; [cellLineDistance] and
    [cellDistance] are [getLineDistance] and [getDistance] of an item
    that is not a scope cell (items.py). *)
Inductive Item : Type := mkItem {
  isProxyItem : bool;
  getProxiedItem : option Item;
  scopedItem : bool;
  kind : CellElement.Kind;
  subKind : ScopeCellElement.SubKind;
  ref : Fragment;
  topLeftCell : option Item;
  cellLineDistance : Z -> Z;
  cellDistance : Z -> Z
}.

(** [ScopeCellElement.getTopLeftItem] *)
Definition getTopLeftItem (self : Item) : result Item :=
  match subKind self with
  | ScopeCellElement.DECLARATION =>
      match topLeftCell self with
      | Some cell => Ok cell
      | None => Raise IndexError
      end
  | _ =>
      Raise (Exception_ ("Logical error: the getTopLeftItem() is designed " +:+
                         "to be called for the DECLARATION only"))
  end.

(** [CFSceneMouseMixin.__getLogicalItem] *)
Definition __getLogicalItem (item : option Item) : result (option Item) :=
  match item with
  | None => Ok None
  | Some item =>
      if isProxyItem item then Ok (getProxiedItem item)
      else if negb (scopedItem item) then Ok (Some item)
      else
        match subKind item with
        | ScopeCellElement.DECLARATION =>
            topLeft <- getTopLeftItem item ;; Ok (Some topLeft)
        | ScopeCellElement.SIDE_COMMENT | ScopeCellElement.DOCSTRING =>
            Ok (Some item)
        | _ => Ok None
        end
  end.

(** [CFSceneMouseMixin.__getItemVisualBeginEnd] *)
Definition __getItemVisualBeginEnd (item : Item) : result (Z * Z) :=
  if scopedItem item then
    match subKind item with
    | ScopeCellElement.SIDE_COMMENT =>
        c <- part (sideComment (ref item)) ;; Ok (begin c, end_ c)
    | ScopeCellElement.DOCSTRING =>
        d <- part (docstring (ref item)) ;; Ok (begin d, end_ d)
    | _ =>
        match kind item with
        | CellElement.FILE_SCOPE =>
            match docstring (ref item) with
            | Some d => b <- part (body (ref item)) ;; Ok (begin d, end_ b)
            | None => b <- part (body (ref item)) ;; Ok (begin b, end_ b)
            end
        | CellElement.TRY_SCOPE | CellElement.FOR_SCOPE
        | CellElement.WHILE_SCOPE =>
            lastSuiteItem <- Py.index (suite (ref item)) (-1) ;;
            b <- part (body (ref item)) ;;
            Ok (begin b, end_ lastSuiteItem)
        | _ =>
            b <- part (body (ref item)) ;;
            Ok (begin b, end_ (own (ref item)))
        end
    end
  else
    match kind item with
    | CellElement.ABOVE_COMMENT | CellElement.LEADING_COMMENT =>
        c <- part (leadingComment (ref item)) ;; Ok (begin c, end_ c)
    | CellElement.SIDE_COMMENT =>
        c <- part (sideComment (ref item)) ;; Ok (begin c, end_ c)
    | CellElement.INDEPENDENT_COMMENT =>
        Ok (begin (own (ref item)), end_ (own (ref item)))
    | CellElement.ASSERT =>
        e <- match message (ref item), test (ref item) with
             | Some m, _ => Ok (end_ m)
             | None, Some t => Ok (end_ t)
             | None, None => b <- part (body (ref item)) ;; Ok (end_ b)
             end ;;
        b <- part (body (ref item)) ;;
        Ok (begin b, e)
    | CellElement.RAISE | CellElement.RETURN =>
        e <- match value (ref item) with
             | Some v => Ok (end_ v)
             | None => b <- part (body (ref item)) ;; Ok (end_ b)
             end ;;
        b <- part (body (ref item)) ;;
        Ok (begin b, e)
    | _ =>
        b <- part (body (ref item)) ;; Ok (begin b, end_ b)
    end.

(** The loop of [isNestedInSelected] over [self.selectedItems()]. *)
Fixpoint nestedLoop (items : list Item) (toSelectBegin toSelectEnd : Z)
  : result bool :=
  match items with
  | [] => Ok false
  | item :: rest =>
      if negb (scopedItem item) then nestedLoop rest toSelectBegin toSelectEnd
      else
        match subKind item with
        | ScopeCellElement.TOP_LEFT =>
            range <- __getItemVisualBeginEnd item ;;
            let '(itemBegin, itemEnd) := range in
            if (toSelectBegin >=? itemBegin) && (toSelectEnd <=? itemEnd)
            then Ok true
            else nestedLoop rest toSelectBegin toSelectEnd
        | _ => nestedLoop rest toSelectBegin toSelectEnd
        end
  end.

(** [CFSceneMouseMixin.isNestedInSelected] *)
Definition isNestedInSelected (selectedItems : list Item) (itemToSelect : Item)
  : result bool :=
  range <- __getItemVisualBeginEnd itemToSelect ;;
  let '(toSelectBegin, toSelectEnd) := range in
  nestedLoop selectedItems toSelectBegin toSelectEnd.


(** *** Selection containment *)

(** The range of a scope cell as the specification words it: a file
    scope runs from its docstring's begin (its body's begin without a
    docstring) to its body's end; a try, for or while scope from its
    body's begin to the end of its last suite item; any other scope from
    its body's begin to its own end. *)
Definition scopeRange (item : Item) : option (Z * Z) :=
  b ← body (ref item);
  match kind item with
  | CellElement.FILE_SCOPE =>
      Some (match docstring (ref item) with
            | Some d => begin d
            | None => begin b
            end, end_ b)
  | CellElement.TRY_SCOPE | CellElement.FOR_SCOPE | CellElement.WHILE_SCOPE =>
      lastSuiteItem ← last (suite (ref item));
      Some (begin b, end_ lastSuiteItem)
  | _ => Some (begin b, end_ (own (ref item)))
  end.

Lemma index_minus_1 {A} (l : list A) :
  Py.index l (-1) = match last l with
                    | Some x => Ok x
                    | None => Raise IndexError
                    end.
Proof.
  destruct l as [|x l _] using rev_ind; [done|].
  rewrite last_snoc. unfold Py.index. rewrite length_app. simpl.
  set (n := List.length l).
  replace (-1 + Z.of_nat (n + 1)) with (Z.of_nat n) by lia.
  destruct ((0 <=? Z.of_nat n) && (Z.of_nat n <? Z.of_nat (n + 1))) eqn:E; [|lia].
  rewrite Nat2Z.id. unfold n. by rewrite list_lookup_middle.
Qed.

Lemma topLeft_range (item : Item) (range : Z * Z) :
  scopedItem item = true ->
  subKind item = ScopeCellElement.TOP_LEFT ->
  __getItemVisualBeginEnd item = Ok range <-> scopeRange item = Some range.
Proof.
  intros Hs Hk. unfold __getItemVisualBeginEnd, scopeRange.
  rewrite Hs, Hk.
  destruct (kind item), (body (ref item)) as [b|],
    (docstring (ref item)) as [d|]; simpl;
    rewrite ?index_minus_1;
    try destruct (last (suite (ref item))) as [l|]; simpl;
    split; intros H; by inversion H.
Qed.

(** A selected item that holds the range from [b] to [e]. *)
Definition holds (b e : Z) (item : Item) : Prop :=
  scopedItem item = true /\
  subKind item = ScopeCellElement.TOP_LEFT /\
  exists itemBegin itemEnd,
    __getItemVisualBeginEnd item = Ok (itemBegin, itemEnd) /\
    itemBegin <= b /\ e <= itemEnd.

Lemma nestedLoop_spec (items : list Item) (b e : Z) :
  (forall item, item ∈ items -> scopedItem item = true ->
                subKind item = ScopeCellElement.TOP_LEFT ->
                Py.is_ok (__getItemVisualBeginEnd item) = true) ->
  exists r, nestedLoop items b e = Ok r /\
            (r = true <-> exists item, item ∈ items /\ holds b e item).
Proof.
  induction items as [|item rest IH]; intros Hok.
  - exists false. split; [done|]. split; [done|].
    intros (item & Hin & _). by apply elem_of_nil in Hin.
  - destruct IH as (r & Hr & Hiff).
    { intros i Hi. apply Hok, elem_of_cons. by right. }
    assert (Hskip : ~ holds b e item ->
                    (r = true <-> exists i, i ∈ item :: rest /\ holds b e i)).
    { intros Hno. rewrite Hiff. split.
      - intros (i & Hi & Hh). exists i. split; [|done].
        apply elem_of_cons. by right.
      - intros (i & Hi & Hh). apply elem_of_cons in Hi as [->|Hi]; [done|eauto]. }
    simpl. destruct (scopedItem item) eqn:Hs; simpl.
    2: { exists r. split; [done|]. apply Hskip. intros [? _]. congruence. }
    destruct (subKind item) eqn:Hk;
      try (exists r; split; [done|]; apply Hskip; intros (_ & ? & _); congruence).
    specialize (Hok item ltac:(apply elem_of_cons; by left) Hs Hk).
    destruct (__getItemVisualBeginEnd item) as [[ib ie]|] eqn:Hrange; [|done].
    simpl. destruct ((b >=? ib) && (e <=? ie)) eqn:Hin.
    + exists true. split; [done|]. split; [|done]. intros _.
      exists item. split; [apply elem_of_cons; by left|].
      split; [done|]. split; [done|]. exists ib, ie. split; [done|lia].
    + exists r. split; [done|]. apply Hskip.
      intros (_ & _ & ib' & ie' & Hr' & ?).
      rewrite Hrange in Hr'. injection Hr' as <- <-. lia.
Qed.

(** C6. When the visual ranges involved are there (no missing part),
    [isNestedInSelected] returns true iff some selected item is a
    TopLeft scope cell whose visual range holds the candidate's visual
    range; the range of a TopLeft cell is [scopeRange]: docstring (or
    body) begin to body end for a file scope, body begin to the end of
    the last suite item for try, for and while, body begin to the
    scope's own end otherwise. *)
Theorem isNestedInSelected_containment
    (selectedItems : list Item) (itemToSelect : Item) :
  Py.is_ok (__getItemVisualBeginEnd itemToSelect) = true ->
  (forall item, item ∈ selectedItems -> scopedItem item = true ->
                subKind item = ScopeCellElement.TOP_LEFT ->
                Py.is_ok (__getItemVisualBeginEnd item) = true) ->
  exists toSelectBegin toSelectEnd nested,
    __getItemVisualBeginEnd itemToSelect = Ok (toSelectBegin, toSelectEnd) /\
    isNestedInSelected selectedItems itemToSelect = Ok nested /\
    (nested = true <->
     exists item,
       item ∈ selectedItems /\
       scopedItem item = true /\
       subKind item = ScopeCellElement.TOP_LEFT /\
       exists itemBegin itemEnd,
         __getItemVisualBeginEnd item = Ok (itemBegin, itemEnd) /\
         scopeRange item = Some (itemBegin, itemEnd) /\
         itemBegin <= toSelectBegin /\ toSelectEnd <= itemEnd).
Proof.
  intros Hcand Hsel. unfold isNestedInSelected.
  destruct (__getItemVisualBeginEnd itemToSelect) as [[b e]|]; [|done].
  destruct (nestedLoop_spec selectedItems b e Hsel) as (r & Hr & Hiff).
  exists b, e, r. split; [done|]. split; [done|]. rewrite Hiff.
  split.
  - intros (item & Hin & Hs & Hk & ib & ie & Hrange & ?).
    exists item. repeat split; try done. exists ib, ie.
    split; [done|]. split; [|done]. by apply topLeft_range.
  - intros (item & Hin & Hs & Hk & ib & ie & Hrange & _ & ?).
    exists item. split; [done|]. split; [done|]. split; [done|].
    by exists ib, ie.
Qed.


(** *** Distances and the nearest item *)

(** Modelled from the spec: [distance] of items.py, which is not in src.
    The distance is 0 when the value is within the span; off the span it
    is the gap to the nearer end. *)
Definition distance (val first last : Z) : Z :=
  if (first <=? val) && (val <=? last) then 0
  else Z.min (Z.abs (val - first)) (Z.abs (val - last)).

(** [min( dist, distance( ... ) )] for a line of the file scope that is
    there. *)
Definition minOver (dist : Z) (val : Z) (line : option Span)
    (first last : Span -> Z) : Z :=
  match line with
  | Some l => Z.min dist (distance val (first l) (last l))
  | None => dist
  end.

(** [ScopeCellElement.getDistance] *)
Definition scopeGetDistance (self : Item) (absPos : Z) : result Z :=
  match subKind self with
  | ScopeCellElement.DOCSTRING =>
      d <- part (docstring (ref self)) ;;
      Ok (distance absPos (begin d) (end_ d))
  | ScopeCellElement.SIDE_COMMENT =>
      c <- part (sideComment (ref self)) ;;
      Ok (distance absPos (begin c) (end_ c))
  | ScopeCellElement.DECLARATION =>
      match kind self with
      | CellElement.FILE_SCOPE =>
          let dist := maxint in
          let dist := minOver dist absPos (encodingLine (ref self)) begin end_ in
          let dist := minOver dist absPos (bangLine (ref self)) begin end_ in
          Ok dist
      | _ =>
          b <- part (body (ref self)) ;;
          Ok (distance absPos (begin b) (end_ b))
      end
  | _ => Ok maxint
  end.

(** [ScopeCellElement.getLineDistance] *)
Definition scopeGetLineDistance (self : Item) (line : Z) : result Z :=
  match subKind self with
  | ScopeCellElement.DOCSTRING =>
      d <- part (docstring (ref self)) ;;
      Ok (distance line (beginLine d) (endLine d))
  | ScopeCellElement.SIDE_COMMENT =>
      c <- part (sideComment (ref self)) ;;
      Ok (distance line (beginLine c) (endLine c))
  | ScopeCellElement.DECLARATION =>
      match kind self with
      | CellElement.FILE_SCOPE =>
          let dist := maxint in
          let dist :=
            minOver dist line (encodingLine (ref self)) beginLine endLine in
          let dist :=
            minOver dist line (bangLine (ref self)) beginLine endLine in
          Ok dist
      | _ =>
          b <- part (body (ref self)) ;;
          Ok (distance line (beginLine b) (endLine b))
      end
  | _ => Ok maxint
  end.

(** [item.getDistance( absPos )] and [item.getLineDistance( line )] by
    the class of the item. *)
Definition getDistance (item : Item) (absPos : Z) : result Z :=
  if scopedItem item then scopeGetDistance item absPos
  else Ok (cellDistance item absPos).

Definition getLineDistance (item : Item) (line : Z) : result Z :=
  if scopedItem item then scopeGetLineDistance item line
  else Ok (cellLineDistance item line).

(** The first loop of [getNearestItem]. *)
Fixpoint lineLoop (items : list Item) (line : Z)
    (candidates : list Item) (distance : Z) : result (list Item * Z) :=
  match items with
  | [] => Ok (candidates, distance)
  | item :: rest =>
      if isProxyItem item then lineLoop rest line candidates distance
      else
        dist <- getLineDistance item line ;;
        if dist =? maxint then lineLoop rest line candidates distance
        else if dist <? distance then lineLoop rest line [item] dist
        else if dist =? distance
             then lineLoop rest line (candidates ++ [item]) distance
             else lineLoop rest line candidates distance
  end.

(** The loop over the candidates of line distance 0. *)
Fixpoint positionLoop (candidates : list Item) (absPos : Z)
    (candidate : option Item) (distance : Z) : result (option Item * Z) :=
  match candidates with
  | [] => logical <- __getLogicalItem candidate ;; Ok (logical, distance)
  | item :: rest =>
      dist <- getDistance item absPos ;;
      if dist =? 0 then
        logical <- __getLogicalItem (Some item) ;; Ok (logical, 0)
      else if dist <? distance then positionLoop rest absPos (Some item) dist
      else positionLoop rest absPos candidate distance
  end.

(** [CFSceneMouseMixin.getNearestItem] over [self.items()]. *)
Definition getNearestItem (items : list Item) (absPos line pos : Z)
  : result (option Item * Z) :=
  found <- lineLoop items line [] maxint ;;
  let '(candidates, distance) := found in
  match candidates with
  | [] => Ok (None, maxint)
  | [only] => logical <- __getLogicalItem (Some only) ;; Ok (logical, distance)
  | first :: _ =>
      if negb (distance =? 0) then
        logical <- __getLogicalItem (Some first) ;; Ok (logical, distance)
      else positionLoop candidates absPos None maxint
  end.


Section Nearest.

Variables (absPos line : Z).

(** The line distance, the position distance and the logical item of
    the items that are not proxies. *)
Variables (ld pd : Item -> Z) (lg : Item -> option Item).

Definition measured (items : list Item) : Prop :=
  forall item, item ∈ items -> isProxyItem item = false ->
    getLineDistance item line = Ok (ld item) /\
    getDistance item absPos = Ok (pd item) /\
    __getLogicalItem (Some item) = Ok (lg item) /\
    0 <= pd item /\
    (ld item = 0 -> pd item < maxint).

(** The items the first loop keeps for the line distance [d]. *)
Definition atLineDistance (d : Z) (item : Item) : bool :=
  negb (isProxyItem item) && (ld item =? d) && negb (ld item =? maxint).

Lemma lineLoop_spec (items : list Item) :
  (forall item, item ∈ items -> isProxyItem item = false ->
                getLineDistance item line = Ok (ld item)) ->
  forall (candidates : list Item) (distance : Z),
    distance <= maxint ->
    exists nearest,
      lineLoop items line candidates distance =
        Ok ((if nearest =? distance then candidates else []) ++
            List.filter (atLineDistance nearest) items, nearest) /\
      nearest <= distance /\
      (forall item, item ∈ items -> isProxyItem item = false ->
                    nearest <= ld item) /\
      (nearest < distance ->
       exists item, item ∈ items /\ isProxyItem item = false /\
                    ld item = nearest).
Proof.
  induction items as [|item rest IH]; intros Hld candidates distance Hmax.
  - exists distance. simpl. rewrite Z.eqb_refl, app_nil_r.
    split; [done|]. split; [lia|]. split; [|lia].
    intros item Hin. by apply elem_of_nil in Hin.
  - assert (Hrest : forall i, i ∈ rest -> isProxyItem i = false ->
                              getLineDistance i line = Ok (ld i)).
    { intros i Hi. apply Hld, elem_of_cons. by right. }
    specialize (IH Hrest).
    cbn [lineLoop List.filter]. unfold atLineDistance at 1.
    destruct (isProxyItem item) eqn:Hproxy.
    { destruct (IH candidates distance Hmax) as (n & -> & Hle & Hmin & Hex).
      exists n. simpl. split; [done|]. split; [done|]. split.
      - intros i Hi Hp. apply elem_of_cons in Hi as [->|Hi]; [congruence|eauto].
      - intros Hlt. destruct (Hex Hlt) as (i & Hi & ?).
        exists i. split; [apply elem_of_cons; by right|done]. }
    rewrite (Hld item ltac:(apply elem_of_cons; by left) Hproxy).
    cbn [Py.bind negb andb].
    destruct (ld item =? maxint) eqn:Emax.
    { destruct (IH candidates distance Hmax) as (n & -> & Hle & Hmin & Hex).
      exists n. rewrite andb_false_r. split; [done|]. split; [done|]. split.
      - intros i Hi Hp. apply elem_of_cons in Hi as [->|Hi]; [lia|eauto].
      - intros Hlt. destruct (Hex Hlt) as (i & Hi & ?).
        exists i. split; [apply elem_of_cons; by right|done]. }
    destruct (ld item <? distance) eqn:Elt.
    { destruct (IH [item] (ld item) ltac:(lia)) as (n & -> & Hle & Hmin & Hex).
      exists n. replace (n =? distance) with false by lia.
      cbn [negb]. rewrite andb_true_r.
      split; [|split; [lia|split]].
      - destruct (n =? ld item) eqn:E.
        + replace (ld item =? n) with true by lia. reflexivity.
        + replace (ld item =? n) with false by lia. reflexivity.
      - intros i Hi Hp. apply elem_of_cons in Hi as [->|Hi]; [lia|eauto].
      - intros _. destruct (Z.eq_dec n (ld item)) as [->|Hne].
        + exists item. split; [apply elem_of_cons; by left|done].
        + destruct (Hex ltac:(lia)) as (i & Hi & ?).
          exists i. split; [apply elem_of_cons; by right|done]. }
    destruct (ld item =? distance) eqn:Eeq.
    { destruct (IH (candidates ++ [item]) distance Hmax)
        as (n & -> & Hle & Hmin & Hex).
      exists n. cbn [negb]. rewrite andb_true_r.
      split; [|split; [lia|split]].
      - destruct (n =? distance) eqn:E.
        + replace (ld item =? n) with true by lia. by rewrite <- app_assoc.
        + replace (ld item =? n) with false by lia. reflexivity.
      - intros i Hi Hp. apply elem_of_cons in Hi as [->|Hi]; [lia|eauto].
      - intros Hlt. destruct (Hex Hlt) as (i & Hi & ?).
        exists i. split; [apply elem_of_cons; by right|done]. }
    destruct (IH candidates distance Hmax) as (n & -> & Hle & Hmin & Hex).
    exists n. cbn [negb]. rewrite andb_true_r.
    replace (ld item =? n) with false by lia.
    split; [done|]. split; [done|]. split.
    + intros i Hi Hp. apply elem_of_cons in Hi as [->|Hi]; [lia|eauto].
    + intros Hlt. destruct (Hex Hlt) as (i & Hi & ?).
      exists i. split; [apply elem_of_cons; by right|done].
Qed.

Lemma positionLoop_spec (candidates : list Item) :
  (forall c, c ∈ candidates ->
     getDistance c absPos = Ok (pd c) /\
     __getLogicalItem (Some c) = Ok (lg c) /\ 0 <= pd c) ->
  forall (candidate : option Item) (distance : Z),
    0 < distance ->
    (exists c, c ∈ candidates /\ pd c < distance /\
               (forall o, o ∈ candidates -> pd c <= pd o) /\
               positionLoop candidates absPos candidate distance
                 = Ok (lg c, pd c)) \/
    ((forall o, o ∈ candidates -> distance <= pd o) /\
     positionLoop candidates absPos candidate distance
       = (logical <- __getLogicalItem candidate ;; Ok (logical, distance))).
Proof.
  induction candidates as [|item rest IH]; intros Hm candidate distance Hpos.
  - right. split; [|done]. intros o Ho. by apply elem_of_nil in Ho.
  - destruct (Hm item ltac:(apply elem_of_cons; by left)) as (Hd & Hl & Hnn).
    assert (Hrest : forall c, c ∈ rest ->
              getDistance c absPos = Ok (pd c) /\
              __getLogicalItem (Some c) = Ok (lg c) /\ 0 <= pd c).
    { intros c Hc. apply Hm, elem_of_cons. by right. }
    specialize (IH Hrest).
    cbn [positionLoop]. rewrite Hd. cbn [Py.bind].
    destruct (pd item =? 0) eqn:E0.
    { left. exists item. rewrite Hl. cbn [Py.bind].
      split; [apply elem_of_cons; by left|]. split; [lia|].
      split; [|f_equal; f_equal; lia].
      intros o Ho. specialize (Hm o Ho). lia. }
    destruct (pd item <? distance) eqn:Elt.
    + left. destruct (IH (Some item) (pd item) ltac:(lia))
        as [(c & Hc & Hlt & Hmin & ->)|[Hall ->]].
      * exists c. split; [apply elem_of_cons; by right|].
        split; [lia|]. split; [|done].
        intros o Ho. apply elem_of_cons in Ho as [->|Ho]; [lia|eauto].
      * exists item. rewrite Hl. cbn [Py.bind].
        split; [apply elem_of_cons; by left|]. split; [lia|]. split; [|done].
        intros o Ho. apply elem_of_cons in Ho as [->|Ho]; [lia|eauto].
    + destruct (IH candidate distance Hpos)
        as [(c & Hc & Hlt & Hmin & ->)|[Hall ->]].
      * left. exists c. split; [apply elem_of_cons; by right|].
        split; [lia|]. split; [|done].
        intros o Ho. apply elem_of_cons in Ho as [->|Ho]; [lia|eauto].
      * right. split; [|done].
        intros o Ho. apply elem_of_cons in Ho as [->|Ho]; [lia|eauto].
Qed.

(** More than one item is at the line distance of [chosen]. *)
Definition several (items : list Item) (chosen : Item) : Prop :=
  (1 < List.length
         (List.filter
            (fun item => negb (isProxyItem item) && (ld item =? ld chosen)%Z)
            items))%nat.

Lemma getNearestItem_spec (items : list Item) (pos : Z) :
  measured items ->
  (exists item, item ∈ items /\ isProxyItem item = false /\
                ld item < maxint) ->
  exists chosen,
    chosen ∈ items /\ isProxyItem chosen = false /\
    (forall other, other ∈ items -> isProxyItem other = false ->
                   ld chosen <= ld other) /\
    (ld chosen = 0 /\ several items chosen ->
     (forall other, other ∈ items -> isProxyItem other = false ->
                    ld other = 0 -> pd chosen <= pd other) /\
     getNearestItem items absPos line pos = Ok (lg chosen, pd chosen)) /\
    (~ (ld chosen = 0 /\ several items chosen) ->
     getNearestItem items absPos line pos = Ok (lg chosen, ld chosen)).
Proof.
  intros Hm (near & Hnear & Hnp & Hfinite).
  destruct (lineLoop_spec items (fun i Hi Hp => proj1 (Hm i Hi Hp))
              [] maxint ltac:(lia)) as (m & Hloop & _ & Hmin & Hex).
  assert (Hlt : m < maxint) by (specialize (Hmin near Hnear Hnp); lia).
  destruct (Hex Hlt) as (w & Hw & Hwp & Hwm).
  assert (Hcands : forall c, c ∈ List.filter (atLineDistance m) items <->
                             c ∈ items /\ isProxyItem c = false /\ ld c = m).
  { intros c. rewrite list_elem_of_In, filter_In, <- list_elem_of_In.
    unfold atLineDistance. destruct (isProxyItem c); simpl;
      [split; [intros [_ [=]]|intros (_ & [=] & _)]|].
    split; [intros [? ?]|intros (? & _ & ?)]; (split; [done|]); [split; [done|lia]|lia]. }
  assert (Hsame : forall c, ld c = m ->
            List.filter (fun item => negb (isProxyItem item) && (ld item =? ld c))
              items = List.filter (atLineDistance m) items).
  { intros c Hc. apply filter_ext. intros a. unfold atLineDistance.
    rewrite Hc. destruct (ld a =? m) eqn:E; [|by rewrite !andb_false_r].
    replace (ld a =? maxint) with false by lia. by rewrite !andb_true_r. }
  unfold getNearestItem. rewrite Hloop. cbn [Py.bind].
  replace (m =? maxint) with false by lia. cbn [app].
  destruct (List.filter (atLineDistance m) items) as [|c1 tl] eqn:Hf.
  { assert (Hin : w ∈ []) by (apply Hcands; done). by apply elem_of_nil in Hin. }
  assert (Hc1 : c1 ∈ items /\ isProxyItem c1 = false /\ ld c1 = m).
  { apply Hcands, elem_of_cons. by left. }
  destruct Hc1 as (Hc1in & Hc1p & Hc1m).
  destruct (Hm c1 Hc1in Hc1p) as (_ & _ & Hc1l & _ & _).
  assert (Hfirst : (tl = [] \/ m <> 0) ->
    exists chosen,
      chosen ∈ items /\ isProxyItem chosen = false /\
      (forall other, other ∈ items -> isProxyItem other = false ->
                     ld chosen <= ld other) /\
      ~ (ld chosen = 0 /\ several items chosen) /\
      (logical <- __getLogicalItem (Some c1) ;; Ok (logical, m))
        = Ok (lg chosen, ld chosen)).
  { intros Hcase. exists c1. split; [done|]. split; [done|]. split.
    - intros o Ho Hop. rewrite Hc1m. by apply Hmin.
    - split; [|by rewrite Hc1l, Hc1m].
      intros [H0 Hsev]. unfold several in Hsev.
      rewrite (Hsame c1 Hc1m) in Hsev.
      destruct Hcase as [->|?]; [simpl in Hsev; lia|lia]. }
  destruct tl as [|c2 tl].
  { destruct Hfirst as (chosen & ? & ? & ? & Hnot & Hres); [by left|].
    exists chosen. split; [done|]. split; [done|]. split; [done|].
    split; [done|]. intros _. exact Hres. }
  destruct (m =? 0) eqn:E0; cbn [negb].
  2: { destruct Hfirst as (chosen & ? & ? & ? & Hnot & Hres); [right; lia|].
       exists chosen. split; [done|]. split; [done|]. split; [done|].
       split; [done|]. intros _. exact Hres. }
  assert (m = 0) as -> by lia.
  destruct (positionLoop_spec (c1 :: c2 :: tl)) with (candidate := @None Item)
    (distance := maxint) as [(c & Hc & Hclt & Hcmin & Hres)|[Hall _]].
  - intros c Hc. apply Hcands in Hc as (Hci & Hcp & _).
    destruct (Hm c Hci Hcp) as (_ & ? & ? & ? & _). done.
  - unfold maxint. lia.
  - apply Hcands in Hc as (Hci & Hcp & Hcm).
    exists c. split; [done|]. split; [done|]. split.
    { intros o Ho Hop. rewrite Hcm. by apply Hmin. }
    split.
    + intros _. split; [|exact Hres].
      intros o Ho Hop Ho0. apply Hcmin, Hcands. done.
    + intros Hnot. destruct Hnot. split; [done|]. unfold several.
      rewrite (Hsame c Hcm). simpl. lia.
  - specialize (Hall c1 ltac:(apply elem_of_cons; by left)).
    destruct (Hm c1 Hc1in Hc1p) as (_ & _ & _ & _ & Hfin).
    specialize (Hfin Hc1m). lia.
Qed.

End Nearest.



(** *** A [for] scope on line 3 with a side comment *)

Definition forFragment : Fragment :=
  {| own := mkSpan 40 90 3 4;
     body := Some (mkSpan 40 60 3 3);
     docstring := None;
     sideComment := Some (mkSpan 62 70 3 3);
     leadingComment := None;
     message := None; test := None; value := None;
     encodingLine := None; bangLine := None;
     suite := [mkSpan 80 88 4 4] |}.

Definition forCell (sub : ScopeCellElement.SubKind) (topLeft : option Item)
  : Item :=
  {| isProxyItem := false; getProxiedItem := None; scopedItem := true;
     kind := CellElement.FOR_SCOPE; subKind := sub; ref := forFragment;
     topLeftCell := topLeft;
     cellLineDistance := fun _ => 0; cellDistance := fun _ => 0 |}.

Definition forTopLeft : Item := forCell ScopeCellElement.TOP_LEFT None.
Definition forDeclaration : Item :=
  forCell ScopeCellElement.DECLARATION (Some forTopLeft).
Definition forSideComment : Item :=
  forCell ScopeCellElement.SIDE_COMMENT None.

Definition forScene : list Item :=
  [forTopLeft; forDeclaration; forSideComment].

Lemma isNestedInSelected_containment_witness :
  exists toSelectBegin toSelectEnd nested,
    __getItemVisualBeginEnd forSideComment = Ok (toSelectBegin, toSelectEnd) /\
    isNestedInSelected [forTopLeft] forSideComment = Ok nested /\
    (nested = true <->
     exists item,
       item ∈ [forTopLeft] /\
       scopedItem item = true /\
       subKind item = ScopeCellElement.TOP_LEFT /\
       exists itemBegin itemEnd,
         __getItemVisualBeginEnd item = Ok (itemBegin, itemEnd) /\
         scopeRange item = Some (itemBegin, itemEnd) /\
         itemBegin <= toSelectBegin /\ toSelectEnd <= itemEnd).
Proof.
  apply (isNestedInSelected_containment [forTopLeft] forSideComment).
  - reflexivity.
  - intros item Hin _ _. apply list_elem_of_singleton in Hin as ->.
    reflexivity.
Defined.

(** The side comment (62 to 70) is within the scope (40 to 88, the end
    of the last suite item, not 90). *)
Example forSideComment_nested :
  isNestedInSelected [forTopLeft] forSideComment = Ok true /\
  __getItemVisualBeginEnd forTopLeft = Ok (40, 88).
Proof. split; reflexivity. Qed.

Definition lineDistanceOf (line : Z) (item : Item) : Z :=
  match getLineDistance item line with Ok d => d | Raise _ => maxint end.
Definition distanceOf (absPos : Z) (item : Item) : Z :=
  match getDistance item absPos with Ok d => d | Raise _ => maxint end.
Definition logicalOf (item : Item) : option Item :=
  match __getLogicalItem (Some item) with Ok l => l | Raise _ => None end.

Lemma forScene_measured :
  measured 65 3 (lineDistanceOf 3) (distanceOf 65) logicalOf forScene.
Proof.
  intros item Hin _.
  apply elem_of_cons in Hin as [->|Hin];
    [|apply elem_of_cons in Hin as [->|Hin];
      [|apply list_elem_of_singleton in Hin as ->]];
    (split; [reflexivity|]); (split; [reflexivity|]); (split; [reflexivity|]);
    (split; [by vm_compute|]); by vm_compute.
Qed.


(** On line 3 the declaration and the side comment are both at line
    distance 0; position 65 is within the side comment only. *)
Example forScene_side_comment :
  getNearestItem forScene 65 3 1 = Ok (Some forSideComment, 0).
Proof. reflexivity. Qed.



End FlowUI.

(** ** bufferutils.py: what the walk and the resolver keep *)

Module Resolver.

Import BufferUtils.

(** The frames pushed from [o] on top of [above] form a chain of the
    outline: each frame is a class or a function of the object of the
    frame before it (of [o] for the first one); a class frame has kind
    [ClassScope], a function frame the kind [addFunction] gives it on the
    frames above it. *)
Inductive Chain : infoNode -> list (InfoObj * ScopeType) ->
                  list (InfoObj * ScopeType) -> Prop :=
| Chain_nil o above : Chain o above []
| Chain_class o above c rest :
    c ∈ classes_of o ->
    Chain (OfDef c) (above ++ [(c, ClassScope)]) rest ->
    Chain o above ((c, ClassScope) :: rest)
| Chain_function o above f rest :
    f ∈ functions_of o ->
    Chain (OfDef f) (above ++ [(f, functionScopeOn above)]) rest ->
    Chain o above ((f, functionScopeOn above) :: rest).

Lemma consistent_push (context : TextCursorContext) (frame : InfoObj * ScopeType) :
  consistent context ->
  consistent {| levels := levels context ++ [frame];
                length := length context + 1 |}.
Proof.
  unfold consistent. simpl. intros ->. rewrite length_app. simpl. lia.
Qed.

Lemma walk_chain cursorLine cursorPos skipDef (n : nat) :
  forall o, (sizeObject o < n)%nat ->
  forall context, consistent context ->
  exists pushed,
    _IdentifyScope o context cursorLine cursorPos skipDef =
      Ok {| levels := levels context ++ pushed;
            length := length context + Z.of_nat (List.length pushed) |} /\
    Chain o (levels context) pushed.
Proof.
  induction n as [|n IH]; intros o Hsize context Hcons; [lia|].
  pose proof (levelStep_holds o context cursorLine cursorPos skipDef) as Hs.
  inversion Hs as [c Hc Heq|f Hoff Hf Heq|_ _ Heq|c _ Hc Heq|f _ Hf Heq].
  - apply firstOn_elem in Hc as [Hin _]. destruct skipDef.
    + exists []. split; [|constructor]. simpl.
      rewrite app_nil_r, Z.add_0_r. by destruct context.
    + exists [(c, ClassScope)]. split; [done|]. by repeat constructor.
  - apply firstOn_elem in Hf as [Hin _]. destruct skipDef.
    + exists []. split; [|constructor]. simpl.
      rewrite app_nil_r, Z.add_0_r. by destruct context.
    + exists [(f, functionScopeOn (levels context))].
      split; [by rewrite addFunction_consistent|]. by repeat constructor.
  - exists []. split; [|constructor]. simpl.
    rewrite app_nil_r, Z.add_0_r. by destruct context.
  - destruct Hc as (Hin & _).
    destruct (IH (OfDef c) ltac:(apply sizeInfo_class in Hin; simpl; lia)
                (addClass context c) (consistent_addClass _ _ Hcons))
      as (pushed & -> & Hchain).
    exists ((c, ClassScope) :: pushed). split.
    + simpl. rewrite <- app_assoc. simpl. do 2 f_equal. lia.
    + by constructor.
  - destruct Hf as (Hin & _).
    rewrite (addFunction_consistent _ _ Hcons). cbn [Py.bind].
    destruct (IH (OfDef f) ltac:(apply sizeInfo_function in Hin; simpl; lia)
                {| levels := levels context ++ [(f, functionScopeOn (levels context))];
                   length := length context + 1 |}
                (consistent_push _ _ Hcons))
      as (pushed & -> & Hchain).
    exists ((f, functionScopeOn (levels context)) :: pushed). split.
    + simpl. rewrite <- app_assoc. simpl. do 2 f_equal. lia.
    + by constructor.
Qed.

(** X1. On a context whose [length] is the number of its [levels],
    [_IdentifyScope] does not raise, whatever the outline and the cursor:
    it returns a context that keeps the frames it was given, in place, adds
    frames after them only, and has [length] equal to the number of
    [levels] again. *)
Theorem IdentifyScope_appends o context cursorLine cursorPos skipDef :
  consistent context ->
  exists context' pushed,
    _IdentifyScope o context cursorLine cursorPos skipDef = Ok context' /\
    levels context' = levels context ++ pushed /\
    length context' = length context + Z.of_nat (List.length pushed) /\
    consistent context'.
Proof.
  intros Hcons.
  destruct (walk_chain cursorLine cursorPos skipDef (S (sizeObject o)) o
              ltac:(lia) context Hcons) as (pushed & Hwalk & _).
  eexists _, pushed. split; [exact Hwalk|]. simpl. split; [done|]. split; [done|].
  unfold consistent in *. simpl. rewrite length_app. lia.
Qed.

Lemma IdentifyScope_appends_witness :
  exists context' pushed,
    _IdentifyScope (OfModule example_info) newContext 3 12 true = Ok context' /\
    levels context' = levels newContext ++ pushed /\
    length context' = length newContext + Z.of_nat (List.length pushed) /\
    consistent context'.
Proof.
  apply (IdentifyScope_appends (OfModule example_info) newContext 3 12 true).
  reflexivity.
Defined.

(** X2. The stack the walk builds from the empty context is a chain of
    the outline: its first frame is a top level class or function of the
    module, every other frame a class or function of the object of the
    frame just above it; a class frame has kind Class, and a function
    frame has kind ClassMethod exactly when the frame just above it is a
    Class frame, Function otherwise. *)
Theorem IdentifyScope_stack_is_nested
    (info : BriefModuleInfo) cursorLine cursorPos skipDef :
  exists context,
    _IdentifyScope (OfModule info) newContext cursorLine cursorPos skipDef
      = Ok context /\
    Chain (OfModule info) [] (levels context).
Proof.
  destruct (walk_chain cursorLine cursorPos skipDef
              (S (sizeObject (OfModule info))) (OfModule info)
              ltac:(lia) newContext consistent_newContext)
    as (pushed & Hwalk & Hchain).
  eexists. split; [exact Hwalk|]. exact Hchain.
Qed.

Lemma index_push (context : TextCursorContext) (x : InfoObj * ScopeType) :
  consistent context ->
  Py.index (levels context ++ [x]) (length context + 1 - 1) = Ok x.
Proof.
  intros Hcons. unfold consistent in Hcons. rewrite Hcons.
  replace (Z.of_nat (List.length (levels context)) + 1 - 1)
    with (Z.of_nat (List.length (levels context ++ [x])) - 1)
    by (rewrite length_app; simpl; lia).
  apply index_last.
Qed.

Lemma strip_push (context : TextCursorContext) (frame : InfoObj * ScopeType) (n : Z) :
  consistent context ->
  4 * length context <= n < 4 * length context + 4 ->
  stripLevels {| levels := levels context ++ [frame];
                 length := length context + 1 |} n = context.
Proof.
  intros Hcons Hn. unfold stripLevels. cbn [levels length].
  assert (Hdiv : n / 4 = length context).
  { symmetry. apply (Z.div_unique n 4 (length context) (n - 4 * length context)); lia. }
  rewrite Hdiv. destruct (length context <? length context + 1) eqn:E; [|lia].
  unfold Py.slice_to. unfold consistent in Hcons.
  destruct (length context <? 0) eqn:E0; [lia|].
  rewrite Hcons, Nat2Z.id, take_app_length. rewrite <- Hcons. by destruct context.
Qed.

(** X3. Reading after pushing. On a context whose [length] is the number
    of its [levels], after [addClass] or [addFunction] the deepest scope,
    info object and scope line are those of the object pushed: a class is
    pushed as Class, a function as ClassMethod on a Class frame and as
    Function otherwise, and [addFunction] does not raise. Stripping at a
    column of the former depth ([4 * length] to [4 * length + 3]) takes
    the pushed frame off again and gives the context back. *)
Theorem push_then_read_or_strip (context : TextCursorContext) (obj : InfoObj) (n : Z) :
  consistent context ->
  4 * length context <= n < 4 * length context + 4 ->
  (getScope (addClass context obj) = Ok ClassScope /\
   getInfoObj (addClass context obj) = Ok (Some obj) /\
   getLastScopeLine (addClass context obj) = Ok (colonLine obj) /\
   stripLevels (addClass context obj) n = context) /\
  exists pushed,
    addFunction context obj = Ok pushed /\
    getScope pushed =
      Ok (match getScope context with
          | Ok ClassScope => ClassMethodScope
          | _ => FunctionScope
          end) /\
    getInfoObj pushed = Ok (Some obj) /\
    getLastScopeLine pushed = Ok (colonLine obj) /\
    stripLevels pushed n = context.
Proof.
  intros Hcons Hn.
  assert (Hlen : 0 <= length context) by (unfold consistent in Hcons; lia).
  assert (Hne : (length context + 1 =? 0) = false) by lia.
  split.
  - unfold getScope, getInfoObj, getLastScopeLine, addClass. cbn [levels length].
    rewrite Hne, !index_push by done. cbn [Py.bind fst snd].
    repeat split. by apply strip_push.
  - rewrite (addFunction_consistent _ _ Hcons). eexists. split; [done|].
    unfold getScope at 1, getInfoObj, getLastScopeLine. cbn [levels length].
    rewrite Hne, !index_push by done. cbn [Py.bind fst snd].
    split; [|repeat split; by apply strip_push].
    f_equal. unfold functionScopeOn, getScope.
    destruct (length context =? 0) eqn:E0.
    + assert (levels context = []) as ->; [|done].
      unfold consistent in Hcons.
      destruct (levels context); [done|simpl in Hcons; lia].
    + destruct (index_consistent_last context Hcons ltac:(lia))
        as (pre & [d k] & Hl & ->).
      rewrite Hl, last_snoc. simpl. by destruct k.
Qed.

Lemma push_then_read_or_strip_witness :
  (getScope (addClass newContext example_A) = Ok ClassScope /\
   getInfoObj (addClass newContext example_A) = Ok (Some example_A) /\
   getLastScopeLine (addClass newContext example_A) = Ok (colonLine example_A) /\
   stripLevels (addClass newContext example_A) 3 = newContext) /\
  exists pushed,
    addFunction newContext example_A = Ok pushed /\
    getScope pushed =
      Ok (match getScope newContext with
          | Ok ClassScope => ClassMethodScope
          | _ => FunctionScope
          end) /\
    getInfoObj pushed = Ok (Some example_A) /\
    getLastScopeLine pushed = Ok (colonLine example_A) /\
    stripLevels pushed 3 = newContext.
Proof.
  apply (push_then_read_or_strip newContext example_A 3).
  - reflexivity.
  - simpl. lia.
Defined.

(** *** The first character that is not a blank *)

(** The characters [_getFirstNonSpacePos] passes over. *)
Definition blankChar (c : ascii) : bool :=
  let n := nat_of_ascii c in
  (n =? 32)%nat || (n =? 10)%nat || (n =? 13)%nat.

Lemma firstNonSpaceFrom_spec (l : list ascii) : forall pos,
  0 <= pos ->
  (Forall (fun c => blankChar c = true) l /\ firstNonSpaceFrom l pos = -1) \/
  (exists n c, l !! n = Some c /\ blankChar c = false /\
               Forall (fun c => blankChar c = true) (take n l) /\
               firstNonSpaceFrom l pos = pos + Z.of_nat n).
Proof.
  induction l as [|c l IH]; intros pos Hpos.
  - left. by split.
  - cbn [firstNonSpaceFrom]. fold (blankChar c).
    destruct (blankChar c) eqn:Hc.
    + destruct (IH (pos + 1) ltac:(lia)) as [[Hall Hr]|(n & c' & Hn & Hc' & Hpre & Hr)].
      * left. split; [by constructor|done].
      * right. exists (S n), c'. repeat split; [done|done| |lia].
        simpl. by constructor.
    + right. exists 0%nat, c. repeat split; [done|constructor|lia].
Qed.

Lemma blankChar_isspace (c : ascii) : blankChar c = true -> Py.isspace c = true.
Proof.
  unfold blankChar, Py.isspace. cbv zeta.
  generalize (nat_of_ascii c). intros n. lia.
Qed.

Lemma lstrip_chars_blank (l : list ascii) :
  Forall (fun c => blankChar c = true) l -> Py.lstrip_chars l = [].
Proof.
  induction 1 as [|c l Hc _ IH]; [done|].
  simpl. by rewrite (blankChar_isspace c Hc).
Qed.

Lemma strip_blank (text : string) :
  Forall (fun c => blankChar c = true) (Py.chars text) ->
  Py.isempty (Py.strip text) = true.
Proof.
  intros Hall. unfold Py.strip, Py.rstrip, Py.lstrip.
  rewrite (lstrip_chars_blank (rev (Py.chars text))).
  - reflexivity.
  - apply Forall_forall. intros c Hc. apply list_elem_of_In, in_rev in Hc.
    apply list_elem_of_In in Hc. by apply (proj1 (Forall_forall _ _) Hall).
Qed.

Lemma firstNonSpace_of_stripped (text : string) :
  Py.isempty (Py.strip text) = false -> 0 <= _getFirstNonSpacePos text.
Proof.
  intros Hs. unfold _getFirstNonSpacePos.
  destruct (firstNonSpaceFrom_spec (Py.chars text) 0 ltac:(lia))
    as [[Hall Hr]|(n & c & Hn & Hc & Hpre & Hr)]; [|lia].
  by rewrite (strip_blank _ Hall) in Hs.
Qed.

Lemma firstNonSpace_bound (text : string) : -1 <= _getFirstNonSpacePos text.
Proof.
  unfold _getFirstNonSpacePos.
  destruct (firstNonSpaceFrom_spec (Py.chars text) 0 ltac:(lia))
    as [[Hall Hr]|(n & c & Hn & Hc & Hpre & Hr)]; lia.
Qed.

(** X4. [_getFirstNonSpacePos] gives -1 exactly when every character of
    the text is a space, a line feed or a carriage return; otherwise it
    gives the index of a character that is none of the three, with only
    such characters before it, so the index is within the text. A text
    that [strip] does not empty never gives -1. *)
Theorem getFirstNonSpacePos_first (text : string) :
  let found := _getFirstNonSpacePos text in
  (found = -1 <-> Forall (fun c => blankChar c = true) (Py.chars text)) /\
  (found <> -1 ->
   exists n c, found = Z.of_nat n /\ Py.chars text !! n = Some c /\
               blankChar c = false /\
               Forall (fun c => blankChar c = true) (take n (Py.chars text))) /\
  (Py.isempty (Py.strip text) = false -> 0 <= found).
Proof.
  unfold _getFirstNonSpacePos.
  destruct (firstNonSpaceFrom_spec (Py.chars text) 0 ltac:(lia))
    as [[Hall Hr]|(n & c & Hn & Hc & Hpre & Hr)].
  - repeat split; [done|done| |].
    + intros Hne. by destruct Hne.
    + intros Hs. by rewrite (strip_blank _ Hall) in Hs.
  - repeat split.
    + intros Hm. lia.
    + intros Hall. apply list_elem_of_lookup_2 in Hn.
      rewrite (proj1 (Forall_forall _ _) Hall c Hn) in Hc. discriminate.
    + intros _. exists n, c. repeat split; [lia|done..].
    + intros _. lia.
Qed.

(** *** [getContext] as a whole *)

Lemma walk_consistent o context cursorLine cursorPos skipDef :
  consistent context ->
  exists walked,
    _IdentifyScope o context cursorLine cursorPos skipDef = Ok walked /\
    consistent walked /\ levels context `prefix_of` levels walked.
Proof.
  intros Hcons.
  destruct (walk_chain cursorLine cursorPos skipDef (S (sizeObject o)) o
              ltac:(lia) context Hcons) as (pushed & Hwalk & _).
  eexists. split; [exact Hwalk|]. split.
  - unfold consistent in *; simpl. rewrite length_app. lia.
  - simpl. by apply prefix_app_r.
Qed.

Lemma stripLevels_prefix self n :
  levels (stripLevels self n) `prefix_of` levels self.
Proof.
  unfold stripLevels. destruct (n / 4 <? length self); [|done].
  simpl. unfold Py.slice_to. apply prefix_take.
Qed.

(** What the line scan keeps: the stack only shrinks, [length] stays the
    number of frames, and a continuation line has always been preceded
    by a line that set [nonSpacePos]. *)
Lemma scanLines_keeps editor line : forall range context continueLine nonSpacePos,
  consistent context ->
  (continueLine = true -> exists k, nonSpacePos = Some k /\ 0 <= k) ->
  match scanLines editor line range context continueLine nonSpacePos with
  | ScanReturn context' =>
      levels context' `prefix_of` levels context /\ consistent context'
  | ScanDone context' continueLine' nonSpacePos' =>
      levels context' `prefix_of` levels context /\ consistent context' /\
      (continueLine' = true -> exists k, nonSpacePos' = Some k /\ 0 <= k)
  end.
Proof.
  induction range as [|currentLine rest IH];
    intros context continueLine nonSpacePos Hcons Hinv.
  - simpl. done.
  - cbn [scanLines]. destruct (currentLine =? line); [done|].
    destruct continueLine; cbn [negb].
    + apply IH; [done|]. intros _. by apply Hinv.
    + destruct (Py.isempty (Py.strip (text editor currentLine))) eqn:Hempty;
        cbn [orb].
      { apply IH; [done|]. intros [=]. }
      destruct (Py.startswith (Py.strip (text editor currentLine)) "#").
      { apply IH; [done|]. intros [=]. }
      pose proof (firstNonSpace_of_stripped (text editor currentLine) Hempty)
        as Hfound.
      pose proof (stripLevels_prefix context
                    (_getFirstNonSpacePos (text editor currentLine))) as Hpre.
      pose proof (consistent_stripLevels context _ Hcons Hfound) as Hcons'.
      destruct (length (stripLevels context _) =? 0); [done|].
      match goal with
      | |- context [scanLines editor line rest ?c ?b ?n] =>
          specialize (IH c b n Hcons' ltac:(eauto))
      end.
      destruct (scanLines _ _ _ _ _ _) as [c'|c' b' n'].
      * destruct IH as [? ?]. split; [by etrans|done].
      * destruct IH as (? & ? & ?). split; [by etrans|done].
Qed.

Lemma skipBlankLines_pos editor : forall count line pos,
  0 <= pos -> 0 <= (skipBlankLines count editor line pos).2.
Proof.
  induction count as [|count IH]; intros line pos Hpos; simpl; [done|].
  destruct (line >=? 0); [|done].
  destruct (Py.isempty _); simpl; [by apply IH|].
  unfold Py.len. lia.
Qed.

Lemma startPosition_pos editor skipBlankLinesBack :
  0 <= (getCursorPosition editor).2 ->
  0 <= (startPosition editor skipBlankLinesBack).2.
Proof.
  unfold startPosition. destruct (getCursorPosition editor) as [line pos].
  simpl. intros Hpos. destruct skipBlankLinesBack; [|done].
  pose proof (skipBlankLines_pos editor (Z.to_nat (line + 1)) line pos Hpos).
  destruct (skipBlankLines _ _ _ _) as [l p]. simpl in *.
  destruct (l <? 0); simpl; lia.
Qed.

Section Whole.

Variable getBriefModuleInfoFromMemory : string -> BriefModuleInfo.

(** X5. With a cursor index that is not negative, [getContext] always
    returns a context: neither the lookup of the last scope line nor the
    use of [nonSpacePos] after the loop raises. The stack returned is a
    prefix of the stack the scope walk builds at the start position - the
    indentation pass only takes frames off the end - and its [length] is
    the number of its frames. *)
Theorem getContext_returns_prefix_of_walk
    (editor : Editor) (info : option BriefModuleInfo)
    (skipBlankLinesBack skipDef : bool) :
  0 <= (getCursorPosition editor).2 ->
  exists walked context,
    _IdentifyScope
      (OfModule (outlineOf getBriefModuleInfoFromMemory editor info))
      newContext
      ((startPosition editor skipBlankLinesBack).1 + 1)
      (startPosition editor skipBlankLinesBack).2 skipDef = Ok walked /\
    getContext getBriefModuleInfoFromMemory editor info
      skipBlankLinesBack skipDef = Ok context /\
    levels context `prefix_of` levels walked /\
    consistent context.
Proof.
  intros Hcursor.
  pose proof (startPosition_pos editor skipBlankLinesBack Hcursor) as Hpos.
  destruct (walk_consistent
              (OfModule (outlineOf getBriefModuleInfoFromMemory editor info))
              newContext ((startPosition editor skipBlankLinesBack).1 + 1)
              (startPosition editor skipBlankLinesBack).2 skipDef
              consistent_newContext) as (walked & Hwalk & Hcons & _).
  exists walked. unfold getContext.
  destruct (negb (isPythonLexer (lexer editor))).
  { exists newContext. repeat split; [done|by apply prefix_nil]. }
  fold (outlineOf getBriefModuleInfoFromMemory editor info).
  destruct (startPosition editor skipBlankLinesBack) as [line pos] eqn:Hstart.
  cbn [fst snd] in *. rewrite Hwalk. cbn [Py.bind].
  destruct (negb skipDef && _); [by exists walked|].
  destruct (length walked =? 0) eqn:E0; [by exists walked|].
  unfold getLastScopeLine. rewrite E0.
  destruct (index_consistent_last walked Hcons ltac:(lia))
    as (pre & [d k] & _ & ->).
  cbn [Py.bind fst].
  pose proof (scanLines_keeps editor line
                (Py.xrange (colonLine d) (lines editor)) walked false None
                Hcons ltac:(intros [=])) as Hscan.
  destruct (scanLines _ _ _ _ _ _) as [c|c continueLine nonSpacePos].
  { destruct Hscan. by exists c. }
  destruct Hscan as (Hpre & Hc & Hinv).
  destruct continueLine.
  - destruct (Hinv eq_refl) as (n & -> & Hn).
    eexists. repeat split.
    + etrans; [apply stripLevels_prefix|done].
    + by apply consistent_stripLevels.
  - destruct (_getFirstNonSpacePos (text editor line) =? -1) eqn:E1.
    + eexists. repeat split.
      * etrans; [apply stripLevels_prefix|done].
      * by apply consistent_stripLevels.
    + pose proof (firstNonSpace_bound (text editor line)) as Hn.
      eexists. repeat split.
      * etrans; [apply stripLevels_prefix|done].
      * apply consistent_stripLevels; [done|lia].
Qed.

End Whole.

Lemma getContext_returns_prefix_of_walk_witness :
  exists walked context,
    _IdentifyScope
      (OfModule (outlineOf (fun _ => example_info)
                   (example_editor (2, 12)) (Some example_info)))
      newContext
      ((startPosition (example_editor (2, 12)) false).1 + 1)
      (startPosition (example_editor (2, 12)) false).2 true = Ok walked /\
    getContext (fun _ => example_info) (example_editor (2, 12))
      (Some example_info) false true = Ok context /\
    levels context `prefix_of` levels walked /\
    consistent context.
Proof.
  apply (getContext_returns_prefix_of_walk (fun _ => example_info)
           (example_editor (2, 12)) (Some example_info) false true).
  simpl. lia.
Defined.

(** *** [_getDefinitionObject] *)

(** [Within o d]: [d] is a class or a function defined in [o], at any
    depth. *)
Inductive Within : infoNode -> InfoObj -> Prop :=
| Within_child o d :
    d ∈ classes_of o ++ functions_of o -> Within o d
| Within_deeper o c d :
    c ∈ classes_of o ++ functions_of o -> Within (OfDef c) d -> Within o d.

(** The body both the module call and the nested calls run. *)
Definition definitionIn (o : infoNode) (line pos : Z) : option InfoObj :=
  match firstDefinition (fun cls => _getDefinitionObjectIn cls line pos)
          line pos (classes_of o) with
  | Some found => Some found
  | None =>
      firstDefinition (fun func => _getDefinitionObjectIn func line pos)
        line pos (functions_of o)
  end.

Lemma getDefinitionObjectIn_eq d line pos :
  _getDefinitionObjectIn d line pos = definitionIn (OfDef d) line pos.
Proof. by destruct d. Qed.

Lemma firstDefinition_Some nested line pos l found :
  firstDefinition nested line pos l = Some found ->
  exists x, x ∈ l /\
    ((x = found /\ _isOnDefinitionLine x line pos = true) \/
     nested x = Some found).
Proof.
  induction l as [|x l IH]; simpl; [done|].
  destruct (_isOnDefinitionLine x line pos) eqn:Hon.
  - intros [= <-]. exists x. split; [apply elem_of_cons; by left|by left].
  - destruct (nested x) as [y|] eqn:Hn.
    + intros [= <-]. exists x. split; [apply elem_of_cons; by left|by right].
    + intros (y & Hin & Hy)%IH. exists y.
      split; [apply elem_of_cons; by right|done].
Qed.

Lemma firstDefinition_None nested line pos l :
  firstDefinition nested line pos l = None ->
  forall x, x ∈ l ->
    _isOnDefinitionLine x line pos = false /\ nested x = None.
Proof.
  induction l as [|x l IH]; simpl; intros H y Hy.
  - by apply elem_of_nil in Hy.
  - destruct (_isOnDefinitionLine x line pos) eqn:Hon; [done|].
    destruct (nested x) eqn:Hn; [done|].
    apply elem_of_cons in Hy as [->|Hy]; [done|by apply IH].
Qed.

Lemma definitionIn_Some line pos (n : nat) : forall o,
  (sizeObject o < n)%nat ->
  forall found, definitionIn o line pos = Some found ->
    Within o found /\ _isOnDefinitionLine found line pos = true.
Proof.
  induction n as [|n IH]; intros o Hsize found; [lia|].
  unfold definitionIn.
  destruct (firstDefinition _ line pos (classes_of o)) as [y|] eqn:Hc.
  - intros [= ->].
    apply firstDefinition_Some in Hc as (x & Hin & [[-> Hon]|Hnested]).
    + split; [|done]. apply Within_child, elem_of_app. by left.
    + rewrite getDefinitionObjectIn_eq in Hnested.
      pose proof (sizeInfo_class o x Hin).
      apply IH in Hnested as [Hw Hon]; [|simpl; lia].
      split; [|done]. apply (Within_deeper o x); [|done].
      apply elem_of_app. by left.
  - intros Hf.
    apply firstDefinition_Some in Hf as (x & Hin & [[-> Hon]|Hnested]).
    + split; [|done]. apply Within_child, elem_of_app. by right.
    + rewrite getDefinitionObjectIn_eq in Hnested.
      pose proof (sizeInfo_function o x Hin).
      apply IH in Hnested as [Hw Hon]; [|simpl; lia].
      split; [|done]. apply (Within_deeper o x); [|done].
      apply elem_of_app. by right.
Qed.

Lemma definitionIn_None line pos o d :
  Within o d -> definitionIn o line pos = None ->
  _isOnDefinitionLine d line pos = false.
Proof.
  induction 1 as [o d Hin|o c d Hin _ IH]; unfold definitionIn;
    destruct (firstDefinition _ line pos (classes_of o)) eqn:Hc; try done;
    intros Hf; apply elem_of_app in Hin as [Hin|Hin].
  - by apply (firstDefinition_None _ _ _ _ Hc d Hin).
  - by apply (firstDefinition_None _ _ _ _ Hf d Hin).
  - apply IH. rewrite <- getDefinitionObjectIn_eq.
    by apply (firstDefinition_None _ _ _ _ Hc c Hin).
  - apply IH. rewrite <- getDefinitionObjectIn_eq.
    by apply (firstDefinition_None _ _ _ _ Hf c Hin).
Qed.

Lemma getDefinitionObject_found info line pos d :
  Within (OfModule info) d -> _isOnDefinitionLine d line pos = true ->
  is_Some (_getDefinitionObject info line pos).
Proof.
  intros Hw Hon.
  change (_getDefinitionObject info line pos)
    with (definitionIn (OfModule info) line pos).
  destruct (definitionIn (OfModule info) line pos) eqn:Hd; [done|].
  rewrite (definitionIn_None line pos _ d Hw Hd) in Hon. discriminate.
Qed.

(** X6. [_getDefinitionObject] searches the whole outline: the object it
    returns is a class or function of the module, at some depth, with the
    position on its definition line; and it returns None only when the
    position is on the definition line of no class or function at any
    depth. *)
Theorem getDefinitionObject_searches_outline
    (info : BriefModuleInfo) (line pos : Z) :
  match _getDefinitionObject info line pos with
  | Some found =>
      Within (OfModule info) found /\
      _isOnDefinitionLine found line pos = true
  | None =>
      forall d, Within (OfModule info) d ->
                _isOnDefinitionLine d line pos = false
  end.
Proof.
  change (_getDefinitionObject info line pos)
    with (definitionIn (OfModule info) line pos).
  destruct (definitionIn (OfModule info) line pos) as [found|] eqn:Hd.
  - apply (definitionIn_Some line pos (S (sizeObject (OfModule info))));
      [lia|done].
  - intros d Hw. by apply (definitionIn_None line pos (OfModule info)).
Qed.

(** *** Skipping blank lines back *)

Definition blankLine (editor : Editor) (line : Z) : Prop :=
  Py.isempty (Py.strip (text editor line)) = true.

Lemma rstrip_nonempty (s : string) :
  Py.isempty (Py.strip s) = false -> 0 < Py.len (Py.rstrip s).
Proof.
  unfold Py.strip, Py.lstrip, Py.len.
  destruct (Py.rstrip s); [done|]. simpl. lia.
Qed.

Lemma skipBlankLines_spec editor : forall count line pos,
  -1 <= line -> count = Z.to_nat (line + 1) ->
  let found := skipBlankLines count editor line pos in
  (0 <= found.1 <= line /\
   ~ blankLine editor found.1 /\
   found.2 = Py.len (Py.rstrip (text editor found.1)) /\
   (forall i, found.1 < i <= line -> blankLine editor i)) \/
  (found.1 = -1 /\ forall i, 0 <= i <= line -> blankLine editor i).
Proof.
  induction count as [|count IH]; intros line pos Hline Hcount; simpl.
  - right. split; [lia|]. intros i Hi. lia.
  - destruct (line >=? 0) eqn:E; [|lia].
    destruct (Py.isempty (Py.strip (text editor line))) eqn:Hempty; simpl.
    + destruct (IH (line - 1) pos ltac:(lia) ltac:(lia))
        as [(Hrange & Hnb & Hpos & Hblank)|[Hnone Hblank]].
      * left. repeat split; [lia|lia|done|done|].
        intros i Hi. destruct (decide (i = line)) as [->|]; [done|].
        apply Hblank. lia.
      * right. split; [done|].
        intros i Hi. destruct (decide (i = line)) as [->|]; [done|].
        apply Hblank. lia.
    + left. repeat split; [lia|lia| |intros i Hi; lia].
      unfold blankLine. by rewrite Hempty.
Qed.

(** X7. With [skipBlankLinesBack] and a cursor on line [line >= 0], the
    position [getContext] works from is either the end of the nearest
    line at or above the cursor that [strip] does not empty - its column
    is the length of that line without its trailing blanks, which is
    positive, and every line between it and the cursor is blank - or
    (0, 0) when every line from the first to the cursor is blank. The
    cursor index plays no part. *)
Theorem startPosition_skips_blank_lines (editor : Editor) :
  0 <= (getCursorPosition editor).1 ->
  let cursorLine := (getCursorPosition editor).1 in
  let start := startPosition editor true in
  (0 <= start.1 <= cursorLine /\
   ~ blankLine editor start.1 /\
   start.2 = Py.len (Py.rstrip (text editor start.1)) /\
   0 < start.2 /\
   (forall i, start.1 < i <= cursorLine -> blankLine editor i)) \/
  (start = (0, 0) /\ forall i, 0 <= i <= cursorLine -> blankLine editor i).
Proof.
  unfold startPosition. destruct (getCursorPosition editor) as [line pos].
  cbn [fst snd]. intros Hline.
  pose proof (skipBlankLines_spec editor (Z.to_nat (line + 1)) line pos
                ltac:(lia) eq_refl) as Hspec.
  destruct (skipBlankLines _ _ _ _) as [l p]. cbn [fst snd] in *.
  destruct Hspec as [(Hrange & Hnb & Hpos & Hblank)|[-> Hblank]].
  - left. destruct (l <? 0) eqn:E; [lia|]. cbn [fst snd].
    repeat split; [lia|lia|done|done| |done].
    rewrite Hpos. apply rstrip_nonempty.
    unfold blankLine in Hnb. by destruct (Py.isempty _).
  - right. by split.
Qed.

Lemma startPosition_skips_blank_lines_witness :
  let editor := example_editor (2, 0) in
  let cursorLine := (getCursorPosition editor).1 in
  let start := startPosition editor true in
  (0 <= start.1 <= cursorLine /\
   ~ blankLine editor start.1 /\
   start.2 = Py.len (Py.rstrip (text editor start.1)) /\
   0 < start.2 /\
   (forall i, start.1 < i <= cursorLine -> blankLine editor i)) \/
  (start = (0, 0) /\ forall i, 0 <= i <= cursorLine -> blankLine editor i).
Proof.
  apply (startPosition_skips_blank_lines (example_editor (2, 0))).
  simpl. lia.
Defined.

(** *** The cursor on a definition line *)

(** [Leads cursorLine cursorPos o path o']: the walk from [o] descends
    through the definitions of [path], each the nearest candidate of its
    level with the cursor on no definition line of that level, and
    arrives at [o']. *)
Inductive Leads (cursorLine cursorPos : Z)
  : infoNode -> list frame -> infoNode -> Prop :=
| Leads_nil o : Leads cursorLine cursorPos o [] o
| Leads_class o c rest o' :
    notOnDefinitionLines o cursorLine cursorPos ->
    nearestClass o cursorLine c ->
    (forall c', c' ∈ classes_of o -> line c' = line c -> c' = c) ->
    Leads cursorLine cursorPos (OfDef c) rest o' ->
    Leads cursorLine cursorPos o (ClassFrame c :: rest) o'
| Leads_function o f rest o' :
    notOnDefinitionLines o cursorLine cursorPos ->
    nearestFunction o cursorLine f ->
    (forall f', f' ∈ functions_of o -> line f' = line f -> f' = f) ->
    Leads cursorLine cursorPos (OfDef f) rest o' ->
    Leads cursorLine cursorPos o (FunctionFrame f :: rest) o'.

(** The cursor is on the definition line of the object of [header], and
    [header] is the first such object the loops of [o] meet: classes
    first, then functions. *)
Inductive OnHeader (cursorLine cursorPos : Z) (o : infoNode) : frame -> Prop :=
| OnHeader_class c :
    firstOnDefinitionLine (classes_of o) cursorLine cursorPos c ->
    OnHeader cursorLine cursorPos o (ClassFrame c)
| OnHeader_function f :
    Forall (offDefinitionLine cursorLine cursorPos) (classes_of o) ->
    firstOnDefinitionLine (functions_of o) cursorLine cursorPos f ->
    OnHeader cursorLine cursorPos o (FunctionFrame f).

Definition frameObject (x : frame) : InfoObj :=
  match x with ClassFrame d | FunctionFrame d => d end.

Lemma firstOn_unique l cursorLine cursorPos d d' :
  firstOnDefinitionLine l cursorLine cursorPos d ->
  firstOnDefinitionLine l cursorLine cursorPos d' -> d = d'.
Proof.
  intros (pre & post & -> & Hpre & Hon) (pre' & post' & Heq & Hpre' & Hon').
  revert pre' Heq Hpre'. induction pre as [|x pre IH]; intros pre' Heq Hpre'.
  - destruct pre' as [|y pre']; simpl in Heq; [congruence|].
    injection Heq as -> _. apply Forall_cons in Hpre' as [Hoff _].
    unfold offDefinitionLine in Hoff. congruence.
  - apply Forall_cons in Hpre as [Hx Hpre].
    destruct pre' as [|y pre']; simpl in Heq.
    + injection Heq as -> _. unfold offDefinitionLine in Hx. congruence.
    + injection Heq as -> Heq. apply Forall_cons in Hpre' as [_ Hpre'].
      by apply (IH Hpre pre').
Qed.

Lemma walk_Leads cursorLine cursorPos skipDef o path o' :
  Leads cursorLine cursorPos o path o' ->
  forall context, consistent context ->
  _IdentifyScope o context cursorLine cursorPos skipDef =
    _IdentifyScope o'
      {| levels := framesOn (levels context) path;
         length := length context + Z.of_nat (List.length path) |}
      cursorLine cursorPos skipDef.
Proof.
  induction 1 as [o|o c rest o' Hoff Hc Huniq Hrest IH
                 |o f rest o' Hoff Hf Huniq Hrest IH]; intros context Hcons.
  - destruct context as [ls n]; simpl. do 2 f_equal. lia.
  - pose proof (levelStep_holds o context cursorLine cursorPos skipDef) as Hs.
    pose proof Hoff as Hoff'.
    apply Forall_app in Hoff' as [Hoffc Hofff].
    destruct Hc as (Hin & [Hlo Hhi] & Hcmax & Hfmax).
    inversion Hs as [k Hk Heq|f Hcl Hk Heq|_ Hn Heq|c' _ Hn Heq|f _ Hn Heq].
    + apply firstOn_elem in Hk as [Hin' Hon].
      rewrite (off_elem _ _ _ _ Hoffc Hin') in Hon. discriminate.
    + apply firstOn_elem in Hk as [Hin' Hon].
      rewrite (off_elem _ _ _ _ Hofff Hin') in Hon. discriminate.
    + destruct Hn as [Hnc _]. destruct (Hnc c Hin). by split.
    + destruct Hn as (Hin' & [Hlo' Hhi'] & Hcmax' & Hfmax').
      assert (c' = c) as ->.
      { apply Huniq; [done|]. specialize (Hcmax c' Hin' Hhi').
        specialize (Hcmax' c Hin Hhi). lia. }
      rewrite (IH (addClass context c)) by by apply consistent_addClass.
      simpl. do 2 f_equal. lia.
    + destruct Hn as (Hin' & [Hlo' Hhi'] & Hcmax' & Hfmax').
      specialize (Hcmax' c Hin Hhi). specialize (Hfmax f Hin' Hhi'). lia.
  - pose proof (levelStep_holds o context cursorLine cursorPos skipDef) as Hs.
    pose proof Hoff as Hoff'.
    apply Forall_app in Hoff' as [Hoffc Hofff].
    destruct Hf as (Hin & [Hlo Hhi] & Hcmax & Hfmax).
    inversion Hs as [k Hk Heq|f' Hcl Hk Heq|_ Hn Heq|c _ Hn Heq|f' _ Hn Heq].
    + apply firstOn_elem in Hk as [Hin' Hon].
      rewrite (off_elem _ _ _ _ Hoffc Hin') in Hon. discriminate.
    + apply firstOn_elem in Hk as [Hin' Hon].
      rewrite (off_elem _ _ _ _ Hofff Hin') in Hon. discriminate.
    + destruct Hn as [_ Hnf]. destruct (Hnf f Hin). by split.
    + destruct Hn as (Hin' & [Hlo' Hhi'] & Hcmax' & Hfmax').
      specialize (Hcmax c Hin' Hhi'). specialize (Hfmax' f Hin Hhi). lia.
    + destruct Hn as (Hin' & [Hlo' Hhi'] & Hcmax' & Hfmax').
      assert (f' = f) as ->.
      { apply Huniq; [done|]. specialize (Hfmax f' Hin' Hhi').
        specialize (Hfmax' f Hin Hhi). lia. }
      rewrite (addFunction_consistent _ _ Hcons). simpl.
      rewrite IH.
      * simpl. do 2 f_equal. lia.
      * unfold consistent in *; simpl. rewrite length_app; simpl. lia.
Qed.

Lemma walk_OnHeader cursorLine cursorPos o header context :
  OnHeader cursorLine cursorPos o header ->
  consistent context ->
  _IdentifyScope o context cursorLine cursorPos false =
    Ok {| levels := framesOn (levels context) [header];
          length := length context + 1 |}.
Proof.
  intros Hhead Hcons.
  pose proof (levelStep_holds o context cursorLine cursorPos false) as Hs.
  assert (Hno : notOnDefinitionLines o cursorLine cursorPos -> False).
  { intros Hoff. apply Forall_app in Hoff as [Hoffc Hofff].
    destruct Hhead as [c Hc|f _ Hf].
    - apply firstOn_elem in Hc as [Hin Hon].
      rewrite (off_elem _ _ _ _ Hoffc Hin) in Hon. discriminate.
    - apply firstOn_elem in Hf as [Hin Hon].
      rewrite (off_elem _ _ _ _ Hofff Hin) in Hon. discriminate. }
  inversion Hs as [k Hk Heq|f Hcl Hk Heq|Hoff _ Heq|c Hoff _ Heq|f Hoff _ Heq];
    try by destruct (Hno Hoff).
  - destruct Hhead as [c Hc|f Hoffc Hf].
    + by rewrite (firstOn_unique _ _ _ _ _ Hk Hc).
    + apply firstOn_elem in Hk as [Hin Hon].
      rewrite (off_elem _ _ _ _ Hoffc Hin) in Hon. discriminate.
  - destruct Hhead as [c Hc|f' _ Hf].
    + apply firstOn_elem in Hc as [Hin Hon].
      rewrite (off_elem _ _ _ _ Hcl Hin) in Hon. discriminate.
    + rewrite (firstOn_unique _ _ _ _ _ Hk Hf).
      by rewrite (addFunction_consistent _ _ Hcons).
Qed.

Lemma Leads_Within cursorLine cursorPos o path o' :
  Leads cursorLine cursorPos o path o' ->
  forall d, Within o' d -> Within o d.
Proof.
  induction 1 as [o|o c rest o' _ Hc _ _ IH|o f rest o' _ Hf _ _ IH];
    intros d Hd; [done|..].
  - apply (Within_deeper o c); [|by apply IH].
    apply elem_of_app. left. apply Hc.
  - apply (Within_deeper o f); [|by apply IH].
    apply elem_of_app. right. apply Hf.
Qed.

Lemma OnHeader_Within cursorLine cursorPos o header :
  OnHeader cursorLine cursorPos o header ->
  Within o (frameObject header) /\
  _isOnDefinitionLine (frameObject header) cursorLine cursorPos = true.
Proof.
  intros [c Hc|f _ Hf]; simpl.
  - apply firstOn_elem in Hc as [Hin Hon]. split; [|done].
    apply Within_child, elem_of_app. by left.
  - apply firstOn_elem in Hf as [Hin Hon]. split; [|done].
    apply Within_child, elem_of_app. by right.
Qed.

Section OnDefinitionLine.

Variable getBriefModuleInfoFromMemory : string -> BriefModuleInfo.

(** X8. With [skipDef] False and the start position on the definition
    line of a class or function reached by the walk, [getContext]
    returns the frames of the enclosing definitions followed by the frame
    of that definition itself, whatever the indentation of the lines of
    the buffer: the indentation pass is not run. *)
Theorem getContext_on_definition_line
    (editor : Editor) (info : option BriefModuleInfo)
    (skipBlankLinesBack : bool) (line pos : Z)
    (above : list frame) (o : infoNode) (header : frame) :
  lexer editor = Some QsciLexerPython ->
  startPosition editor skipBlankLinesBack = (line, pos) ->
  Leads (line + 1) pos
    (OfModule (outlineOf getBriefModuleInfoFromMemory editor info)) above o ->
  OnHeader (line + 1) pos o header ->
  getContext getBriefModuleInfoFromMemory editor info
    skipBlankLinesBack false =
    Ok {| levels := framesOn [] (above ++ [header]);
          length := Z.of_nat (List.length above) + 1 |}.
Proof.
  intros Hlexer Hstart Hleads Hhead.
  unfold getContext. rewrite Hlexer, Hstart. cbn [isPythonLexer negb].
  fold (outlineOf getBriefModuleInfoFromMemory editor info).
  rewrite (walk_Leads _ _ false _ _ _ Hleads newContext consistent_newContext).
  rewrite (walk_OnHeader _ _ _ _ _ Hhead).
  2:{ unfold consistent; simpl. rewrite framesOn_length. simpl. lia. }
  cbn [Py.bind levels length newContext].
  rewrite framesOn_app.
  pose proof (getDefinitionObject_found
                (outlineOf getBriefModuleInfoFromMemory editor info)
                (line + 1) pos (frameObject header)) as Hfound.
  destruct (OnHeader_Within _ _ _ _ Hhead) as [Hw Hon].
  specialize (Hfound (Leads_Within _ _ _ _ _ Hleads _ Hw) Hon).
  rewrite bool_decide_eq_true_2 by done. done.
Qed.

End OnDefinitionLine.

Lemma getContext_on_definition_line_witness :
  getContext (fun _ => example_info) (example_editor (1, 10))
    (Some example_info) false false =
    Ok {| levels := [(example_A, ClassScope); (example_m, ClassMethodScope)];
          length := 2 |}.
Proof.
  apply (getContext_on_definition_line (fun _ => example_info)
           (example_editor (1, 10)) (Some example_info) false 1 10
           [ClassFrame example_A] (OfDef example_A) (FunctionFrame example_m)).
  - reflexivity.
  - reflexivity.
  - apply Leads_class.
    + repeat constructor.
    + repeat split; simpl; try lia.
      * apply elem_of_cons. by left.
      * intros f Hf. by apply elem_of_nil in Hf.
    + intros c Hc _. by apply list_elem_of_singleton in Hc.
    + apply Leads_nil.
  - apply OnHeader_function; [constructor|].
    exists [], []. repeat split. constructor.
Defined.

End Resolver.

(** ** More of cml.py: the comment lists after validation *)

Module CmlLists.

Import Cml.

(** [CMLVersion.find]: a raw comment of the flow parser has no [CODE]
    attribute, every high level comment has the one of its class. *)
Definition typeCode (cmlType : CMLType) : string :=
  match cmlType with
  | TYPE_CMLsw => CMLsw_CODE
  | TYPE_CMLcc => CMLcc_CODE
  | TYPE_CMLrt => CMLrt_CODE
  end.

Fixpoint find (cmlComments : list listItem) (cmlType : CMLType)
  : option CMLComment :=
  match cmlComments with
  | [] => None
  | HighLevel comment :: rest =>
      if String.eqb (CODE comment) (typeCode cmlType) then Some comment
      else find rest cmlType
  | RawItem _ :: rest => find rest cmlType
  end.

(** [CMLVersion.getFirstLine]: a high level comment has a [ref], a raw
    comment has none. *)
Definition getFirstLine (comments : list listItem) : result Z :=
  let line := FlowUI.maxint in
  match comments with
  | [] => Ok line
  | HighLevel comment :: _ =>
      part <- Py.index (parts (ref comment)) 0 ;;
      Ok (beginLine part)
  | RawItem comment :: _ =>
      match parts comment with
      | [] => Ok line
      | part :: _ => Ok (beginLine part)
      end
  end.

(** X9. The one way [validateCMLList] raises on a list of raw comments:
    building the warning of a rejected comment reads [parts[ 0 ]], so a
    rejected comment with no part ends the call with IndexError. When
    every rejected comment has a part the call returns, also if accepted
    comments have none: each accepted comment is replaced by its high
    level counterpart and each rejected one is left and warned about. *)
Theorem validateCMLList_raises_without_position (cs : list RawComment) :
  (Exists (fun c => rejected c /\ parts c = []) cs /\
   validateCMLList (RawItem <$> cs) = Raise IndexError) \/
  (Forall (fun c => rejected c -> parts c <> []) cs /\
   validateCMLList (RawItem <$> cs) =
     Ok (converted <$> cs, List.concat (warningsFor <$> cs))).
Proof.
  rewrite validateCMLList_items.
  destruct (existsb noPosition cs) eqn:E.
  - left. split; [|done]. apply existsb_exists in E as (c & Hin & Hc).
    apply Exists_exists. exists c. split; [by apply list_elem_of_In|].
    by apply noPosition_spec.
  - right. split; [|done]. apply Forall_forall. intros c Hin Hr Hp.
    assert (existsb noPosition cs = true); [|congruence].
    apply existsb_exists. exists c. split; [by apply list_elem_of_In|].
    by apply noPosition_spec.
Qed.

Lemma rejected_or_not (c : RawComment) : rejected c \/ ~ rejected c.
Proof.
  destruct (isRejected c) eqn:E.
  - left. by apply isRejected_spec.
  - right. intros H%isRejected_spec. congruence.
Qed.

(** *** Validating a list a second time *)

Lemma validateLoop_again (cs : list RawComment) :
  existsb noPosition cs = false ->
  forallb isRejected cs = false ->
  forall (seen : list listItem) (warnings : list Warning),
    validateLoop (seqZ (Z.of_nat (List.length seen))
                    (Z.of_nat (List.length cs)))
      (seen ++ (converted <$> cs), warnings) = Raise AttributeError.
Proof.
  induction cs as [|c cs IH]; intros Hpos Hsome seen warnings; [done|].
  cbn [existsb forallb] in Hpos, Hsome.
  apply orb_false_iff in Hpos as [Hc Hpos].
  cbn [List.length]. rewrite seqZ_next.
  cbn [validateLoop fmap list_fmap].
  change (list_fmap _ _ converted cs) with (converted <$> cs).
  destruct (isRejected c) eqn:Hr.
  - rewrite (converted_rejected c Hr), validateAt_item, Hr.
    unfold noPosition in Hc. rewrite Hr in Hc.
    destruct (parts c) as [|part ps]; [done|].
    cbn [Py.index Py.bind]. simpl.
    replace (seen ++ RawItem c :: (converted <$> cs))
      with ((seen ++ [RawItem c]) ++ (converted <$> cs))
      by (by rewrite <- app_assoc).
    replace (Z.succ (Z.of_nat (List.length seen)))
      with (Z.of_nat (List.length (seen ++ [RawItem c])))
      by (rewrite length_app; simpl; lia).
    by apply IH.
  - assert (Hnot : ~ rejected c).
    { intros H%isRejected_spec. congruence. }
    apply converted_spec in Hnot as (t & h & _ & _ & -> & _).
    by rewrite validateAt_high.
Qed.

(** X10. [validateCMLList] is made for one pass: run again on the list it
    has updated, it raises AttributeError as soon as that list holds a
    converted comment - [getType] reads [recordType], which a high level
    comment does not have, outside the [try] - and only when every
    comment was rejected does it return the same list and the same
    warnings again. *)
Theorem validateCMLList_twice
    (cs : list RawComment) (comments : list listItem) (warnings : list Warning) :
  validateCMLList (RawItem <$> cs) = Ok (comments, warnings) ->
  (Forall rejected cs /\
   validateCMLList comments = Ok (comments, warnings)) \/
  (Exists (fun c => ~ rejected c) cs /\
   validateCMLList comments = Raise AttributeError).
Proof.
  rewrite validateCMLList_items.
  destruct (existsb noPosition cs) eqn:Hpos; [done|]. intros [= <- <-].
  destruct (forallb isRejected cs) eqn:Hall.
  - left. assert (Hrej : Forall rejected cs).
    { apply Forall_forall. intros c Hin. apply isRejected_spec.
      apply (proj1 (forallb_forall _ _) Hall). by apply list_elem_of_In. }
    split; [done|].
    assert (Hsame : converted <$> cs = RawItem <$> cs).
    { clear Hpos Hall. induction Hrej as [|c cs Hc _ IH]; [done|].
      cbn [fmap list_fmap]. f_equal; [|exact IH]. by apply converted_spec. }
    by rewrite Hsame, validateCMLList_items, Hpos, Hsame.
  - right. split.
    + apply Exists_exists.
      assert (Hn : existsb (fun c => negb (isRejected c)) cs = true).
      { clear Hpos. induction cs as [|c cs IH]; [done|]. simpl in *.
        destruct (isRejected c); simpl in *; [by apply IH|done]. }
      apply existsb_exists in Hn as (c & Hin & Hc).
      exists c. split; [by apply list_elem_of_In|].
      intros H%isRejected_spec. rewrite H in Hc. done.
    + unfold validateCMLList.
      destruct cs as [|c cs]; [done|].
      change (converted <$> c :: cs) with (converted c :: (converted <$> cs)).
      cbv zeta. unfold Py.xrange.
      rewrite Z.sub_0_r, length_cons, length_fmap.
      by apply (validateLoop_again (c :: cs) Hpos Hall []).
Qed.

Lemma validateCMLList_twice_witness :
  (Forall rejected sampleComments /\
   validateCMLList (converted <$> sampleComments) =
     Ok (converted <$> sampleComments,
         List.concat (warningsFor <$> sampleComments))) \/
  (Exists (fun c => ~ rejected c) sampleComments /\
   validateCMLList (converted <$> sampleComments) = Raise AttributeError).
Proof.
  apply (validateCMLList_twice sampleComments).
  apply validateCMLList_raw. repeat constructor; discriminate.
Defined.

(** *** Looking a comment up after validation *)

Lemma COMMENT_TYPES_typeCode (cmlType : CMLType) :
  COMMENT_TYPES (typeCode cmlType) = Some cmlType.
Proof. by destruct cmlType. Qed.

(** X11. After [validateCMLList] has updated a list of raw comments,
    [CMLVersion.find] for a type gives the comment constructed from the
    first comment of that code that is not rejected; it gives None
    exactly when every comment of that code was rejected. *)
Theorem find_after_validation
    (cs : list RawComment) (comments : list listItem)
    (warnings : list Warning) (cmlType : CMLType) :
  validateCMLList (RawItem <$> cs) = Ok (comments, warnings) ->
  match find comments cmlType with
  | Some comment =>
      exists pre c post,
        cs = pre ++ c :: post /\
        recordType c = typeCode cmlType /\
        construct cmlType c = Ok comment /\
        Forall (fun c' => recordType c' = typeCode cmlType -> rejected c') pre
  | None =>
      Forall (fun c => recordType c = typeCode cmlType -> rejected c) cs
  end.
Proof.
  rewrite validateCMLList_items.
  destruct (existsb noPosition cs); [done|]. intros [= <- _].
  induction cs as [|c cs IH]; [by constructor|].
  cbn [fmap list_fmap]. change (list_fmap _ _ converted cs) with (converted <$> cs).
  destruct (rejected_or_not c) as [Hr|Hr].
  - rewrite (proj1 (converted_spec c) Hr). cbn [find].
    destruct (find (converted <$> cs) cmlType) as [h|].
    + destruct IH as (pre & c' & post & -> & Hcode & Hc & Hpre).
      exists (c :: pre), c', post. repeat split; [done..|].
      by constructor.
    + by constructor.
  - destruct (proj2 (converted_spec c) Hr)
      as (t & h & Ht & Hc & -> & _ & Hcode).
    cbn [find]. destruct (String.eqb (CODE h) (typeCode cmlType)) eqn:E.
    + apply String.eqb_eq in E. rewrite Hcode in E.
      exists [], c, cs. repeat split; [done| |constructor].
      rewrite E, COMMENT_TYPES_typeCode in Ht. by injection Ht as <-.
    + apply String.eqb_neq in E. rewrite Hcode in E.
      destruct (find (converted <$> cs) cmlType) as [h'|].
      * destruct IH as (pre & c' & post & -> & Hcode' & Hc' & Hpre).
        exists (c :: pre), c', post. repeat split; [done..|].
        by constructor.
      * by constructor.
Qed.

Lemma find_after_validation_witness :
  match find (converted <$> sampleComments) TYPE_CMLrt with
  | Some comment =>
      exists pre c post,
        sampleComments = pre ++ c :: post /\
        recordType c = typeCode TYPE_CMLrt /\
        construct TYPE_CMLrt c = Ok comment /\
        Forall (fun c' => recordType c' = typeCode TYPE_CMLrt -> rejected c') pre
  | None =>
      Forall (fun c => recordType c = typeCode TYPE_CMLrt -> rejected c)
        sampleComments
  end.
Proof.
  apply (find_after_validation sampleComments (converted <$> sampleComments)
           (List.concat (warningsFor <$> sampleComments)) TYPE_CMLrt).
  apply validateCMLList_raw. repeat constructor; discriminate.
Defined.

(** X12. [getFirstLine] reads the same line from a list before and after
    [validateCMLList] when the first comment has a part (the line of that
    part; [maxint] for the empty list). A first comment without parts
    gives [maxint] while it is raw and IndexError once it is converted. *)
Theorem getFirstLine_after_validation
    (cs : list RawComment) (comments : list listItem) (warnings : list Warning) :
  validateCMLList (RawItem <$> cs) = Ok (comments, warnings) ->
  match cs with
  | [] => getFirstLine comments = Ok FlowUI.maxint
  | c :: _ =>
      match parts c with
      | part :: _ =>
          getFirstLine (RawItem <$> cs) = Ok (beginLine part) /\
          getFirstLine comments = Ok (beginLine part)
      | [] =>
          ~ rejected c /\
          getFirstLine (RawItem <$> cs) = Ok FlowUI.maxint /\
          getFirstLine comments = Raise IndexError
      end
  end.
Proof.
  rewrite validateCMLList_items.
  destruct (existsb noPosition cs) eqn:Hpos; [done|]. intros [= <- _].
  destruct cs as [|c cs]; [done|].
  cbn [fmap list_fmap getFirstLine existsb] in *.
  apply orb_false_iff in Hpos as [Hc _]. unfold noPosition in Hc.
  destruct (rejected_or_not c) as [Hr|Hr].
  - rewrite (proj1 (converted_spec c) Hr).
    apply isRejected_spec in Hr. rewrite Hr in Hc.
    by destruct (parts c).
  - destruct (proj2 (converted_spec c) Hr) as (t & h & _ & _ & -> & -> & _).
    by destruct (parts c).
Qed.

Lemma getFirstLine_after_validation_witness :
  getFirstLine (RawItem <$> sampleComments) = Ok 3 /\
  getFirstLine (converted <$> sampleComments) = Ok 3.
Proof.
  apply (getFirstLine_after_validation sampleComments
           (converted <$> sampleComments)
           (List.concat (warningsFor <$> sampleComments))).
  apply validateCMLList_raw. repeat constructor; discriminate.
Defined.

(** *** A colour written by [generate] and read by [readColor] *)

(** [hex( alpha )[ 2: ]] has one digit below 16 and two from 16 on. *)
Definition alphaDigits (a : Z) : string :=
  if a <? 16 then String (Py.hexDigit a) EmptyString else hex2 a.

Lemma alphaDigits_all :
  forallb (fun a => String.eqb (Py.slice_from (Py.hex a) 2) (alphaDigits a))
    (seqZ 0 256) = true.
Proof. vm_compute. reflexivity. Qed.

Lemma hex_alpha (a : Z) :
  0 <= a <= 255 -> Py.slice_from (Py.hex a) 2 = alphaDigits a.
Proof.
  intros Ha. apply String.eqb_eq.
  apply (proj1 (forallb_forall _ _) alphaDigits_all a).
  apply list_elem_of_In, elem_of_seqZ. lia.
Qed.

Lemma readColor_seven_digits (x1 x2 x3 x4 x5 x6 x7 : ascii) :
  let body :=
    String x1 (String x2 (String x3 (String x4 (String x5 (String x6
      (String x7 EmptyString)))))) in
  readColor (String "#" body) =
    Raise (Exception_ ("Invalid hexadecimal color format: #" +:+ body)).
Proof. reflexivity. Qed.

(** X13. What [CMLcc.generate] writes for a foreground or border colour
    with channels in [0, 255] - [name()], followed by [hex( alpha )[ 2: ]]
    unless alpha is 255 - is read back by [readColor] as the same colour
    when alpha is at least 16. With alpha below 16 the alpha is written
    with one digit, the specification has seven digits, and [readColor]
    raises the format error. *)
Theorem written_colour_read_back (c : QColor) :
  0 <= red c <= 255 -> 0 <= green c <= 255 -> 0 <= blue c <= 255 ->
  0 <= alpha c <= 255 ->
  let spec := withAlpha (name c) c in
  (16 <= alpha c -> readColor spec = Ok c) /\
  (alpha c < 16 ->
   readColor spec =
     Raise (Exception_ ("Invalid hexadecimal color format: " +:+ spec))).
Proof.
  destruct c as [r g b a]. cbn [red green blue alpha].
  intros Hr Hg Hb Ha. unfold withAlpha. cbn [alpha].
  destruct (a =? 255) eqn:E; cbn [negb].
  - apply Z.eqb_eq in E as ->. split; [|lia]. intros _.
    change (name (mkQColor r g b 255)) with (hexSpec [r; g; b]).
    apply readColor_hexSpec; [|done]. repeat (constructor; [done|]). constructor.
  - rewrite hex_alpha by done. unfold alphaDigits. split; intros Hlow.
    + destruct (a <? 16) eqn:E16; [lia|].
      change (name (mkQColor r g b a) +:+ hex2 a) with (hexSpec [r; g; b; a]).
      apply readColor_hexSpec; [|done]. repeat (constructor; [done|]). constructor.
    + destruct (a <? 16) eqn:E16; [|lia].
      apply (readColor_seven_digits
               (Py.hexDigit (r / 16)) (Py.hexDigit (r mod 16))
               (Py.hexDigit (g / 16)) (Py.hexDigit (g mod 16))
               (Py.hexDigit (b / 16)) (Py.hexDigit (b mod 16))
               (Py.hexDigit a)).
Qed.

Lemma written_colour_read_back_witness :
  let c := QColor4 255 0 0 128 in
  let spec := withAlpha (name c) c in
  (16 <= alpha c -> readColor spec = Ok c) /\
  (alpha c < 16 ->
   readColor spec =
     Raise (Exception_ ("Invalid hexadecimal color format: " +:+ spec))).
Proof.
  apply (written_colour_read_back (QColor4 255 0 0 128)); simpl; lia.
Defined.

End CmlLists.

(** ** More of flowuimouse.py: the selection *)

Module Selection.

Import FlowUI.

(** A scene is the list of its items in the order of [self.items()],
    each with its [isSelected()] flag; an item is referred to by its
    place. *)

(** [self.selectedItems()] *)
Definition selectedItems (scene : list (Item * bool)) : list Item :=
  (List.filter snd scene).*1.

(** [item.setSelected( value )] for the item at [index]. *)
Definition setSelected (scene : list (Item * bool)) (index : nat) (value : bool) : list (Item * bool) :=
  alter (fun entry => (entry.1, value)) index scene.

(** The loop of [deselectNested] over the selected items. *)
Fixpoint deselectLoop (scene : list (Item * bool)) (toSelectBegin toSelectEnd : Z)
  : result (list (Item * bool)) :=
  match scene with
  | [] => Ok []
  | (item, false) :: rest =>
      rest <- deselectLoop rest toSelectBegin toSelectEnd ;;
      Ok ((item, false) :: rest)
  | (item, true) :: rest =>
      range <- __getItemVisualBeginEnd item ;;
      let '(itemBegin, itemEnd) := range in
      rest <- deselectLoop rest toSelectBegin toSelectEnd ;;
      Ok ((item, negb ((itemBegin >=? toSelectBegin) &&
                       (itemEnd <=? toSelectEnd))) :: rest)
  end.

(** [CFSceneMouseMixin.deselectNested] *)
Definition deselectNested (scene : list (Item * bool)) (itemToSelect : Item) : result (list (Item * bool)) :=
  if negb (scopedItem itemToSelect) then Ok scene
  else
    match subKind itemToSelect with
    | ScopeCellElement.TOP_LEFT =>
        range <- __getItemVisualBeginEnd itemToSelect ;;
        let '(toSelectBegin, toSelectEnd) := range in
        deselectLoop scene toSelectBegin toSelectEnd
    | _ => Ok scene
    end.

(** [CFSceneMouseMixin.addToSelection] for the item at [index] of the
    scene. *)
Definition addToSelection (scene : list (Item * bool)) (index : nat) : result (list (Item * bool)) :=
  match scene !! index with
  | None => Raise IndexError
  | Some (item, _) =>
      nested <- isNestedInSelected (selectedItems scene) item ;;
      if nested then Ok scene
      else
        scene <- deselectNested scene item ;;
        Ok (setSelected scene index true)
  end.

(** A scope cell that can hold other items. *)
Definition isTopLeft (item : Item) : bool :=
  scopedItem item &&
  match subKind item with ScopeCellElement.TOP_LEFT => true | _ => false end.

(** The visual range of [inner] lies within the one of [outer]. *)
Definition within (inner outer : Item) : Prop :=
  exists innerBegin innerEnd outerBegin outerEnd,
    __getItemVisualBeginEnd inner = Ok (innerBegin, innerEnd) /\
    __getItemVisualBeginEnd outer = Ok (outerBegin, outerEnd) /\
    outerBegin <= innerBegin /\ innerEnd <= outerEnd.

(** No selected item lies within another selected scope. *)
Definition hierarchical (scene : list (Item * bool)) : Prop :=
  forall i j inner outer,
    i <> j ->
    scene !! i = Some (inner, true) ->
    scene !! j = Some (outer, true) ->
    isTopLeft outer = true ->
    ~ within inner outer.

Lemma elem_of_selectedItems (scene : list (Item * bool)) (item : Item) (i : nat) :
  scene !! i = Some (item, true) -> item ∈ selectedItems scene.
Proof.
  intros Hi. unfold selectedItems. apply list_elem_of_fmap.
  exists (item, true). split; [done|].
  apply list_elem_of_In, filter_In. split; [|done].
  apply list_elem_of_In. by apply list_elem_of_lookup_2 in Hi.
Qed.

Lemma nestedLoop_false (items : list Item) (b e : Z) :
  nestedLoop items b e = Ok false ->
  forall item itemBegin itemEnd,
    item ∈ items -> isTopLeft item = true ->
    __getItemVisualBeginEnd item = Ok (itemBegin, itemEnd) ->
    ~ (itemBegin <= b /\ e <= itemEnd).
Proof.
  induction items as [|x rest IH]; intros Hloop item ib ie Hin Htl Hrange.
  - by apply elem_of_nil in Hin.
  - cbn [nestedLoop] in Hloop. unfold isTopLeft in Htl.
    apply elem_of_cons in Hin as [->|Hin].
    + apply andb_true_iff in Htl as [Hs Hk]. rewrite Hs in Hloop.
      cbn [negb] in Hloop.
      destruct (subKind x); try done.
      rewrite Hrange in Hloop. cbn [Py.bind] in Hloop.
      destruct ((b >=? ib) && (e <=? ie)) eqn:E; [done|]. lia.
    + refine (IH _ item ib ie Hin Htl Hrange).
      destruct (negb (scopedItem x)); [done|].
      destruct (subKind x); try done.
      destruct (__getItemVisualBeginEnd x) as [[xb xe]|]; [|done].
      cbn [Py.bind] in Hloop.
      by destruct ((b >=? xb) && (e <=? xe)).
Qed.

(** What the loop does to the flag of every item. *)
Lemma deselectLoop_spec (scene : list (Item * bool)) (b e : Z) (scene' : list (Item * bool)) :
  deselectLoop scene b e = Ok scene' ->
  forall i item selected,
    scene' !! i = Some (item, selected) ->
    exists before,
      scene !! i = Some (item, before) /\
      (selected = true <->
       before = true /\
       forall itemBegin itemEnd,
         __getItemVisualBeginEnd item = Ok (itemBegin, itemEnd) ->
         ~ (b <= itemBegin /\ itemEnd <= e)).
Proof.
  revert scene'. induction scene as [|[x sel] rest IH]; intros scene' Hloop.
  - injection Hloop as <-. intros i item selected Hi. done.
  - cbn [deselectLoop] in Hloop. destruct sel.
    + destruct (__getItemVisualBeginEnd x) as [[xb xe]|] eqn:Hx; [|done].
      cbn [Py.bind] in Hloop.
      destruct (deselectLoop rest b e) as [rest'|]; [|done].
      injection Hloop as <-. intros [|i] item selected Hi.
      * injection Hi as <- <-. exists true. split; [done|]. split.
        -- intros Hn. split; [done|]. intros ib ie Hr.
           rewrite Hx in Hr. injection Hr as <- <-. lia.
        -- intros [_ Hn]. specialize (Hn xb xe Hx). lia.
      * by apply (IH rest').
    + destruct (deselectLoop rest b e) as [rest'|]; [|done].
      injection Hloop as <-. intros [|i] item selected Hi.
      * injection Hi as <- <-. exists false. split; [done|].
        split; [done|by intros [? _]].
      * by apply (IH rest').
Qed.

Lemma deselectLoop_length (scene : list (Item * bool)) (b e : Z) (scene' : list (Item * bool)) :
  deselectLoop scene b e = Ok scene' -> scene'.*1 = scene.*1.
Proof.
  revert scene'. induction scene as [|[x sel] rest IH]; intros scene' Hloop.
  - by injection Hloop as <-.
  - cbn [deselectLoop] in Hloop. destruct sel.
    + destruct (__getItemVisualBeginEnd x) as [[xb xe]|]; [|done].
      cbn [Py.bind] in Hloop.
      destruct (deselectLoop rest b e) as [rest'|]; [|done].
      injection Hloop as <-. cbn. f_equal. by apply IH.
    + destruct (deselectLoop rest b e) as [rest'|]; [|done].
      injection Hloop as <-. cbn. f_equal. by apply IH.
Qed.

Lemma deselectNested_spec (scene : list (Item * bool)) (itemToSelect : Item) (scene' : list (Item * bool)) :
  deselectNested scene itemToSelect = Ok scene' ->
  scene'.*1 = scene.*1 /\
  forall i item selected,
    scene' !! i = Some (item, selected) ->
    exists before,
      scene !! i = Some (item, before) /\
      (selected = true <->
       before = true /\
       (isTopLeft itemToSelect = true -> ~ within item itemToSelect)).
Proof.
  unfold deselectNested, isTopLeft.
  assert (Hsame : Ok scene = Ok scene' ->
    scene'.*1 = scene.*1 /\
    forall i item selected,
      scene' !! i = Some (item, selected) ->
      exists before,
        scene !! i = Some (item, before) /\
        (selected = true <-> before = true /\ (false = true -> ~ within item itemToSelect))).
  { intros [= <-]. split; [done|]. intros i item selected Hi.
    exists selected. split; [done|]. split; [by intros ->|by intros [-> _]]. }
  destruct (scopedItem itemToSelect); cbn [negb andb]; [|done].
  destruct (subKind itemToSelect); try done.
  destruct (__getItemVisualBeginEnd itemToSelect) as [[b e]|] eqn:Hrange;
    [|done].
  cbn [Py.bind]. intros Hloop. split; [by apply (deselectLoop_length _ b e)|].
  intros i item selected Hi.
  destruct (deselectLoop_spec _ _ _ _ Hloop i item selected Hi)
    as (before & Hbefore & Hiff).
  exists before. split; [done|]. rewrite Hiff. split.
  - intros [-> Hout]. split; [done|]. intros _ (ib & ie & ob & oe & Hi' & Ho & ?).
    rewrite Hrange in Ho. injection Ho as <- <-. by apply (Hout ib ie).
  - intros [-> Hout]. split; [done|]. intros ib ie Hi' Hin.
    apply Hout; [done|]. by exists ib, ie, b, e.
Qed.

(** What a call that changes the selection does to the flags. *)
Definition added (scene scene' : list (Item * bool)) (index : nat) : Prop :=
  exists item,
    (exists selected, scene !! index = Some (item, selected)) /\
    scene' !! index = Some (item, true) /\
    (forall j outer, scene !! j = Some (outer, true) ->
                     isTopLeft outer = true -> ~ within item outer) /\
    (forall i x, i <> index -> scene' !! i = Some (x, true) ->
                 scene !! i = Some (x, true) /\
                 (isTopLeft item = true -> ~ within x item)).

Lemma addToSelection_cases (scene scene' : list (Item * bool)) (index : nat) :
  addToSelection scene index = Ok scene' ->
  scene'.*1 = scene.*1 /\ (scene' = scene \/ added scene scene' index).
Proof.
  unfold addToSelection.
  destruct (scene !! index) as [[item sel]|] eqn:Hindex; [|done].
  unfold isNestedInSelected.
  destruct (__getItemVisualBeginEnd item) as [[b e]|] eqn:Hrange; [|done].
  cbn [Py.bind].
  destruct (nestedLoop (selectedItems scene) b e) as [nested|] eqn:Hloop;
    [|done].
  cbn [Py.bind]. destruct nested.
  { intros [= <-]. split; [done|by left]. }
  destruct (deselectNested scene item) as [scene1|] eqn:Hdes; [|done].
  cbn [Py.bind]. intros [= <-].
  destruct (deselectNested_spec _ _ _ Hdes) as [Hitems Hflags].
  assert (Hat : exists sel1, scene1 !! index = Some (item, sel1)).
  { assert (Hi : scene1.*1 !! index = Some item)
      by (by rewrite Hitems, list_lookup_fmap, Hindex).
    rewrite list_lookup_fmap in Hi.
    destruct (scene1 !! index) as [[x s]|]; [|done].
    injection Hi as ->. by exists s. }
  destruct Hat as [sel1 Hat]. split.
  - unfold setSelected. rewrite <- Hitems.
    apply list_eq. intros k. rewrite !list_lookup_fmap.
    destruct (decide (k = index)) as [->|Hk].
    + rewrite list_lookup_alter, decide_True by done.
      by destruct (scene1 !! index).
    + by rewrite list_lookup_alter_ne by congruence.
  - right. exists item. split; [by exists sel|]. split; [|split].
    + unfold setSelected. rewrite list_lookup_alter, decide_True, Hat by done.
      reflexivity.
    + intros j outer Hj Htl (ib & ie & ob & oe & Hi1 & Ho & ?).
      rewrite Hrange in Hi1. injection Hi1 as <- <-.
      apply (nestedLoop_false _ _ _ Hloop outer ob oe); [|done..].
      by apply (elem_of_selectedItems scene outer j).
    + intros i x Hne Hi. unfold setSelected in Hi.
      rewrite list_lookup_alter_ne in Hi by congruence.
      destruct (Hflags i x true Hi) as (before & Hb & Hiff).
      by destruct (proj1 Hiff eq_refl) as [-> Hout].
Qed.

Lemma added_hierarchical (scene scene' : list (Item * bool)) (index : nat) :
  hierarchical scene -> added scene scene' index -> hierarchical scene'.
Proof.
  intros Hh (item & _ & Hself & Hfree & Hother).
  intros i j inner outer Hne Hi Hj Htl Hin.
  destruct (decide (j = index)) as [->|Hj'].
  - rewrite Hself in Hj. injection Hj as <-.
    destruct (Hother i inner Hne Hi) as [_ Hout]. by apply Hout.
  - destruct (Hother j outer Hj' Hj) as [Hj0 _].
    destruct (decide (i = index)) as [->|Hi'].
    + rewrite Hself in Hi. injection Hi as <-. by apply (Hfree j outer).
    + destruct (Hother i inner Hi' Hi) as [Hi0 _].
      by apply (Hh i j inner outer).
Qed.

(** The two ways of a call that returns. *)
Lemma addToSelection_run (scene scene' : list (Item * bool)) (index : nat) :
  addToSelection scene index = Ok scene' ->
  exists item selected nested,
    scene !! index = Some (item, selected) /\
    isNestedInSelected (selectedItems scene) item = Ok nested /\
    if nested then scene' = scene
    else exists scene1,
           deselectNested scene item = Ok scene1 /\
           scene' = setSelected scene1 index true.
Proof.
  unfold addToSelection.
  destruct (scene !! index) as [[item sel]|] eqn:Hindex; [|done].
  destruct (isNestedInSelected (selectedItems scene) item) as [nested|]
    eqn:Hnested; [|done].
  cbn [Py.bind]. intros Hrun. exists item, sel, nested.
  split; [done|]. split; [done|]. destruct nested.
  - by injection Hrun as <-.
  - destruct (deselectNested scene item) as [scene1|]; [|done].
    cbn [Py.bind] in Hrun. injection Hrun as <-. by exists scene1.
Qed.

(** X14. [addToSelection] keeps the selection hierarchical: if no
    selected item lies within another selected scope before the call,
    none does after it, and the scene keeps its items. What the call
    does is decided by [isNestedInSelected] for the item asked for: when
    it is True the selection is left as it is; when it is False the item
    is selected afterwards, and any other item is selected afterwards
    exactly when it was selected before and - the item asked for being a
    TopLeft scope cell - its visual range does not lie within the range
    of that cell. *)
Theorem addToSelection_keeps_hierarchy
    (scene scene' : list (Item * bool)) (index : nat) :
  hierarchical scene ->
  addToSelection scene index = Ok scene' ->
  hierarchical scene' /\
  scene'.*1 = scene.*1 /\
  exists item selected nested,
    scene !! index = Some (item, selected) /\
    isNestedInSelected (selectedItems scene) item = Ok nested /\
    (nested = true -> scene' = scene) /\
    (nested = false ->
     scene' !! index = Some (item, true) /\
     forall i x, i <> index ->
       (scene' !! i = Some (x, true) <->
        scene !! i = Some (x, true) /\
        (isTopLeft item = true -> ~ within x item))).
Proof.
  intros Hh Hadd.
  destruct (addToSelection_cases _ _ _ Hadd) as [Hitems Hcase].
  split.
  { destruct Hcase as [->|Hadded]; [done|].
    by apply (added_hierarchical scene scene' index). }
  split; [done|].
  destruct (addToSelection_run _ _ _ Hadd)
    as (item & sel & nested & Hindex & Hnested & Hrun).
  exists item, sel, nested. split; [done|]. split; [done|].
  destruct nested; (split; [done|]); [done|].
  intros _. destruct Hrun as (scene1 & Hdes & ->).
  destruct (deselectNested_spec _ _ _ Hdes) as [Hitems1 Hflags].
  assert (Hentry : forall i x s, scene !! i = Some (x, s) ->
                     exists s1, scene1 !! i = Some (x, s1)).
  { intros i x s Hi.
    assert (Hx : scene1.*1 !! i = Some x)
      by (by rewrite Hitems1, list_lookup_fmap, Hi).
    rewrite list_lookup_fmap in Hx.
    destruct (scene1 !! i) as [[y s1]|]; [|done].
    injection Hx as ->. by exists s1. }
  split.
  - destruct (Hentry index item sel Hindex) as [s1 Hs1].
    unfold setSelected. rewrite list_lookup_alter, decide_True, Hs1 by done.
    reflexivity.
  - intros i x Hne. unfold setSelected.
    rewrite list_lookup_alter_ne by congruence. split.
    + intros Hi. destruct (Hflags i x true Hi) as (before & Hb & Hiff).
      by destruct (proj1 Hiff eq_refl) as [-> Hout].
    + intros [Hi Hout]. destruct (Hentry i x true Hi) as [s1 Hs1].
      destruct (Hflags i x s1 Hs1) as (before & Hb & Hiff).
      rewrite Hi in Hb. injection Hb as <-.
      by rewrite (proj2 Hiff (conj eq_refl Hout)) in Hs1.
Qed.

(** Selecting the scope of a selected side comment deselects the
    comment. *)
Definition commentSelected : list (Item * bool) :=
  [(forTopLeft, false); (forSideComment, true)].

Definition scopeSelected : list (Item * bool) :=
  [(forTopLeft, true); (forSideComment, false)].

Lemma addToSelection_keeps_hierarchy_witness :
  hierarchical scopeSelected /\
  scopeSelected.*1 = commentSelected.*1 /\
  exists item selected nested,
    commentSelected !! 0%nat = Some (item, selected) /\
    isNestedInSelected (selectedItems commentSelected) item = Ok nested /\
    (nested = true -> scopeSelected = commentSelected) /\
    (nested = false ->
     scopeSelected !! 0%nat = Some (item, true) /\
     forall i x, i <> 0%nat ->
       (scopeSelected !! i = Some (x, true) <->
        commentSelected !! i = Some (x, true) /\
        (isTopLeft item = true -> ~ within x item))).
Proof.
  apply (addToSelection_keeps_hierarchy commentSelected scopeSelected 0).
  - intros i j inner outer Hne Hi Hj.
    destruct i as [|[|i]], j as [|[|j]]; done.
  - reflexivity.
Defined.

(** *** [mousePressEvent] *)

Inductive Button : Type := LeftButton | RightButton | OtherButton.

Inductive Modifiers : Type :=
| NoModifier | ControlModifier | ShiftModifier | OtherModifiers.

(** [self.clearSelection()] *)
Definition clearSelection (scene : list (Item * bool)) : list (Item * bool) :=
  (fun entry => (entry.1, false)) <$> scene.

(** [item.isSelected()] for the item at [index] *)
Definition isSelected (scene : list (Item * bool)) (index : nat) : result bool :=
  match scene !! index with
  | Some (_, selected) => Ok selected
  | None => Raise IndexError
  end.

Section MousePress.

(** [hasattr( item, "ref" )] and [item.ref is ref], for the [ref] of the
    item at a place of the scene. *)
Variable hasRefOf : Item -> nat -> bool.

(** [CFSceneMouseMixin.findItemsForRef], the items by their places. *)
Fixpoint findFrom (items : list (Item * bool)) (place : nat) (ref : nat)
  : list nat :=
  match items with
  | [] => []
  | (item, _) :: rest =>
      if hasRefOf item ref then place :: findFrom rest (S place) ref
      else findFrom rest (S place) ref
  end.

Definition findItemsForRef (scene : list (Item * bool)) (ref : nat) : list nat :=
  findFrom scene 0 ref.

(** [for item in ...: self.addToSelection( item )] *)
Fixpoint addAll (items : list nat) (scene : list (Item * bool))
  : result (list (Item * bool)) :=
  match items with
  | [] => Ok scene
  | item :: rest =>
      scene <- addToSelection scene item ;;
      addAll rest scene
  end.

(** [CFSceneMouseMixin.mousePressEvent] from the logical item on, given
    by its place in the scene; [onContextMenu] is taken to leave the
    selection as it is. *)
Definition mousePressEvent (scene : list (Item * bool)) (button : Button)
    (modifiers : Modifiers) (logicalItem : option nat)
  : result (list (Item * bool)) :=
  match button with
  | OtherButton => Ok (clearSelection scene)
  | RightButton =>
      match logicalItem with
      | None => Ok (clearSelection scene)
      | Some logicalItem =>
          selected <- isSelected scene logicalItem ;;
          if negb selected
          then Ok (setSelected (clearSelection scene) logicalItem true)
          else Ok scene
      end
  | LeftButton =>
      match logicalItem with
      | None => Ok (clearSelection scene)
      | Some logicalItem =>
          match modifiers with
          | NoModifier =>
              Ok (setSelected (clearSelection scene) logicalItem true)
          | ControlModifier =>
              selected <- isSelected scene logicalItem ;;
              if selected then Ok (setSelected scene logicalItem false)
              else addToSelection scene logicalItem
          | ShiftModifier =>
              addAll (findItemsForRef scene logicalItem)
                (clearSelection scene)
          | OtherModifiers => Ok scene
          end
      end
  end.

Lemma clearSelection_lookup (scene : list (Item * bool)) i item selected :
  clearSelection scene !! i = Some (item, selected) -> selected = false.
Proof.
  unfold clearSelection. rewrite list_lookup_fmap.
  destruct (scene !! i) as [[x s]|]; [|done]. by intros [= _ <-].
Qed.

Lemma clearSelection_items (scene : list (Item * bool)) :
  (clearSelection scene).*1 = scene.*1.
Proof.
  unfold clearSelection. rewrite <- list_fmap_compose.
  by apply list_fmap_ext.
Qed.

Lemma setSelected_items (scene : list (Item * bool)) index value :
  (setSelected scene index value).*1 = scene.*1.
Proof.
  unfold setSelected. apply list_eq. intros k. rewrite !list_lookup_fmap.
  destruct (decide (k = index)) as [->|Hk].
  - rewrite list_lookup_alter, decide_True by done.
    by destruct (scene !! index).
  - by rewrite list_lookup_alter_ne by congruence.
Qed.

Lemma hierarchical_clear (scene : list (Item * bool)) :
  hierarchical (clearSelection scene).
Proof.
  intros i j inner outer _ Hi. by apply clearSelection_lookup in Hi.
Qed.

Lemma hierarchical_single (scene : list (Item * bool)) index :
  hierarchical (setSelected (clearSelection scene) index true).
Proof.
  intros i j inner outer Hne Hi Hj. unfold setSelected in Hi, Hj.
  destruct (decide (i = index)) as [->|Hi'].
  - rewrite list_lookup_alter_ne in Hj by congruence.
    by apply clearSelection_lookup in Hj.
  - rewrite list_lookup_alter_ne in Hi by congruence.
    by apply clearSelection_lookup in Hi.
Qed.

Lemma hierarchical_deselect (scene : list (Item * bool)) index :
  hierarchical scene -> hierarchical (setSelected scene index false).
Proof.
  intros Hh i j inner outer Hne Hi Hj. unfold setSelected in Hi, Hj.
  assert (Hkeep : forall k x,
            alter (fun entry : Item * bool => (entry.1, false)) index scene !! k
              = Some (x, true) -> scene !! k = Some (x, true)).
  { intros k x Hk. destruct (decide (k = index)) as [->|Hk'].
    - rewrite list_lookup_alter, decide_True in Hk by done.
      by destruct (scene !! index).
    - by rewrite list_lookup_alter_ne in Hk by congruence. }
  apply (Hh i j inner outer Hne); by apply Hkeep.
Qed.

Lemma addAll_hierarchical (items : list nat) :
  forall scene scene',
    hierarchical scene -> addAll items scene = Ok scene' ->
    hierarchical scene' /\ scene'.*1 = scene.*1.
Proof.
  induction items as [|item rest IH]; intros scene scene' Hh Hall.
  - by injection Hall as <-.
  - cbn [addAll] in Hall.
    destruct (addToSelection scene item) as [scene1|] eqn:Hadd; [|done].
    cbn [Py.bind] in Hall.
    destruct (addToSelection_cases _ _ _ Hadd) as [Hitems Hcase].
    assert (Hh1 : hierarchical scene1).
    { destruct Hcase as [->|Hadded]; [done|].
      by apply (added_hierarchical scene scene1 item). }
    destruct (IH scene1 scene' Hh1 Hall) as [Hh' Hitems'].
    split; [done|]. by rewrite Hitems'.
Qed.

(** X16. Whatever the button, the modifiers and the item under the
    mouse, a mouse press that returns leaves a hierarchical selection
    when it found one - no selected item within another selected scope -
    and leaves the items of the scene as they are. A press with another
    button than left or right, or off every item, leaves nothing
    selected. *)
Theorem mousePressEvent_keeps_hierarchy
    (scene scene' : list (Item * bool)) (button : Button)
    (modifiers : Modifiers) (logicalItem : option nat) :
  hierarchical scene ->
  mousePressEvent scene button modifiers logicalItem = Ok scene' ->
  hierarchical scene' /\
  scene'.*1 = scene.*1 /\
  (button = OtherButton \/ logicalItem = None ->
   forall i item selected,
     scene' !! i = Some (item, selected) -> selected = false).
Proof.
  intros Hh. unfold mousePressEvent.
  assert (Hclear : Ok (clearSelection scene) = Ok scene' ->
            hierarchical scene' /\ scene'.*1 = scene.*1 /\
            (button = OtherButton \/ logicalItem = None ->
             forall i item selected,
               scene' !! i = Some (item, selected) -> selected = false)).
  { intros [= <-]. split; [apply hierarchical_clear|].
    split; [apply clearSelection_items|].
    intros _ i item selected. apply clearSelection_lookup. }
  assert (Hsingle : forall index,
            Ok (setSelected (clearSelection scene) index true) = Ok scene' ->
            hierarchical scene' /\ scene'.*1 = scene.*1).
  { intros index [= <-]. split; [apply hierarchical_single|].
    by rewrite setSelected_items, clearSelection_items. }
  destruct button; [|destruct logicalItem as [index|]; [|done]|done].
  - destruct logicalItem as [index|]; [|done].
    destruct modifiers.
    + intros Hs. destruct (Hsingle index Hs) as [? ?].
      repeat split; [done..|]. by intros [?|?].
    + destruct (isSelected scene index) as [[]|]; cbn [Py.bind]; [| |done].
      * intros [= <-]. split; [by apply hierarchical_deselect|].
        split; [apply setSelected_items|]. by intros [?|?].
      * intros Hadd.
        destruct (addToSelection_cases _ _ _ Hadd) as [Hitems Hcase].
        split; [|split; [done|by intros [?|?]]].
        destruct Hcase as [->|Hadded]; [done|].
        by apply (added_hierarchical scene scene' index).
    + intros Hall.
      destruct (addAll_hierarchical _ _ _ (hierarchical_clear scene) Hall)
        as [Hh' Hitems].
      split; [done|]. split; [by rewrite Hitems, clearSelection_items|].
      by intros [?|?].
    + intros [= <-]. repeat split; [done|]. by intros [?|?].
  - destruct (isSelected scene index) as [[]|]; cbn [Py.bind negb]; [| |done].
    + intros [= <-]. repeat split; [done|]. by intros [?|?].
    + intros Hs. destruct (Hsingle index Hs) as [? ?].
      repeat split; [done..|]. by intros [?|?].
Qed.

End MousePress.

(** A press with Control on the scope of a selected side comment. *)
Lemma mousePressEvent_keeps_hierarchy_witness :
  hierarchical scopeSelected /\
  scopeSelected.*1 = commentSelected.*1 /\
  (LeftButton = OtherButton \/ Some 0%nat = None ->
   forall i item selected,
     scopeSelected !! i = Some (item, selected) -> selected = false).
Proof.
  apply (mousePressEvent_keeps_hierarchy (fun _ _ => true)
           commentSelected scopeSelected LeftButton ControlModifier (Some 0%nat)).
  - intros i j inner outer Hne Hi Hj.
    destruct i as [|[|i]], j as [|[|j]]; done.
  - reflexivity.
Defined.

End Selection.

(** ** More of flowuimouse.py: when [getNearestItem] finds no item *)

Module NearestItem.

Import FlowUI.

Lemma lineLoop_far (items : list Item) (line : Z) :
  (forall item, item ∈ items -> isProxyItem item = false ->
     exists d, getLineDistance item line = Ok d /\ maxint <= d) ->
  lineLoop items line [] maxint = Ok ([], maxint).
Proof.
  induction items as [|item rest IH]; intros Hfar; [done|].
  assert (Hrest : lineLoop rest line [] maxint = Ok ([], maxint)).
  { apply IH. intros i Hi. apply Hfar, elem_of_cons. by right. }
  cbn [lineLoop]. destruct (isProxyItem item) eqn:Hproxy; [done|].
  destruct (Hfar item ltac:(apply elem_of_cons; by left) Hproxy)
    as (d & -> & Hd).
  cbn [Py.bind]. destruct (d =? maxint) eqn:E; [done|].
  destruct (d <? maxint) eqn:E1; [lia|].
  destruct (d =? maxint) eqn:E2; [lia|done].
Qed.

(** The logical item of an item that [getNearestItem] can choose is
    there: the cells of a scope frame have the line distance [maxint]. *)
Lemma logical_of_near (item : Item) (line d : Z) (logical : option Item) :
  isProxyItem item = false ->
  getLineDistance item line = Ok d -> d < maxint ->
  __getLogicalItem (Some item) = Ok logical ->
  exists found, logical = Some found.
Proof.
  intros Hproxy Hd Hnear. unfold __getLogicalItem, getLineDistance in *.
  rewrite Hproxy. destruct (scopedItem item); cbn [negb].
  - unfold scopeGetLineDistance in Hd.
    destruct (subKind item);
      try (injection Hd as <-; lia); try (intros [= <-]; eauto).
    destruct (getTopLeftItem item); cbn [Py.bind]; [|done].
    intros [= <-]. eauto.
  - intros [= <-]. eauto.
Qed.

(** X15. In a scene whose items have their distances and logical items,
    [getNearestItem] returns no item - and then the distance [maxint] -
    exactly when no item that is not a proxy has a line distance below
    [maxint]: an empty scene, a scene of proxies, or only cells of scope
    frames. Otherwise it returns an item and a distance below [maxint]. *)
Theorem getNearestItem_none_or_near
    (items : list Item) (absPos line pos : Z)
    (ld pd : Item -> Z) (lg : Item -> option Item) :
  measured absPos line ld pd lg items ->
  ((forall item, item ∈ items -> isProxyItem item = false ->
                 maxint <= ld item) /\
   getNearestItem items absPos line pos = Ok (None, maxint)) \/
  ((exists item, item ∈ items /\ isProxyItem item = false /\
                 ld item < maxint) /\
   exists found d,
     getNearestItem items absPos line pos = Ok (Some found, d) /\
     d < maxint).
Proof.
  intros Hm.
  destruct (decide (Exists (fun item => isProxyItem item = false /\
                                        ld item < maxint) items))
    as [Hex|Hno].
  - right. apply Exists_exists in Hex as (near & Hin & Hproxy & Hnear).
    split; [by exists near|].
    destruct (getNearestItem_spec absPos line ld pd lg items pos Hm)
      as (chosen & Hc & Hcp & Hmin & Hzero & Hother); [by exists near|].
    destruct (Hm chosen Hc Hcp) as (Hld & _ & Hlg & _ & Hpd).
    pose proof (Hmin near Hin Hproxy) as Hle.
    destruct (logical_of_near chosen line (ld chosen) (lg chosen)
                Hcp Hld ltac:(lia) Hlg) as [found Hfound].
    destruct (Z.eq_dec (ld chosen) 0) as [H0|H0].
    + destruct (lt_dec 1 (List.length
                  (List.filter
                     (fun item => negb (isProxyItem item) &&
                                  (ld item =? ld chosen)%Z) items)))
        as [Hs|Hs].
      * destruct (Hzero (conj H0 Hs)) as [_ ->].
        exists found, (pd chosen). rewrite Hfound. split; [done|by apply Hpd].
      * rewrite Hother by (by intros [_ ?]).
        exists found, (ld chosen). rewrite Hfound. split; [done|lia].
    + rewrite Hother by (by intros [? _]).
      exists found, (ld chosen). rewrite Hfound. split; [done|lia].
  - left. assert (Hfar : forall item, item ∈ items ->
                           isProxyItem item = false -> maxint <= ld item).
    { intros item Hin Hproxy.
      destruct (Z_lt_le_dec (ld item) maxint) as [Hlt|]; [|done].
      destruct Hno. apply Exists_exists. by exists item. }
    split; [done|]. unfold getNearestItem.
    rewrite (lineLoop_far items line); [done|].
    intros item Hin Hproxy. exists (ld item).
    split; [by apply (Hm item Hin Hproxy)|by apply Hfar].
Qed.

Lemma getNearestItem_none_or_near_witness :
  ((forall item, item ∈ forScene -> isProxyItem item = false ->
                 maxint <= lineDistanceOf 3 item) /\
   getNearestItem forScene 65 3 26 = Ok (None, maxint)) \/
  ((exists item, item ∈ forScene /\ isProxyItem item = false /\
                 lineDistanceOf 3 item < maxint) /\
   exists found d,
     getNearestItem forScene 65 3 26 = Ok (Some found, d) /\
     d < maxint).
Proof.
  apply (getNearestItem_none_or_near forScene 65 3 26
           (lineDistanceOf 3) (distanceOf 65) logicalOf).
  apply forScene_measured.
Defined.

End NearestItem.

(** ** More of bufferutils.py: the tags of the buffer *)

Module Tags.

Import BufferUtils.


















End Tags.

(** ** More of bufferutils.py: import lines *)

Module Imports.

Import BufferUtils.

Section ImportLine.

(** [isStringLiteral( editor, pos )]: the style at [pos] is one of the
    five string styles of the Python lexer. *)
Variable isStringLiteral : Editor -> Z -> bool.

(** [editor.lineIndexFromPosition( pos )] *)
Variable lineIndexFromPosition : Editor -> Z -> Z * Z.

(** A stripped line that the next line continues. *)
Definition continued (editor : Editor) (line : Z) : bool :=
  let prevLine := Py.strip (text editor line) in
  Py.endswith prevLine "\" || Py.endswith prevLine ",".

(** The [while True] loop that finds the beginning of the line: it
    steps back at most [line] times. *)
Fixpoint beginningOfLine (count : nat) (editor : Editor) (line : Z) : Z :=
  match count with
  | O => line
  | S count' =>
      if line =? 0 then line
      else if negb (continued editor (line - 1)) then line
      else beginningOfLine count' editor (line - 1)
  end.

Definition startsImport (text : string) : bool :=
  Py.startswith text "import " || Py.startswith text "from " ||
  Py.startswith text "import\" || Py.startswith text "from\".

(** [isImportLine] for a given [pos]. *)
Definition isImportLine (editor : Editor) (pos : Z) : bool * Z :=
  if isStringLiteral editor pos then (false, -1)
  else
    let '(line, index) := lineIndexFromPosition editor pos in
    let line := beginningOfLine (Z.to_nat line) editor line in
    let text := Py.strip (text editor line) in
    if startsImport text then
      if negb (isStringLiteral editor (positionFromLineIndex editor line 0))
      then (true, line)
      else (false, -1)
    else (false, -1).

Lemma beginningOfLine_spec (editor : Editor) : forall count line,
  0 <= line -> count = Z.to_nat line ->
  let first := beginningOfLine count editor line in
  0 <= first <= line /\
  (forall i, first <= i < line -> continued editor i = true) /\
  (first = 0 \/ continued editor (first - 1) = false).
Proof.
  induction count as [|count IH]; intros line Hline Hcount; cbn [beginningOfLine].
  - assert (line = 0) as -> by lia. repeat split; [lia..| |by left].
    intros i Hi. lia.
  - destruct (line =? 0) eqn:E0; [lia|].
    destruct (continued editor (line - 1)) eqn:Hc; cbn [negb].
    + destruct (IH (line - 1) ltac:(lia) ltac:(lia)) as (Hrange & Hcont & Hfirst).
      repeat split; [lia|lia| |done].
      intros i Hi. destruct (decide (i = line - 1)) as [->|]; [done|].
      apply Hcont. lia.
    + repeat split; [lia|lia| |by right]. intros i Hi. lia.
Qed.

(** X18. For a position on line [line >= 0], [isImportLine] answers
    either (False, -1) or (True, first) where [first], between 0 and
    [line], is the beginning of the statement the line belongs to: every
    line from [first] up to the one before [line] ends, once stripped,
    with a backslash or a comma, and the line before [first], if any,
    does not; the stripped line [first] starts with "import " or "from "
    (or these words followed by a backslash), and neither the position
    asked about nor the start of line [first] is in a string literal. *)
Theorem isImportLine_finds_statement (editor : Editor) (pos : Z) :
  0 <= (lineIndexFromPosition editor pos).1 ->
  let line := (lineIndexFromPosition editor pos).1 in
  isImportLine editor pos = (false, -1) \/
  exists first,
    isImportLine editor pos = (true, first) /\
    0 <= first <= line /\
    (forall i, first <= i < line -> continued editor i = true) /\
    (first = 0 \/ continued editor (first - 1) = false) /\
    startsImport (Py.strip (text editor first)) = true /\
    isStringLiteral editor pos = false /\
    isStringLiteral editor (positionFromLineIndex editor first 0) = false.
Proof.
  unfold isImportLine.
  destruct (lineIndexFromPosition editor pos) as [line index].
  cbn [fst]. intros Hline.
  destruct (isStringLiteral editor pos) eqn:Hpos; [by left|].
  destruct (beginningOfLine_spec editor (Z.to_nat line) line Hline eq_refl)
    as (Hrange & Hcont & Hfirst).
  set (first := beginningOfLine (Z.to_nat line) editor line) in *.
  destruct (startsImport (Py.strip (text editor first))) eqn:Hstart;
    [|by left].
  destruct (isStringLiteral editor (positionFromLineIndex editor first 0))
    eqn:Hlit; cbn [negb]; [by left|].
  right. exists first. split; [done|]. split; [done|]. split; [done|].
  split; [done|]. split; [done|]. by split.
Qed.

End ImportLine.

Lemma isImportLine_finds_statement_witness :
  let editor :=
    {| lexer := Some QsciLexerPython;
       editorLines := ["from os import path, \" +:+ Py.LF;
                       "    sep" +:+ Py.LF];
       getCursorPosition := (1, 4);
       positionFromLineIndex := fun line index => 23 * line + index;
       styleAt := fun _ => OtherStyle |} in
  let isStringLiteral := fun (_ : Editor) (_ : Z) => false in
  let lineIndexFromPosition := fun (_ : Editor) (pos : Z) => (pos / 23, pos mod 23) in
  isImportLine isStringLiteral lineIndexFromPosition editor 27 = (false, -1) \/
  exists first,
    isImportLine isStringLiteral lineIndexFromPosition editor 27 = (true, first) /\
    0 <= first <= 1 /\
    (forall i, first <= i < 1 -> continued editor i = true) /\
    (first = 0 \/ continued editor (first - 1) = false) /\
    startsImport (Py.strip (text editor first)) = true /\
    isStringLiteral editor 27 = false /\
    isStringLiteral editor (positionFromLineIndex editor first 0) = false.
Proof.
  intros editor isStringLiteral lineIndexFromPosition.
  apply (isImportLine_finds_statement isStringLiteral lineIndexFromPosition
           editor 27).
  vm_compute. discriminate.
Defined.

Example import_statement_continued :
  isImportLine (fun _ _ => false) (fun _ pos => (pos / 23, pos mod 23))
    {| lexer := Some QsciLexerPython;
       editorLines := ["from os import path, \" +:+ Py.LF;
                       "    sep" +:+ Py.LF];
       getCursorPosition := (1, 4);
       positionFromLineIndex := fun line index => 23 * line + index;
       styleAt := fun _ => OtherStyle |} 27 = (true, 0).
Proof. vm_compute. reflexivity. Qed.

End Imports.

(** ** More of bufferutils.py: what the indentation pass of [getContext]
    leaves *)

Module Indentation.

Import BufferUtils.
Import Resolver.

(** The test at the end of a turn of the loop: the line ends with a
    comma, a backslash or inside a triple quoted string. *)
Definition continuesLine (editor : Editor) (currentLine : Z) : bool :=
  let text := text editor currentLine in
  let trimmedText := Py.strip text in
  Py.endswith trimmedText "," || Py.endswith trimmedText "\" ||
  _endsWithTripleQuotedString editor currentLine (Py.len text - 1).

(** A line with code on it: not blank and not a comment. *)
Definition codeLine (editor : Editor) (currentLine : Z) : Prop :=
  Py.isempty (Py.strip (text editor currentLine)) = false /\
  Py.startswith (Py.strip (text editor currentLine)) "#" = false.

Definition exitLength (r : scanExit) : Z :=
  match r with
  | ScanReturn context | ScanDone context _ _ => length context
  end.

Lemma stripLevels_length (context : TextCursorContext) (n : Z) :
  length (stripLevels context n) <= length context.
Proof.
  unfold stripLevels. destruct (n / 4 <? length context) eqn:E; simpl; lia.
Qed.

Lemma stripLevels_depth (context : TextCursorContext) (n : Z) :
  length (stripLevels context n) <= n / 4.
Proof.
  unfold stripLevels. destruct (n / 4 <? length context) eqn:E; simpl; lia.
Qed.

Lemma scanLines_shrinks editor line range context continueLine nonSpacePos :
  consistent context ->
  (continueLine = true -> exists k, nonSpacePos = Some k /\ 0 <= k) ->
  exitLength (scanLines editor line range context continueLine nonSpacePos)
    <= length context.
Proof.
  intros Hcons Hinv.
  pose proof (scanLines_keeps editor line range context continueLine
                nonSpacePos Hcons Hinv) as Hkeep.
  assert (Hle : forall c, levels c `prefix_of` levels context ->
                          consistent c -> length c <= length context).
  { intros c [k Hk] Hc. unfold consistent in *. rewrite Hc, Hcons, Hk.
    rewrite length_app. lia. }
  destruct (scanLines _ _ _ _ _ _) as [c|c b n]; simpl.
  - destruct Hkeep. by apply Hle.
  - destruct Hkeep as (? & ? & _). by apply Hle.
Qed.

Lemma scanLines_bound (editor : Editor) (line i : Z) :
  codeLine editor i ->
  forall (count : nat) (first : Z) context continueLine nonSpacePos,
    consistent context ->
    (continueLine = true -> exists k, nonSpacePos = Some k /\ 0 <= k) ->
    first <= i < first + Z.of_nat count ->
    i < line \/ line < first ->
    (if i =? first then continueLine = false
     else continuesLine editor (i - 1) = false) ->
    exitLength (scanLines editor line (seqZ first (Z.of_nat count))
                  context continueLine nonSpacePos)
      <= _getFirstNonSpacePos (text editor i) / 4.
Proof.
  intros [Hcode Hnocomment].
  pose proof (firstNonSpace_of_stripped _ Hcode) as Hcol.
  assert (Hdepth : 0 <= _getFirstNonSpacePos (text editor i) / 4)
    by (apply Z.div_pos; lia).
  induction count as [|count IH];
    intros first context continueLine nonSpacePos Hcons Hinv Hi Hside Hstate;
    [lia|].
  rewrite seqZ_cons by lia.
  replace (Z.pred (Z.of_nat (S count))) with (Z.of_nat count) by lia.
  cbn [scanLines]. destruct (first =? line) eqn:Eline; [lia|].
  fold (continuesLine editor first).
  assert (Hnext : i <> first ->
            (if i =? Z.succ first then continuesLine editor first = false
             else continuesLine editor (i - 1) = false)).
  { intros Hne. destruct (i =? first) eqn:E; [lia|].
    destruct (i =? Z.succ first) eqn:E'; [|done].
    by replace first with (i - 1) by lia. }
  destruct continueLine; cbn [negb].
  - assert (i <> first).
    { intros ->. rewrite Z.eqb_refl in Hstate. done. }
    apply IH; [done| |lia|lia|by apply Hnext].
    intros _. by apply Hinv.
  - destruct (Py.isempty (Py.strip (text editor first)) ||
              Py.startswith (Py.strip (text editor first)) "#") eqn:Hskip.
    + assert (i <> first).
      { intros ->. rewrite Hcode, Hnocomment in Hskip. done. }
      apply IH; [done|by intros [=]|lia|lia|].
      destruct (i =? Z.succ first); [done|].
      destruct (i =? first) eqn:E; [lia|done].
    + apply orb_false_iff in Hskip as [Hcode' _].
      pose proof (firstNonSpace_of_stripped _ Hcode') as Hcol'.
      pose proof (consistent_stripLevels context _ Hcons Hcol') as Hcons'.
      destruct (length (stripLevels context _) =? 0) eqn:E0.
      { simpl. lia. }
      destruct (decide (i = first)) as [->|Hne].
      * etrans; [apply scanLines_shrinks; [done|eauto]|].
        apply stripLevels_depth.
      * apply IH; [done|eauto|lia|lia|by apply Hnext].
Qed.

Section Bound.

Variable getBriefModuleInfoFromMemory : string -> BriefModuleInfo.

(** X19. The depth [getContext] returns is bounded by the indentation of
    every line of code its loop counts. Let the scope walk end in a stack
    whose last frame has its colon on (1-based) line [colonLine], with no
    early return for a definition line. The loop runs over the lines
    (0-based) from [colonLine] on, up to the cursor line - or, when the
    cursor line is above [colonLine], as for a cursor after the colon on
    the colon line itself, up to the end of the buffer. For each of these
    lines that is neither blank nor a comment, and is the first of them
    or follows a line that does not continue, the context returned has at
    most [column / 4] frames, [column] being the index of the first
    character of the line that is no blank. *)
Theorem getContext_depth_bound
    (editor : Editor) (info : option BriefModuleInfo)
    (skipBlankLinesBack skipDef : bool) (line pos : Z)
    (walked : TextCursorContext) (d : InfoObj) (k : ScopeType) (i : Z) :
  lexer editor = Some QsciLexerPython ->
  0 <= (getCursorPosition editor).2 ->
  startPosition editor skipBlankLinesBack = (line, pos) ->
  _IdentifyScope
    (OfModule (outlineOf getBriefModuleInfoFromMemory editor info))
    newContext (line + 1) pos skipDef = Ok walked ->
  (skipDef = false ->
   _getDefinitionObject
     (outlineOf getBriefModuleInfoFromMemory editor info) (line + 1) pos
     = None) ->
  last (levels walked) = Some (d, k) ->
  colonLine d <= i < lines editor ->
  i < line \/ line < colonLine d ->
  codeLine editor i ->
  i = colonLine d \/ continuesLine editor (i - 1) = false ->
  exists context,
    getContext getBriefModuleInfoFromMemory editor info
      skipBlankLinesBack skipDef = Ok context /\
    length context <= _getFirstNonSpacePos (text editor i) / 4.
Proof.
  intros Hlexer Hcursor Hstart Hwalk Hdef Hlast Hi Hside Hcode Hstate.
  pose proof (startPosition_pos editor skipBlankLinesBack Hcursor) as Hpos.
  rewrite Hstart in Hpos. cbn [snd] in Hpos.
  destruct (walk_consistent
              (OfModule (outlineOf getBriefModuleInfoFromMemory editor info))
              newContext (line + 1) pos skipDef consistent_newContext)
    as (walked' & Hwalk' & Hcons & _).
  rewrite Hwalk in Hwalk'. injection Hwalk' as <-.
  unfold getContext. rewrite Hlexer, Hstart. cbn [isPythonLexer negb].
  fold (outlineOf getBriefModuleInfoFromMemory editor info).
  rewrite Hwalk. cbn [Py.bind].
  assert (Hnot : negb skipDef &&
                 bool_decide (is_Some (_getDefinitionObject
                    (outlineOf getBriefModuleInfoFromMemory editor info)
                    (line + 1) pos)) = false).
  { destruct skipDef; [done|]. rewrite (Hdef eq_refl). cbn [negb andb].
    apply bool_decide_eq_false. by intros [? ?]. }
  rewrite Hnot.
  assert (Hlen : length walked <> 0).
  { unfold consistent in Hcons. rewrite Hcons.
    destruct (levels walked); [done|simpl; lia]. }
  destruct (length walked =? 0) eqn:E0; [lia|].
  unfold getLastScopeLine. rewrite E0.
  destruct (index_consistent_last walked Hcons Hlen) as (pre & x & Hl & ->).
  rewrite Hl, last_snoc in Hlast. injection Hlast as ->.
  cbn [Py.bind fst]. unfold Py.xrange.
  assert (Hseq : forall m n, seqZ m n = seqZ m (Z.of_nat (Z.to_nat n))).
  { intros m n. unfold seqZ. by rewrite Nat2Z.id. }
  rewrite Hseq.
  pose proof (scanLines_bound editor line i Hcode
                (Z.to_nat (lines editor - colonLine d)) (colonLine d)
                walked false None Hcons ltac:(intros [=]) ltac:(lia) Hside)
    as Hbound.
  pose proof (scanLines_keeps editor line
                (seqZ (colonLine d)
                   (Z.of_nat (Z.to_nat (lines editor - colonLine d))))
                walked false None Hcons ltac:(intros [=])) as Hkeep.
  destruct (scanLines _ _ _ _ _ _) as [c|c continueLine nonSpacePos];
    cbn [exitLength] in Hbound.
  - exists c. split; [done|]. apply Hbound.
    destruct (i =? colonLine d) eqn:E; [done|].
    destruct Hstate as [?|?]; [lia|done].
  - assert (Hc : length c <= _getFirstNonSpacePos (text editor i) / 4).
    { apply Hbound. destruct (i =? colonLine d) eqn:E; [done|].
      destruct Hstate as [?|?]; [lia|done]. }
    destruct Hkeep as (_ & _ & Hinv).
    destruct continueLine.
    + destruct (Hinv eq_refl) as (n & -> & _).
      eexists. split; [done|].
      etrans; [apply stripLevels_length|done].
    + destruct (_getFirstNonSpacePos (text editor line) =? -1);
        (eexists; split; [done|]);
        (etrans; [apply stripLevels_length|done]).
Qed.

End Bound.

(** [def f(): return 1] followed by a statement at column 0: with the
    cursor at the end of the first line the loop runs over the second. *)
Definition oneLine_f : InfoObj :=
  mkInfoObj "f" 1 5 1 1 1 8 [] [] [].

Definition oneLine : Editor :=
  {| lexer := Some QsciLexerPython;
     editorLines := ["def f(): return 1" +:+ Py.LF;
                     "x = 2" +:+ Py.LF];
     getCursorPosition := (0, 17);
     positionFromLineIndex := fun _ _ => 0;
     styleAt := fun _ => OtherStyle |}.

Lemma getContext_depth_bound_witness :
  exists context,
    getContext (fun _ => mkBriefModuleInfo [] [oneLine_f]) oneLine None
      false true = Ok context /\
    length context <= _getFirstNonSpacePos (text oneLine 1) / 4.
Proof.
  apply (getContext_depth_bound (fun _ => mkBriefModuleInfo [] [oneLine_f])
           oneLine None false true 0 17
           {| levels := [(oneLine_f, FunctionScope)]; length := 1 |}
           oneLine_f FunctionScope 1).
  - reflexivity.
  - simpl. lia.
  - reflexivity.
  - vm_compute. reflexivity.
  - intros [=].
  - reflexivity.
  - vm_compute. split; [discriminate|reflexivity].
  - right. simpl. lia.
  - split; vm_compute; reflexivity.
  - by left.
Defined.

Example oneLine_is_global :
  getContext (fun _ => mkBriefModuleInfo [] [oneLine_f]) oneLine None
    false true = Ok {| levels := []; length := 0 |}.
Proof. vm_compute. reflexivity. Qed.

End Indentation.

(** ** The function the cursor is in *)

Module FunctionFrame.

Import BufferUtils.
Import Resolver.
Import Indentation.





Section Frame.

Variable getBriefModuleInfoFromMemory : string -> BriefModuleInfo.


End Frame.

(** [return g] in the body of [m], below the nested [g]: the walk goes
    on into [g], and the column of the cursor line brings the stack back
    to [m]. *)
Definition nested_g : InfoObj :=
  mkInfoObj "g" 3 13 3 9 3 16 [] [] [].

Definition nested_m : InfoObj :=
  mkInfoObj "m" 2 9 2 5 2 16 [] [] [nested_g].

Definition nested_A : InfoObj :=
  mkInfoObj "A" 1 7 1 1 1 8 [] [] [nested_m].

Definition nested_info : BriefModuleInfo :=
  mkBriefModuleInfo [nested_A] [].

Definition nested_editor : Editor :=
  {| lexer := Some QsciLexerPython;
     editorLines := ["class A:" +:+ Py.LF;
                     "    def m(self):" +:+ Py.LF;
                     "        def g():" +:+ Py.LF;
                     "            pass" +:+ Py.LF;
                     "        return g" +:+ Py.LF];
     getCursorPosition := (4, 16);
     positionFromLineIndex := fun _ _ => 0;
     styleAt := fun _ => OtherStyle |}.



(** The walk alone ends in [g]; the resolver returns [m]. *)
Example nested_then_body :
  _IdentifyScope (OfModule nested_info) newContext 5 16 true =
    Ok {| levels := [(nested_A, ClassScope); (nested_m, ClassMethodScope);
                     (nested_g, FunctionScope)];
          length := 3 |} /\
  getContext (fun _ => nested_info) nested_editor None false true =
    Ok {| levels := [(nested_A, ClassScope); (nested_m, ClassMethodScope)];
          length := 2 |}.
Proof. split; vm_compute; reflexivity. Qed.

End FunctionFrame.
